(** * kvk_url_finder: a shallow embedding of the matching engine

    The development follows [src/kvk_url_finder/kvk_engine.py].  Python
    integers are [Z], Python floats are modelled by exact rationals [Q]
    (every definition keeps the order of the arithmetic operations of the
    source), [None] is [option], Python sets are stdpp [gset]s, exceptions
    are explicit result types (with the state reached, where a call acts on
    one), and the logger is a list of log records.  A Python [str] is the
    list of its code points where the code looks at characters, and a
    [string] of UTF-8 text elsewhere. *)

From Stdlib Require Import ZArith QArith Qminmax Lqa Ascii String List Bool Lia.
From Stdlib Require Import Sorting.Permutation Sorting.Sorted.
From stdpp Require Import base decidable option list gmap strings.

Import ListNotations.
Local Open Scope Z_scope.

(** ** 1. Name cleaning ([clean_name], kvk_engine.py:79-108) *)

Module Re.

(** A Python [str] is the list of its code points. *)
Abbreviation str := (list N).

(** The fragment of Python's [re] syntax that [clean_name] uses. *)
Inductive regex : Type :=
| Cls (p : N -> bool)         (* one character of a class: \s \w \. [..] . *)
| Seq (r1 r2 : regex)         (* r1 r2 *)
| Star (r : regex)            (* r*, greedy *)
| Eos.                        (* $ *)

(** r+ *)
Definition Plus (r : regex) : regex := Seq r (Star r).

Definition code (c : ascii) : nat := nat_of_ascii c.

Definition is_newline (c : N) : bool := (c =? 10)%N.

(** [.] without DOTALL: anything but a line feed. *)
Definition is_dot (c : N) : bool := negb (is_newline c).

(** A character of the pattern that stands for itself. *)
Definition is_char (a : ascii) (c : N) : bool := (c =? N_of_ascii a)%N.

(** [matches fuel r s] lists, in the order in which the backtracking matcher
    of [re] tries them, the remainders of [s] after a match of [r] at the
    start of [s].  A greedy star tries one more iteration before it tries
    to stop; an iteration that consumes nothing ends the repetition.  [$]
    holds at the end of the string and before a line feed that ends it. *)
Fixpoint matches (fuel : nat) : regex -> str -> list str :=
  fix go (r : regex) (s : str) {struct r} : list str :=
    match r with
    | Cls p =>
        match s with
        | c :: s' => if p c then [s'] else []
        | [] => []
        end
    | Seq r1 r2 => flat_map (go r2) (go r1 s)
    | Star r1 =>
        match fuel with
        | O => [s]
        | S fuel' =>
            flat_map (fun s' => if (List.length s' <? List.length s)%nat
                                then matches fuel' (Star r1) s' else [])
                     (go r1 s) ++ [s]
        end
    | Eos =>
        match s with
        | [] => [s]
        | [c] => if is_newline c then [s] else []
        | _ => []
        end
    end.

(** The first successful path of the matcher at the start of [s]. *)
Definition match_here (r : regex) (s : str) : option str :=
  hd_error (matches (List.length s) r s).

(** [re.sub] with the empty replacement: scan from the left; where the
    pattern matches, drop the matched text and go on after it, otherwise keep
    the character. *)
Fixpoint sub_from (fuel : nat) (r : regex) (s : str) : str :=
  match fuel with
  | O => s
  | S fuel' =>
      match s with
      | [] => []
      | c :: s' =>
          match match_here r s with
          | Some rest =>
              if (List.length rest <? List.length s)%nat
              then sub_from fuel' r rest
              else c :: sub_from fuel' r s'
          | None => c :: sub_from fuel' r s'
          end
      end
  end.

Definition sub_empty (r : regex) (s : str) : str := sub_from (List.length s) r s.

(** Two patterns of the same shape whose classes agree on the characters
    that satisfy [P]. *)
Fixpoint agree (P : N -> Prop) (r r' : regex) : Prop :=
  match r, r' with
  | Cls p, Cls q => forall c, P c -> p c = q c
  | Seq r1 r2, Seq r1' r2' => agree P r1 r1' /\ agree P r2 r2'
  | Star r1, Star r1' => agree P r1 r1'
  | Eos, Eos => True
  | _, _ => False
  end.

End Re.

Import Re.

(** What [clean_name] takes from the Unicode database of the interpreter:
    [str.lower], and the classes [\s] and [\w] of [re] for [str] patterns. *)
Record unicode : Type := {
  str_lower : str -> str;
  re_space : N -> bool;
  re_word : N -> bool
}.

(** A [string] of this development holds a text in UTF-8, as the string
    literals of this file do: code points below 128 are one byte, the others
    two to four bytes.  Bytes that are no UTF-8 stand for no text of Python
    and are read leniently. *)
Fixpoint utf8_decode (pending : N) (need : nat) (s : list ascii) : str :=
  match s with
  | [] => []
  | b :: s' =>
      let n := N_of_ascii b in
      match need with
      | O =>
          if (n <? 192)%N then n :: utf8_decode 0 0 s'
          else if (n <? 224)%N then utf8_decode (n - 192) 1 s'
          else if (n <? 240)%N then utf8_decode (n - 224) 2 s'
          else utf8_decode (n - 240) 3 s'
      | S need' =>
          let c := (pending * 64 + n mod 64)%N in
          match need' with
          | O => c :: utf8_decode 0 0 s'
          | S _ => utf8_decode c need' s'
          end
      end
  end.

Definition utf8_encode (c : N) : list ascii :=
  if (c <? 128)%N then [ascii_of_N c]
  else if (c <? 2048)%N
  then [ascii_of_N (192 + c / 64); ascii_of_N (128 + c mod 64)]
  else if (c <? 65536)%N
  then [ascii_of_N (224 + c / 4096); ascii_of_N (128 + (c / 64) mod 64);
        ascii_of_N (128 + c mod 64)]
  else [ascii_of_N (240 + c / 262144); ascii_of_N (128 + (c / 4096) mod 64);
        ascii_of_N (128 + (c / 64) mod 64); ascii_of_N (128 + c mod 64)].

(** The code points of a text, and the text with given code points. *)
Definition codepoints (s : string) : str := utf8_decode 0 0 (list_ascii_of_string s).
Definition text (l : str) : string := string_of_list_ascii (flat_map utf8_encode l).

Section CleanName.

Variable U : unicode.

(** First substitution: pattern  \s(\w\.)+[\s]*  (legal forms such as B.V.) *)
Definition re_legal_form : regex :=
  Seq (Cls (re_space U))
      (Seq (Plus (Seq (Cls (re_word U)) (Cls (is_char "."))))
           (Star (Cls (re_space U)))).

(** Second substitution: an opening parenthesis, any text, a closing
    parenthesis, any text, end of string *)
Definition re_parenthesis : regex :=
  Seq (Cls (is_char "("))
      (Seq (Star (Cls is_dot))
           (Seq (Cls (is_char ")"))
                (Seq (Star (Cls is_dot)) Eos))).

(** Third substitution: one ampersand or double quote *)
Definition is_amp_or_quote (c : N) : bool := is_char "&" c || is_char "034" c.
Definition re_amp_quote : regex := Cls is_amp_or_quote.

(** Fourth substitution: pattern  \s+  *)
Definition re_spaces : regex := Plus (Cls (re_space U)).

Definition clean_name (naam : str) : str :=
  let naam_small := str_lower U naam in
  let naam_small := sub_empty re_legal_form naam_small in
  let naam_small := sub_empty re_parenthesis naam_small in
  let naam_small := sub_empty re_amp_quote naam_small in
  let naam_small := sub_empty re_spaces naam_small in
  naam_small.

(** [s.lower()] and [clean_name(s)] on the texts of this development. *)
Definition lower_string (s : string) : string := text (str_lower U (codepoints s)).
Definition clean_text (naam : string) : string := text (clean_name (codepoints naam)).

End CleanName.

(** The tables of the Unicode database for the code points below 256:
    the letters with a lower-case form (A-Z and the accented capitals), the
    white space and the word characters.  They serve the examples, whose
    texts stay in that range; beyond it [latin1] changes no letter and knows
    no white space and no word character. *)
Definition latin1_lower (c : N) : N :=
  if ((65 <=? c) && (c <=? 90) || (192 <=? c) && (c <=? 222) && negb (c =? 215))%N
  then (c + 32)%N else c.

Definition latin1_space (c : N) : bool :=
  ((9 <=? c) && (c <=? 13) || (28 <=? c) && (c <=? 32) || (c =? 133) || (c =? 160))%N.

Definition latin1_word (c : N) : bool :=
  ((48 <=? c) && (c <=? 57) || (65 <=? c) && (c <=? 90) || (c =? 95)
   || (97 <=? c) && (c <=? 122) || (c =? 170) || (178 <=? c) && (c <=? 179)
   || (c =? 181) || (185 <=? c) && (c <=? 186) || (188 <=? c) && (c <=? 190)
   || (192 <=? c) && (c <=? 214) || (216 <=? c) && (c <=? 246)
   || (248 <=? c) && (c <=? 255))%N.

Definition latin1 : unicode :=
  {| str_lower := map latin1_lower; re_space := latin1_space; re_word := latin1_word |}.

(** A text of ASCII characters, and a database that has the tables above
    on the ASCII range (as every version of the Unicode database has). *)
Definition is_ascii (s : str) : Prop := Forall (fun c => (c < 128)%N) s.

Definition ascii_tables (U : unicode) : Prop :=
  (forall s, is_ascii s -> str_lower U s = map latin1_lower s)
  /\ (forall c, (c < 128)%N -> re_space U c = latin1_space c)
  /\ (forall c, (c < 128)%N -> re_word U c = latin1_word c).

(** Lower-case text stays as it is when characters are taken out of it and
    it is put to lower case again, and [str.lower] makes no line feed. *)
Definition lower_is_stable (U : unicode) : Prop :=
  (forall s t, t `sublist_of` str_lower U s -> str_lower U t = t)
  /\ (forall s, In 10%N (str_lower U s) -> In 10%N s).

Definition newline : N := 10%N.

(** No opening parenthesis is followed, anywhere later in the text, by a
    closing one: the second substitution finds nothing to delete. *)
Fixpoint paren_free (s : str) : Prop :=
  match s with
  | [] => True
  | c :: s' => (c = 40%N -> ~ In 41%N s') /\ paren_free s'
  end.

(** The letter a, an opening parenthesis, a line feed, a closing parenthesis. *)
Definition name_with_line_break : str := [97; 40; 10; 41]%N.

(** The name holds no line feed. *)
Definition single_line (naam : str) : Prop :=
  Forall (fun c => is_newline c = false) naam.

(** ** 2. Exceptions, results and the log *)

Inductive exn : Type :=
| ValueError (msg : string)
| IndexError
| TypeError
| ZeroDivisionError
| AttributeError
| DatabaseError (msg : string)   (* pw.DatabaseError and its subclasses *)
| OtherError (msg : string).

Inductive result (A : Type) : Type :=
| Ok (a : A)
| Raise (e : exn).

Arguments Ok {A} a.
Arguments Raise {A} e.

#[global] Instance result_ret : MRet result := fun A a => Ok a.

#[global] Instance result_bind : MBind result := fun A B k r =>
  match r with
  | Ok a => k a
  | Raise e => Raise e
  end.

(** A call that acts on a state [S] (objects in memory, the store, the
    network) returns a value, or an exception leaves it; with the exception
    comes the state that the call had reached by then. *)
Inductive outcome (S A : Type) : Type :=
| Returns (a : A)
| Raises (s : S) (e : exn).

Arguments Returns {S A} a.
Arguments Raises {S A} s e.

Inductive log_level : Type := DEBUG | INFO | WARNING.

(** A stable sort by insertion: an element goes in front of the first one
    it does not have to follow, so rows that compare equal keep the order
    they had.  It stands for pandas' [sort_values] and [sort_index]. *)
Fixpoint insert_by {A : Type} (cmp : A -> A -> comparison) (x : A) (l : list A)
    : list A :=
  match l with
  | [] => [x]
  | y :: l' =>
      match cmp x y with
      | Gt => y :: insert_by cmp x l'
      | _ => x :: l
      end
  end.

Definition sort_by {A : Type} (cmp : A -> A -> comparison) (l : list A) : list A :=
  foldr (insert_by cmp) [] l.

(** [x] does not have to come after [y]. *)
Definition not_after {A : Type} (cmp : A -> A -> comparison) (x y : A) : Prop :=
  cmp x y <> Gt.

(** ** 3. Work partitioning ([KvKUrlParser.get_kvk_list_per_process],
       kvk_engine.py:296-353) *)

Record company_key : Type := {
  q_kvk_nummer : Z;
  q_core_id : option Z
}.

(** [dict(start=kvk_first, stop=kvk_last)] *)
Record kvk_range : Type := {
  range_start : Z;
  range_stop : Z
}.

Inductive partition_msg : Type :=
| MsgGettingRange
| MsgSomethingWrong.

(** The loop over the query (lines 306-319): returns [number_in_range] and
    [kvk_to_process]. *)
Fixpoint select_kvk (maximum_entries start stop : option Z) (force_process : bool)
    (query : list company_key) (number_in_range : Z) (kvk_to_process : list Z)
    : Z * list Z :=
  match query with
  | [] => (number_in_range, kvk_to_process)
  | q :: query' =>
      if match maximum_entries with
         | Some m => m <=? number_in_range
         | None => false
         end
      then (number_in_range, kvk_to_process)
      else
        let kvk := q_kvk_nummer q in
        if match start with Some a => kvk <? a | None => false end
           || match stop with Some b => b <? kvk | None => false end
        then select_kvk maximum_entries start stop force_process query'
               number_in_range kvk_to_process
        else
          let number_in_range := number_in_range + 1 in
          if negb force_process && bool_decide (is_Some (q_core_id q))
          then select_kvk maximum_entries start stop force_process query'
                 number_in_range kvk_to_process
          else select_kvk maximum_entries start stop force_process query'
                 number_in_range (kvk_to_process ++ [kvk])
  end.

(** [l[a:b]] and [l[a:]] for bounds that are not negative. *)
Definition slice {A : Type} (l : list A) (a b : Z) : list A :=
  take (Z.to_nat b - Z.to_nat a) (drop (Z.to_nat a) l).

Definition slice_from {A : Type} (l : list A) (a : Z) : list A :=
  drop (Z.to_nat a) l.

(** The list that worker [i_proc] gets (lines 341-344). *)
Definition kvk_list_of (kvk_to_process : list Z)
    (number_of_processes n_per_proc i_proc : Z) : list Z :=
  if i_proc =? number_of_processes - 1
  then slice_from kvk_to_process (i_proc * n_per_proc)
  else slice kvk_to_process (i_proc * n_per_proc) ((i_proc + 1) * n_per_proc).

(** Lines 346-353: the first and the last number of the list, or the warning
    of the [except IndexError] branch when the list is empty. *)
Definition range_of (kvk_list : list Z)
    : option kvk_range * list (log_level * partition_msg) :=
  match head kvk_list, last kvk_list with
  | Some kvk_first, Some kvk_last =>
      (Some {| range_start := kvk_first; range_stop := kvk_last |},
       [(INFO, MsgGettingRange)])
  | _, _ => (None, [(INFO, MsgGettingRange); (WARNING, MsgSomethingWrong)])
  end.

(** [int(n_kvk / number_of_processes) + n_kvk % number_of_processes]: the
    quotient truncated towards zero plus Python's remainder. *)
Definition n_per_proc_of (n_kvk number_of_processes : Z) : Z :=
  Z.quot n_kvk number_of_processes + n_kvk mod number_of_processes.

(** [range(number_of_processes)] *)
Definition py_range (n : Z) : list Z := map Z.of_nat (seq 0 (Z.to_nat n)).

Definition split_kvk (kvk_to_process : list Z) (number_of_processes : Z)
    : list (option kvk_range * list (log_level * partition_msg)) :=
  let n_kvk := Z.of_nat (List.length kvk_to_process) in
  let n_per_proc := n_per_proc_of n_kvk number_of_processes in
  map (fun i_proc =>
         range_of (kvk_list_of kvk_to_process number_of_processes n_per_proc i_proc))
      (py_range number_of_processes).

(** The whole method: the value left in [self.kvk_ranges] and the log. *)
Definition get_kvk_list_per_process
    (query : list company_key) (start stop maximum_entries : option Z)
    (force_process : bool) (number_of_processes : Z)
    : result (list kvk_range * list (log_level * partition_msg)) :=
  let '(number_in_range, kvk_to_process) :=
    select_kvk maximum_entries start stop force_process query 0 [] in
  let n_kvk := Z.of_nat (List.length kvk_to_process) in
  if number_in_range =? 0 then Raise (ValueError "No kvk numbers where found in range")
  else if n_kvk =? 0 then Raise (ValueError "none to be processed")
  else if n_kvk <? number_of_processes then Raise (ValueError "not enough kvk numbers")
  else if number_of_processes =? 0 then Raise ZeroDivisionError
  else
    let per_proc := split_kvk kvk_to_process number_of_processes in
    Ok (omap fst per_proc, concat (map snd per_proc)).

(** The chunks themselves, for stating coverage. *)
Definition kvk_chunks (kvk_to_process : list Z) (number_of_processes : Z)
    : list (list Z) :=
  let n_kvk := Z.of_nat (List.length kvk_to_process) in
  let n_per_proc := n_per_proc_of n_kvk number_of_processes in
  map (kvk_list_of kvk_to_process number_of_processes n_per_proc)
      (py_range number_of_processes).

(** ** 4. The main matching loop ([KvKUrlParser.find_best_matching_url],
       kvk_engine.py:524-576) *)

(** A row of the Company table, as the query delivers it. *)
Module Company.
Record row : Type := {
  kvk_nummer : Z;
  naam : string;
  url : option string;
  core_id : option Z;
  ranking : option Q;
  datetime : option Z
}.
End Company.

Inductive loop_msg : Type :=
| MsgMaximumEntriesReached
| MsgStopFileFound
| MsgAlreadyProcessed (kvk : Z) (name : string)
| MsgProcessing (kvk : Z) (name : string)
| MsgStartUrlSearch
| MsgDoneWith (name : string)
| MsgError (err : string)
| MsgSkipping.

Abbreviation loop_log := (list (log_level * loop_msg)).

(** How the loop ends: it runs to its end (or breaks), or an exception that
    it does not catch leaves it. *)
Inductive loop_end : Type :=
| LoopDone
| LoopRaised (e : exn).

Section MainLoop.

(** The store, the file system and the network are one state [World]; the
    construction [CompanyUrlMatch(company, ...)] acts on it and either
    returns the matcher (of which the loop reads [company_name]) or raises. *)
Variable World : Type.
Variable stop_file_exists : World -> bool.      (* os.path.exists(STOP_FILE) *)
Variable remove_stop_file : World -> World.     (* os.remove(STOP_FILE) *)
Variable CompanyUrlMatch : World -> Company.row -> World * result string.

Variable maximum_entries : option Z.
Variable force_process : bool.
Variable search_urls : bool.

(** [for cnt, company in enumerate(query)], from the row numbered [cnt] on.
    The progress bar only displays and is left out. *)
Fixpoint matching_loop (cnt : Z) (query : list Company.row) (w : World) (log : loop_log)
    : World * loop_log * loop_end :=
  match query with
  | [] => (w, log, LoopDone)
  | c :: query' =>
      if match maximum_entries with
         | Some m => cnt =? m
         | None => false
         end
      then (w, log ++ [(INFO, MsgMaximumEntriesReached)], LoopDone)
      else if stop_file_exists w
      then (remove_stop_file w, log ++ [(INFO, MsgStopFileFound)], LoopDone)
      else if bool_decide (is_Some (Company.core_id c)) && negb force_process
      then
        let skipped := MsgAlreadyProcessed (Company.kvk_nummer c) (Company.naam c) in
        matching_loop (cnt + 1) query' w (log ++ [(DEBUG, skipped)])
      else
        let processing := MsgProcessing (Company.kvk_nummer c) (Company.naam c) in
        let log := log ++ [(INFO, processing)] in
        let log := if search_urls then log ++ [(INFO, MsgStartUrlSearch)] else log in
        match CompanyUrlMatch w c with
        | (w', Ok company_name) =>
            matching_loop (cnt + 1) query' w'
              (log ++ [(DEBUG, MsgDoneWith company_name)])
        | (w', Raise (DatabaseError err)) =>
            matching_loop (cnt + 1) query' w'
              (log ++ [(WARNING, MsgError err); (WARNING, MsgSkipping)])
        | (w', Raise e) => (w', log, LoopRaised e)
        end
  end.

Definition find_best_matching_url (query : list Company.row) (w : World)
    : World * loop_log * loop_end :=
  matching_loop 0 query w [].

End MainLoop.

(** Rows that the loop went through (skipped or handed to the matcher) and
    rows handed to the matcher, read off the log. *)
Definition is_iterated (r : log_level * loop_msg) : bool :=
  match snd r with
  | MsgAlreadyProcessed _ _ | MsgProcessing _ _ => true
  | _ => false
  end.

Definition is_matched (r : log_level * loop_msg) : bool :=
  match snd r with
  | MsgProcessing _ _ => true
  | _ => false
  end.

Definition rows_iterated (log : loop_log) : Z :=
  Z.of_nat (List.length (List.filter is_iterated log)).
Definition rows_matched (log : loop_log) : Z :=
  Z.of_nat (List.length (List.filter is_matched log)).

(** ** 5. Spurious URLs ([KvKUrlParser.remove_spurious_urls],
       kvk_engine.py:777-798) *)

(** A row of the URL extract: columns KVK_KEY, NAME_KEY, URL_KEY. *)
Record url_row : Type := {
  r_kvk : Z;
  r_naam : string;
  r_url : string
}.

(** [groupby(URL_KEY)[URL_KEY].transform("count")] for one row. *)
Definition n_count (dataframe : list url_row) (r : url_row) : Z :=
  let same_url r' := String.eqb (r_url r') (r_url r) in
  Z.of_nat (List.length (List.filter same_url dataframe)).

(** [urls[n_count < self.n_count_threshold]] *)
Definition drop_frequent_urls (n_count_threshold : Z) (dataframe : list url_row)
    : list url_row :=
  List.filter (fun r => n_count dataframe r <? n_count_threshold) dataframe.

(** The index (KVK_KEY, URL_KEY) and its order. *)
Definition index_of (r : url_row) : Z * string := (r_kvk r, r_url r).

Definition index_compare (a b : url_row) : comparison :=
  match r_kvk a ?= r_kvk b with
  | Eq => String.compare (r_url a) (r_url b)
  | c => c
  end.

Definition index_eqb (a b : url_row) : bool :=
  (r_kvk a =? r_kvk b) && String.eqb (r_url a) (r_url b).

(** [urls[~urls.index.duplicated()]]: a row goes when its index value has
    occurred before it. *)
Fixpoint drop_duplicated (seen : list url_row) (urls : list url_row) : list url_row :=
  match urls with
  | [] => []
  | r :: urls' =>
      if existsb (index_eqb r) seen
      then drop_duplicated seen urls'
      else r :: drop_duplicated (r :: seen) urls'
  end.

Definition remove_spurious_urls (n_count_threshold : Z) (dataframe : list url_row)
    : list url_row :=
  let urls := drop_frequent_urls n_count_threshold dataframe in
  let urls := sort_by index_compare urls in
  let urls := drop_duplicated [] urls in
  urls.

(** ** 6. The scoring engine ([UrlCompanyRanking], kvk_engine.py:1670-1836) *)

(** The result of [tldextract.extract]. *)
Record tld_extract : Type := {
  subdomain : string;
  domain : string;
  suffix : string
}.

(** What the engine reads of a [UrlSearchStrings] object: [matches] and
    [url_per_match] under the keys POSTAL_CODE_KEY, KVK_KEY and BTW_KEY (a key
    that [url_per_match] lacks is [None]), [exists], [external_hrefs] and the
    two flags of [req]. *)
Module UrlSearch.
Record t : Type := {
  exists_ : bool;
  matches_postcode : list string;
  matches_kvk : list string;
  matches_btw : list string;
  url_per_match_postcode : option (list (string * string));
  url_per_match_kvk : option (list (string * string));
  url_per_match_btw : option (list (string * string));
  external_hrefs : list (option string);
  ssl : bool;
  ssl_invalid : bool
}.
End UrlSearch.

(** The attributes of a [UrlCompanyRanking] object. *)
Module Ranking.
Record t : Type := {
  url : string;
  company_name : string;
  company_postcodes : gset string;
  company_kvk_nummer : Z;
  url_analyse : option UrlSearch.t;
  threshold_string_match : option Q;
  threshold_distance : option Z;
  max_url_score : Z;
  ext : tld_extract;
  ranking : Q;
  distance : option Z;
  string_match : option Q;
  url_match : option Q;
  url_rank : option Q;
  has_postcode : bool;
  has_kvk_nummer : bool;
  has_btw_nummer : bool;
  btw_nummer : option string;
  postcode_set : gset string;
  kvk_set : gset Z;
  btw_set : gset string
}.
End Ranking.

(** [re.sub(r"\.", "", s)] *)
Definition strip_dots (s : string) : string :=
  text (sub_empty (Cls (is_char ".")) (codepoints s)).

(** [max(a, b)] and [min(a, b)] of Python return the first argument unless
    the second is strictly larger (smaller). *)
Definition py_max (a b : Q) : Q := if Qle_bool b a then a else b.
Definition py_min (a b : Z) : Z := if b <? a then b else a.

(** The two bonuses that [get_ranking] adds to [url_rank] (lines 1825-1833);
    where no branch is taken nothing is added. *)
Definition suffix_bonus (suffix : string) : Q :=
  if String.eqb suffix "com" || String.eqb suffix "org" || String.eqb suffix "eu" then 1
  else if String.eqb suffix "nl" then 2
  else 0.

Definition subdomain_bonus (subdomain : string) : Q :=
  if String.eqb subdomain "www" then 2
  else if String.eqb subdomain "" then 1
  else 0.

Definition bonus (b : bool) (points : Q) : Q := if b then points else 0.

Section Scoring.

(** Functions of other packages. *)
Variable standard_postcode : string -> string.          (* cbs_utils.misc *)
Variable py_int : string -> option Z.                   (* int(): None for ValueError *)
Variable Levenshtein_distance : string -> string -> Z.  (* Levenshtein.distance *)
Variable SequenceMatcher_ratio : string -> string -> Q. (* difflib ... .ratio() *)
Variable tldextract_extract : string -> tld_extract.    (* tldextract.extract *)

(** [[int(...) for kvk in kvk_lijst]] *)
Fixpoint int_all (l : list string) : result (list Z) :=
  match l with
  | [] => Ok []
  | s :: l' =>
      match py_int (strip_dots s) with
      | None => Raise (ValueError "invalid literal for int()")
      | Some k => ks ← int_all l'; Ok (k :: ks)
      end
  end.

Import Ranking.

(** [__init__] up to the calls of the four methods (lines 1680-1715). *)
Definition new_ranking (url company_name : string) (url_extract : option tld_extract)
    (url_analyse : option UrlSearch.t) (company_postcodes : gset string)
    (company_kvk_nummer : Z) (threshold_string_match : option Q)
    (threshold_distance : option Z) (max_url_score : Z) : Ranking.t :=
  {| url := url; company_name := company_name;
     company_postcodes := company_postcodes; company_kvk_nummer := company_kvk_nummer;
     url_analyse := url_analyse;
     threshold_string_match := threshold_string_match;
     threshold_distance := threshold_distance;
     max_url_score := max_url_score;
     ext := match url_extract with
            | None => tldextract_extract url
            | Some e => e
            end;
     ranking := 0;
     distance := None; string_match := None; url_match := None; url_rank := None;
     has_postcode := false; has_kvk_nummer := false; has_btw_nummer := false;
     btw_nummer := None;
     postcode_set := ∅; kvk_set := ∅; btw_set := ∅ |}.

Definition get_levenstein_distance (self : Ranking.t) : Ranking.t :=
  let subdomain_dist := Levenshtein_distance (subdomain (ext self)) (company_name self) in
  let domain_dist := Levenshtein_distance (domain (ext self)) (company_name self) in
  {| url := url self; company_name := company_name self;
     company_postcodes := company_postcodes self;
     company_kvk_nummer := company_kvk_nummer self;
     url_analyse := url_analyse self;
     threshold_string_match := threshold_string_match self;
     threshold_distance := threshold_distance self;
     max_url_score := max_url_score self; ext := ext self;
     ranking := ranking self;
     distance := Some (py_min subdomain_dist domain_dist);
     string_match := string_match self; url_match := url_match self;
     url_rank := url_rank self;
     has_postcode := has_postcode self; has_kvk_nummer := has_kvk_nummer self;
     has_btw_nummer := has_btw_nummer self; btw_nummer := btw_nummer self;
     postcode_set := postcode_set self; kvk_set := kvk_set self;
     btw_set := btw_set self |}.

Definition get_string_match (self : Ranking.t) : Ranking.t :=
  let subdomain_match := SequenceMatcher_ratio (subdomain (ext self)) (company_name self) in
  let domain_match := SequenceMatcher_ratio (domain (ext self)) (company_name self) in
  {| url := url self; company_name := company_name self;
     company_postcodes := company_postcodes self;
     company_kvk_nummer := company_kvk_nummer self;
     url_analyse := url_analyse self;
     threshold_string_match := threshold_string_match self;
     threshold_distance := threshold_distance self;
     max_url_score := max_url_score self; ext := ext self;
     ranking := ranking self;
     distance := distance self;
     string_match := Some (py_max subdomain_match domain_match);
     url_match := url_match self; url_rank := url_rank self;
     has_postcode := has_postcode self; has_kvk_nummer := has_kvk_nummer self;
     has_btw_nummer := has_btw_nummer self; btw_nummer := btw_nummer self;
     postcode_set := postcode_set self; kvk_set := kvk_set self;
     btw_set := btw_set self |}.

(** [rank_contact_list] (lines 1746-1779): the scores are computed and
    sorted on, but [sort_values] returns a new frame that is dropped, so each
    list of [matches] becomes the keys of its [url_per_match] entry in
    their own order.  Without a search object the attribute access fails. *)
Definition matches_after_rank (per_match : option (list (string * string)))
    (matches : list string) : list string :=
  match per_match with
  | Some url_p_m => map fst url_p_m
  | None => matches
  end.

Definition rank_contact_list (self : Ranking.t) : result Ranking.t :=
  match url_analyse self with
  | None => Raise AttributeError
  | Some a =>
      let a' :=
        {| UrlSearch.exists_ := UrlSearch.exists_ a;
           UrlSearch.matches_postcode :=
             matches_after_rank (UrlSearch.url_per_match_postcode a)
                                (UrlSearch.matches_postcode a);
           UrlSearch.matches_kvk :=
             matches_after_rank (UrlSearch.url_per_match_kvk a) (UrlSearch.matches_kvk a);
           UrlSearch.matches_btw :=
             matches_after_rank (UrlSearch.url_per_match_btw a) (UrlSearch.matches_btw a);
           UrlSearch.url_per_match_postcode := UrlSearch.url_per_match_postcode a;
           UrlSearch.url_per_match_kvk := UrlSearch.url_per_match_kvk a;
           UrlSearch.url_per_match_btw := UrlSearch.url_per_match_btw a;
           UrlSearch.external_hrefs := UrlSearch.external_hrefs a;
           UrlSearch.ssl := UrlSearch.ssl a;
           UrlSearch.ssl_invalid := UrlSearch.ssl_invalid a |} in
      Ok {| url := url self; company_name := company_name self;
            company_postcodes := company_postcodes self;
            company_kvk_nummer := company_kvk_nummer self;
            url_analyse := Some a';
            threshold_string_match := threshold_string_match self;
            threshold_distance := threshold_distance self;
            max_url_score := max_url_score self; ext := ext self;
            ranking := ranking self;
            distance := distance self; string_match := string_match self;
            url_match := url_match self; url_rank := url_rank self;
            has_postcode := has_postcode self; has_kvk_nummer := has_kvk_nummer self;
            has_btw_nummer := has_btw_nummer self; btw_nummer := btw_nummer self;
            postcode_set := postcode_set self; kvk_set := kvk_set self;
            btw_set := btw_set self |}
  end.

(** [get_ranking] (lines 1781-1836).  The names of the local values are
    those of the attributes they are assigned to, numbered in the order of
    the assignments. *)
Definition get_ranking (self : Ranking.t) : result Ranking.t :=
  let '(postcode_lijst, kvk_lijst, btw_lijst) :=
    match url_analyse self with
    | Some a =>
        (UrlSearch.matches_postcode a, UrlSearch.matches_kvk a, UrlSearch.matches_btw a)
    | None => ([], [], [])
    end in
  let postcode_set : gset string := list_to_set (map standard_postcode postcode_lijst) in
  kvks ← int_all kvk_lijst;
  let kvk_set : gset Z := list_to_set kvks in
  let btw_set : gset string := list_to_set (map strip_dots btw_lijst) in
  (* lines 1799-1804 *)
  let has_postcode :=
    bool_decide (company_postcodes self ≠ ∅)
    && bool_decide (company_postcodes self ∩ postcode_set ≠ ∅) in
  let ranking1 := (ranking self + bonus has_postcode 3)%Q in
  (* lines 1806-1810 *)
  let kvk_found := bool_decide (company_kvk_nummer self ∈ kvk_set) in
  let has_kvk_nummer := has_kvk_nummer self || kvk_found in
  let ranking2 := (ranking1 + bonus kvk_found 3)%Q in
  (* lines 1812-1819 *)
  let has_btw := bool_decide (btw_set ≠ ∅) in
  let has_btw_nummer := has_btw_nummer self || has_btw in
  let btw_nummer := strip_dots <$> head (elements btw_set) in
  let ranking3 := (ranking2 + bonus has_btw 0)%Q in
  (* lines 1822-1823 *)
  match distance self, string_match self, threshold_distance self with
  | Some distance, Some string_match, Some threshold =>
      if threshold =? 0 then Raise ZeroDivisionError
      else
        let url_match := (inject_Z distance * (1 - string_match))%Q in
        let url_rank0 :=
          py_max (inject_Z (max_url_score self)
                  * (1 - url_match / inject_Z threshold))%Q 0 in
        (* lines 1825-1833 *)
        let url_rank1 := (url_rank0 + suffix_bonus (suffix (ext self)))%Q in
        let url_rank2 := (url_rank1 + subdomain_bonus (subdomain (ext self)))%Q in
        (* line 1836 *)
        let ranking4 := (ranking3 + url_rank2)%Q in
        Ok {| url := url self; company_name := company_name self;
              company_postcodes := company_postcodes self;
              company_kvk_nummer := company_kvk_nummer self;
              url_analyse := url_analyse self;
              threshold_string_match := threshold_string_match self;
              threshold_distance := threshold_distance self;
              max_url_score := max_url_score self; ext := ext self;
              ranking := ranking4;
              distance := Some distance; string_match := Some string_match;
              url_match := Some url_match; url_rank := Some url_rank2;
              has_postcode := has_postcode; has_kvk_nummer := has_kvk_nummer;
              has_btw_nummer := has_btw_nummer; btw_nummer := btw_nummer;
              postcode_set := postcode_set; kvk_set := kvk_set; btw_set := btw_set |}
  | _, _, _ => Raise TypeError
  end.

(** The constructor. *)
Definition UrlCompanyRanking (url company_name : string) (url_extract : option tld_extract)
    (url_analyse : option UrlSearch.t) (company_postcodes : gset string)
    (company_kvk_nummer : Z) (threshold_string_match : option Q)
    (threshold_distance : option Z) : result Ranking.t :=
  let self := new_ranking url company_name url_extract url_analyse company_postcodes
                company_kvk_nummer threshold_string_match threshold_distance 3 in
  let self := get_levenstein_distance self in
  let self := get_string_match self in
  self ← rank_contact_list self;
  get_ranking self.

End Scoring.

(** ** 7. The candidates of one company ([UrlCollection],
       kvk_engine.py:1233-1667) *)

(** A row of the Website table; [url] stands for the registry row that it
    refers to, by its URL string. *)
Module Website.
Record row : Type := {
  url : option string;
  naam : option string;
  bestaat : option bool;
  getest : option bool;
  best_match : option bool;
  has_postcode : option bool;
  has_kvk_nr : option bool;
  has_btw_nr : option bool;
  string_match : option Q;
  levenshtein : option Z;
  url_match : option Q;
  url_rank : option Q;
  ranking : option Q
}.
End Website.

(** A row of the UrlNL table (the URL registry).  Times are counted in
    microseconds, so a [timedelta] is an integer as well. *)
Module UrlNL.
Record row : Type := {
  url : string;
  datetime : option Z;
  suffix : option string;
  subdomain : option string;
  domain : option string;
  bestaat : option bool;
  ssl : option bool;
  ssl_invalid : option bool;
  social_media : option string;
  ecommerce : option string;
  all_kvk : option string;
  all_btw : option string;
  all_psc : option string;
  kvk_nummer : option Z;
  post_code : option string;
  btw_nummer : option string;
  referred_by : option string
}.

End UrlNL.

(** A row of the data frame [web_df].  Its columns WEB_DF_COLS are declared
    in [kvk_url_finder.models], which is not among the sources; they are
    taken in the order in which the row assignment of [collect_web_sites]
    (lines 1604-1615) lists their values.  A cell that was never assigned
    holds NaN, here [None].  [index] is the label of the row. *)
Module WebDf.
Record row : Type := {
  index : nat;
  url : option string;                      (* URL_KEY *)
  exists_ : option bool;                    (* EXISTS_KEY *)
  distance : option Z;                      (* DISTANCE_KEY *)
  string_match : option Q;                  (* STRING_MATCH_KEY *)
  distance_string_match : option Q;         (* DISTANCE_STRING_MATCH_KEY *)
  url_rank : option Q;
  has_postcode : option bool;               (* HAS_POSTCODE_KEY *)
  has_kvk_nr : option bool;                 (* HAS_KVK_NR *)
  subdomain : option string;
  domain : option string;
  suffix : option string;
  ranking : option Q                        (* RANKING_KEY *)
}.

(** A row of [pd.DataFrame(index=range(n), columns=WEB_DF_COLS)]. *)
Definition nan (i : nat) : row :=
  {| index := i; url := None; exists_ := None; distance := None; string_match := None;
     distance_string_match := None; url_rank := None; has_postcode := None;
     has_kvk_nr := None; subdomain := None; domain := None; suffix := None;
     ranking := None |}.

End WebDf.

(** The row assignment of lines 1604-1615. *)
Definition web_df_row (i_web : nat) (url : string) (m : Ranking.t)
    (web_ranking : option Q) : WebDf.row :=
  {| WebDf.index := i_web;
     WebDf.url := Some url;
     WebDf.exists_ := Some true;
     WebDf.distance := Ranking.distance m;
     WebDf.string_match := Ranking.string_match m;
     WebDf.distance_string_match := Ranking.url_match m;
     WebDf.url_rank := Ranking.url_rank m;
     WebDf.has_postcode := Some (Ranking.has_postcode m);
     WebDf.has_kvk_nr := Some (Ranking.has_kvk_nummer m);
     WebDf.subdomain := Some (subdomain (Ranking.ext m));
     WebDf.domain := Some (domain (Ranking.ext m));
     WebDf.suffix := Some (suffix (Ranking.ext m));
     WebDf.ranking := web_ranking |}.

(** *** Staleness ([check_if_url_needs_update], lines 1350-1391) *)

(** Truth values of Python: a [datetime] is true; a [timedelta] is true
    unless it is zero. *)
Definition timedelta_true (older_time : option Z) : bool :=
  match older_time with
  | Some d => negb (d =? 0)
  | None => false
  end.

Definition check_if_url_needs_update (older_time : option Z) (now : Z)
    (url_nl : UrlNL.row) (url_extract : tld_extract) : UrlNL.row * bool :=
  let processing_time := UrlNL.datetime url_nl in
  let url_needs_update :=
    match processing_time, older_time with
    | Some t, Some older =>
        if timedelta_true older_time
        then let delta_time := now - t in
             if delta_time <? older then false else true
        else true
    | _, _ => true
    end in
  if url_needs_update
  then ({| UrlNL.url := UrlNL.url url_nl;
           UrlNL.datetime := Some now;
           UrlNL.suffix := Some (suffix url_extract);
           UrlNL.subdomain := Some (subdomain url_extract);
           UrlNL.domain := Some (domain url_extract);
           UrlNL.bestaat := UrlNL.bestaat url_nl; UrlNL.ssl := UrlNL.ssl url_nl;
           UrlNL.ssl_invalid := UrlNL.ssl_invalid url_nl;
           UrlNL.social_media := UrlNL.social_media url_nl;
           UrlNL.ecommerce := UrlNL.ecommerce url_nl;
           UrlNL.all_kvk := UrlNL.all_kvk url_nl; UrlNL.all_btw := UrlNL.all_btw url_nl;
           UrlNL.all_psc := UrlNL.all_psc url_nl;
           UrlNL.kvk_nummer := UrlNL.kvk_nummer url_nl;
           UrlNL.post_code := UrlNL.post_code url_nl;
           UrlNL.btw_nummer := UrlNL.btw_nummer url_nl;
           UrlNL.referred_by := UrlNL.referred_by url_nl |}, true)
  else (url_nl, false).

(** [s.split(",")] *)
Fixpoint split_chars (sep : ascii) (cur : list ascii) (s : list ascii)
    : list (list ascii) :=
  match s with
  | [] => [rev cur]
  | c :: s' =>
      if Ascii.eqb c sep then rev cur :: split_chars sep [] s'
      else split_chars sep (c :: cur) s'
  end.

Definition split_comma (s : string) : list string :=
  map string_of_list_ascii (split_chars "," [] (list_ascii_of_string s)).

(** [if field is not None and field != "": matches[key] = field.split(",")] *)
Definition stored_matches (field : option string) (matches : list string) : list string :=
  match field with
  | None => matches
  | Some s => if String.eqb s "" then matches else split_comma s
  end.

(** [dom in names and dom not in found]: [found.append(dom)] *)
Definition append_new (names found : list string) (dom : string) : list string :=
  if existsb (String.eqb dom) names && negb (existsb (String.eqb dom) found)
  then found ++ [dom]
  else found.

(** *** Fetching or reusing a page ([scrape_url_and_store_in_tables],
        lines 1393-1477) *)

Section Scrape.

(** [UrlSearchStrings(url, ..., scrape_url=flag)] of cbs_utils: with the flag
    set the page is fetched, without it no request is made. *)
Variable U : unicode.
Variable UrlSearchStrings : string -> bool -> UrlSearch.t.
Variable tldextract_extract : string -> tld_extract.
(** SOCIAL_MEDIA and PAY_OPTIONS of [kvk_url_finder.models], and
    [paste_strings(..., max_length=MAX_CHARFIELD_LENGTH)] of
    [kvk_url_finder.utils]; none of them is among the sources. *)
Variable SOCIAL_MEDIA : list string.
Variable PAY_OPTIONS : list string.
Variable paste_strings : list string -> option string.

(** What the method leaves behind: the two rows, the search object that it
    returns (or the exception that leaves it), and the live fetches it made,
    each with the registry row as it was then. *)
Record scraped : Type := {
  scraped_web : Website.row;
  scraped_url_nl : UrlNL.row;
  scraped_analyse : result UrlSearch.t;
  scraped_fetches : list (string * UrlNL.row)
}.

(** The branch [if not url_needs_update] (lines 1429-1441). *)
Definition reuse_stored (url_nl : UrlNL.row) (a : UrlSearch.t) : UrlSearch.t :=
  {| UrlSearch.exists_ := true;
     UrlSearch.matches_postcode :=
       stored_matches (UrlNL.all_psc url_nl) (UrlSearch.matches_postcode a);
     UrlSearch.matches_kvk :=
       stored_matches (UrlNL.all_kvk url_nl) (UrlSearch.matches_kvk a);
     UrlSearch.matches_btw :=
       stored_matches (UrlNL.all_btw url_nl) (UrlSearch.matches_btw a);
     UrlSearch.url_per_match_postcode := UrlSearch.url_per_match_postcode a;
     UrlSearch.url_per_match_kvk := UrlSearch.url_per_match_kvk a;
     UrlSearch.url_per_match_btw := UrlSearch.url_per_match_btw a;
     UrlSearch.external_hrefs := UrlSearch.external_hrefs a;
     UrlSearch.ssl := UrlSearch.ssl a;
     UrlSearch.ssl_invalid := UrlSearch.ssl_invalid a |}.

(** The loop over [external_hrefs] of the other branch (lines 1444-1455),
    for one of its two lists.  The loop hands every link to
    [tldextract.extract], also a link that is [None]: the function then
    applies a string method to [None], which is an AttributeError. *)
Fixpoint found_names_from (names : list string) (found : list string)
    (hrefs : list (option string)) : result (list string) :=
  match hrefs with
  | [] => Ok found
  | Some external_url :: hrefs' =>
      let dom := domain (tldextract_extract external_url) in
      found_names_from names (append_new (map (lower_string U) names) found dom) hrefs'
  | None :: _ => Raise AttributeError
  end.

Definition found_names (names : list string) (hrefs : list (option string))
    : result (list string) :=
  found_names_from names [] hrefs.

(** Lines 1444-1464. *)
Definition store_scraped (url_nl : UrlNL.row) (a : UrlSearch.t) : result UrlNL.row :=
  sm_list ← found_names SOCIAL_MEDIA (UrlSearch.external_hrefs a);
  ec_list ← found_names PAY_OPTIONS (UrlSearch.external_hrefs a);
  Ok
  {| UrlNL.url := UrlNL.url url_nl;
     UrlNL.datetime := UrlNL.datetime url_nl;
     UrlNL.suffix := UrlNL.suffix url_nl;
     UrlNL.subdomain := UrlNL.subdomain url_nl;
     UrlNL.domain := UrlNL.domain url_nl;
     UrlNL.bestaat := if UrlSearch.exists_ a then Some true else UrlNL.bestaat url_nl;
     UrlNL.ssl :=
       if UrlSearch.exists_ a then Some (UrlSearch.ssl a) else UrlNL.ssl url_nl;
     UrlNL.ssl_invalid :=
       if UrlSearch.exists_ a then Some (UrlSearch.ssl_invalid a)
       else UrlNL.ssl_invalid url_nl;
     UrlNL.social_media :=
       match sm_list with
       | [] => UrlNL.social_media url_nl
       | _ => paste_strings sm_list
       end;
     UrlNL.ecommerce :=
       match ec_list with
       | [] => UrlNL.ecommerce url_nl
       | _ => paste_strings ec_list
       end;
     UrlNL.all_kvk := UrlNL.all_kvk url_nl; UrlNL.all_btw := UrlNL.all_btw url_nl;
     UrlNL.all_psc := UrlNL.all_psc url_nl;
     UrlNL.kvk_nummer := UrlNL.kvk_nummer url_nl;
     UrlNL.post_code := UrlNL.post_code url_nl;
     UrlNL.btw_nummer := UrlNL.btw_nummer url_nl;
     UrlNL.referred_by := UrlNL.referred_by url_nl |}.

(** [web.getest = True] and lines 1468-1472. *)
Definition tested (web : Website.row) (bestaat : bool) : Website.row :=
  {| Website.url := Website.url web; Website.naam := Website.naam web;
     Website.bestaat := Some bestaat; Website.getest := Some true;
     Website.best_match := Website.best_match web;
     Website.has_postcode := Website.has_postcode web;
     Website.has_kvk_nr := Website.has_kvk_nr web;
     Website.has_btw_nr := Website.has_btw_nr web;
     Website.string_match := Website.string_match web;
     Website.levenshtein := Website.levenshtein web;
     Website.url_match := Website.url_match web;
     Website.url_rank := Website.url_rank web;
     Website.ranking := Website.ranking web |}.

(** [web.getest = True] alone: the row when the loop over the links raises. *)
Definition getest_set (web : Website.row) : Website.row :=
  {| Website.url := Website.url web; Website.naam := Website.naam web;
     Website.bestaat := Website.bestaat web; Website.getest := Some true;
     Website.best_match := Website.best_match web;
     Website.has_postcode := Website.has_postcode web;
     Website.has_kvk_nr := Website.has_kvk_nr web;
     Website.has_btw_nr := Website.has_btw_nr web;
     Website.string_match := Website.string_match web;
     Website.levenshtein := Website.levenshtein web;
     Website.url_match := Website.url_match web;
     Website.url_rank := Website.url_rank web;
     Website.ranking := Website.ranking web |}.

Definition scrape_url_and_store_in_tables (url : string) (web : Website.row)
    (url_nl : UrlNL.row) (url_needs_update : bool) : scraped :=
  let url_analyse := UrlSearchStrings url url_needs_update in
  let fetches := if url_needs_update then [(url, url_nl)] else [] in
  if negb url_needs_update
  then
    let url_analyse := reuse_stored url_nl url_analyse in
    {| scraped_web := tested web (UrlSearch.exists_ url_analyse);
       scraped_url_nl := url_nl;
       scraped_analyse := Ok url_analyse;
       scraped_fetches := fetches |}
  else
    match store_scraped url_nl url_analyse with
    | Ok url_nl =>
        {| scraped_web := tested web (UrlSearch.exists_ url_analyse);
           scraped_url_nl := url_nl;
           scraped_analyse := Ok url_analyse;
           scraped_fetches := fetches |}
    | Raise e =>
        {| scraped_web := getest_set web;
           scraped_url_nl := url_nl;
           scraped_analyse := Raise e;
           scraped_fetches := fetches |}
    end.

(** Lines 1512-1524 of [collect_web_sites]: the staleness decision, the
    reset of the Website row, and the fetch when scraping is switched on. *)
Definition started (web : Website.row) (company_name : string) : Website.row :=
  {| Website.url := Website.url web; Website.naam := Some company_name;
     Website.bestaat := Some false; Website.getest := Some false;
     Website.best_match := Website.best_match web;
     Website.has_postcode := Website.has_postcode web;
     Website.has_kvk_nr := Website.has_kvk_nr web;
     Website.has_btw_nr := Website.has_btw_nr web;
     Website.string_match := Website.string_match web;
     Website.levenshtein := Website.levenshtein web;
     Website.url_match := Website.url_match web;
     Website.url_rank := Website.url_rank web;
     Website.ranking := Website.ranking web |}.

(** [analysed_analyse] is the value of [url_analyse] ([None] without
    scraping), or the exception that left the fetch. *)
Record analysed : Type := {
  analysed_web : Website.row;
  analysed_url_nl : UrlNL.row;
  analysed_needs_update : bool;
  analysed_analyse : result (option UrlSearch.t);
  analysed_fetches : list (string * UrlNL.row)
}.

Definition update_and_scrape (older_time : option Z) (now : Z) (internet_scraping : bool)
    (company_name : string) (url : string) (url_extract : tld_extract)
    (web : Website.row) (url_nl : UrlNL.row) : analysed :=
  let '(url_nl, url_needs_update) :=
    check_if_url_needs_update older_time now url_nl url_extract in
  let web := started web company_name in
  if internet_scraping
  then
    let s := scrape_url_and_store_in_tables url web url_nl url_needs_update in
    {| analysed_web := scraped_web s; analysed_url_nl := scraped_url_nl s;
       analysed_needs_update := url_needs_update;
       analysed_analyse := a ← scraped_analyse s; Ok (Some a);
       analysed_fetches := scraped_fetches s |}
  else
    {| analysed_web := web; analysed_url_nl := url_nl;
       analysed_needs_update := url_needs_update;
       analysed_analyse := Ok None; analysed_fetches := [] |}.

End Scrape.

(** *** The shortlist ([get_best_matching_web_site], lines 1632-1667) *)

(** A cell of a boolean column used as a mask: NaN counts as false. *)
Definition holds (cell : option bool) : bool :=
  match cell with
  | Some true => true
  | _ => false
  end.

(** [web_df[DISTANCE_KEY].min()]: the least distance in the column, NaN
    cells skipped; NaN when there is none. *)
Definition column_min (web_df : list WebDf.row) : option Z :=
  foldr (fun r acc =>
           match WebDf.distance r, acc with
           | Some d, Some m => Some (Z.min d m)
           | Some d, None => Some d
           | None, _ => acc
           end)
        None web_df.

(** The masks m1 and m2; a comparison with NaN is false. *)
Definition distance_mask (threshold_distance : option Z) (web_df : list WebDf.row)
    (r : WebDf.row) : bool :=
  match threshold_distance with
  | Some threshold =>
      match WebDf.distance r, column_min web_df with
      | Some d, Some m => d - m <=? threshold
      | _, _ => false
      end
  | None => holds (WebDf.exists_ r)
  end.

Definition string_match_mask (threshold_string_match : option Q) (r : WebDf.row) : bool :=
  match threshold_string_match with
  | Some threshold =>
      match WebDf.string_match r with
      | Some s => Qle_bool threshold s
      | None => false
      end
  | None => holds (WebDf.exists_ r)
  end.

(** [mask & (m1 | m2 | m3 | m4)] *)
Definition shortlist_mask (threshold_distance : option Z) (threshold_string_match : option Q)
    (web_df : list WebDf.row) (r : WebDf.row) : bool :=
  holds (WebDf.exists_ r)
  && (distance_mask threshold_distance web_df r
      || string_match_mask threshold_string_match r
      || holds (WebDf.has_postcode r)
      || holds (WebDf.has_kvk_nr r)).

(** One sort key with [ascending=False]: larger values first, NaN last. *)
Definition descending (a b : option Q) : comparison :=
  match a, b with
  | Some x, Some y => (y ?= x)%Q
  | Some _, None => Lt
  | None, Some _ => Gt
  | None, None => Eq
  end.

(** [sort_values([RANKING_KEY, DISTANCE_STRING_MATCH_KEY],
    ascending=[False, False])] *)
Definition ranking_order (a b : WebDf.row) : comparison :=
  match descending (WebDf.ranking a) (WebDf.ranking b) with
  | Eq => descending (WebDf.distance_string_match a) (WebDf.distance_string_match b)
  | c => c
  end.

Definition get_best_matching_web_site (threshold_distance : option Z)
    (threshold_string_match : option Q) (web_df : list WebDf.row) : list WebDf.row :=
  let mask := shortlist_mask threshold_distance threshold_string_match web_df in
  let web_df := List.filter mask web_df in
  sort_by ranking_order web_df.

(** The end of [UrlCollection.__init__] (lines 1310-1318); [web_df] is
    [None] when [collect_web_sites] found no distance at all. *)
Definition reduce_web_df (impose_url : option string) (threshold_distance : option Z)
    (threshold_string_match : option Q) (web_df : option (list WebDf.row))
    : result (option (list WebDf.row)) :=
  match impose_url with
  | Some u =>
      if String.eqb u "" then
        Ok (get_best_matching_web_site threshold_distance threshold_string_match <$> web_df)
      else
        match web_df with
        | Some df =>
            Ok (Some (List.filter (fun r => bool_decide (WebDf.url r = Some u)) df))
        | None => Raise TypeError
        end
  | None =>
      Ok (get_best_matching_web_site threshold_distance threshold_string_match <$> web_df)
  end.

(** ** 8. The coordinator ([CompanyUrlMatch.find_match_for_company],
       kvk_engine.py:1201-1230) *)

Inductive saved : Type :=
| SavedWebsite (w : Website.row)
| SavedCompany (c : Company.row).

(** The objects after the call, the rows saved, and how the call ended. *)
Record match_result : Type := {
  after_company : Company.row;
  after_websites : list Website.row;
  after_saved : list saved;
  after_end : result unit
}.

Definition best_match_of (best : WebDf.row) (web_match : Website.row) : Website.row :=
  {| Website.url := WebDf.url best;
     Website.naam := Website.naam web_match;
     Website.bestaat := Website.bestaat web_match;
     Website.getest := Website.getest web_match;
     Website.best_match := Some true;
     Website.has_postcode := WebDf.has_postcode best;
     Website.has_kvk_nr := Website.has_kvk_nr web_match;
     Website.has_btw_nr := Website.has_btw_nr web_match;
     Website.string_match := Website.string_match web_match;
     Website.levenshtein := Website.levenshtein web_match;
     Website.url_match := Website.url_match web_match;
     Website.url_rank := Website.url_rank web_match;
     Website.ranking := WebDf.ranking best |}.

Definition find_match_for_company (save : bool) (i_proc : option Z) (now : Z)
    (web_df : option (list WebDf.row)) (company : Company.row)
    (websites : list Website.row) : match_result :=
  let unchanged (how : result unit) :=
    {| after_company := company; after_websites := websites;
       after_saved := []; after_end := how |} in
  match web_df with
  | None => unchanged (Ok ())
  | Some df =>
      match df with
      | [] => unchanged (Raise IndexError)      (* web_df_best.index.values[0] *)
      | web_df_best :: _ =>
          let web_match_index := WebDf.index web_df_best in
          match websites !! web_match_index with
          | None => unchanged (Raise IndexError)
          | Some web_match =>
              let web_match := best_match_of web_df_best web_match in
              let websites := <[web_match_index := web_match]> websites in
              let company :=
                {| Company.kvk_nummer := Company.kvk_nummer company;
                   Company.naam := Company.naam company;
                   Company.url := Website.url web_match;
                   Company.core_id := i_proc;
                   Company.ranking := Website.ranking web_match;
                   Company.datetime := Some now |} in
              {| after_company := company; after_websites := websites;
                 after_saved :=
                   if save
                   then map SavedWebsite websites ++ [SavedCompany company]
                   else [];
                 after_end := Ok () |}
          end
      end
  end.

(** *** The shortlist in the words of the specification *)

(** The distance is within the threshold of the least distance of the
    frame; without a threshold every candidate that exists passes. *)
Definition within_distance (threshold_distance : option Z) (web_df : list WebDf.row)
    (r : WebDf.row) : Prop :=
  match threshold_distance with
  | Some threshold =>
      exists d m, WebDf.distance r = Some d /\ column_min web_df = Some m
                  /\ d - m <= threshold
  | None => WebDf.exists_ r = Some true
  end.

(** The string-match ratio is at least the threshold. *)
Definition string_match_reached (threshold_string_match : option Q) (r : WebDf.row) : Prop :=
  match threshold_string_match with
  | Some threshold => exists s, WebDf.string_match r = Some s /\ (threshold <= s)%Q
  | None => WebDf.exists_ r = Some true
  end.

(** On rows whose sort keys are all present: [a] has the larger ranking, or
    the same ranking and a value in the distance/string-match column that
    is not smaller. *)
Definition ranked_before (a b : WebDf.row) : Prop :=
  forall x y t u,
    WebDf.ranking a = Some x -> WebDf.ranking b = Some y ->
    WebDf.distance_string_match a = Some t -> WebDf.distance_string_match b = Some u ->
    (y < x)%Q \/ (y == x /\ u <= t)%Q.

(** The tie-break of the specification's sentence: the product of distance
    and string match. *)
Definition distance_times_string_match (r : WebDf.row) : option Q :=
  match WebDf.distance r, WebDf.string_match r with
  | Some d, Some s => Some (inject_Z d * s)%Q
  | _, _ => None
  end.

Definition claimed_order (a b : WebDf.row) : comparison :=
  match descending (WebDf.ranking a) (WebDf.ranking b) with
  | Eq => descending (distance_times_string_match a) (distance_times_string_match b)
  | c => c
  end.

(** A candidate that exists, with an index, a ranking and a value in the
    distance/string-match column. *)
Definition candidate (i : nat) (ranking tie : Q) : WebDf.row :=
  {| WebDf.index := i; WebDf.url := Some "www.company.nl"%string;
     WebDf.exists_ := Some true; WebDf.distance := Some 0;
     WebDf.string_match := Some 1%Q; WebDf.distance_string_match := Some tie;
     WebDf.url_rank := Some ranking; WebDf.has_postcode := Some false;
     WebDf.has_kvk_nr := Some false; WebDf.subdomain := Some "www"%string;
     WebDf.domain := Some "company"%string; WebDf.suffix := Some "nl"%string;
     WebDf.ranking := Some ranking |}.

(** ** 9. Concrete library values for the examples *)

(** [int] on a string of decimal digits. *)
Definition digit_value (c : ascii) : option Z :=
  if ((48 <=? code c) && (code c <=? 57))%nat
  then Some (Z.of_nat (code c) - 48)
  else None.

Fixpoint digits_value (acc : Z) (s : list ascii) : option Z :=
  match s with
  | [] => Some acc
  | c :: s' =>
      match digit_value c with
      | Some d => digits_value (10 * acc + d) s'
      | None => None
      end
  end.

Definition example_int (s : string) : option Z :=
  match list_ascii_of_string s with
  | [] => None
  | l => digits_value 0 l
  end.

(** Postal codes that are in standard form already. *)
Definition example_standard_postcode (s : string) : string := s.

(** The values of [Levenshtein.distance] and of the [difflib] ratio against
    the company name abcdefghij for the labels www, xyz and
    abcdefghijklmnopqrst: the distance is 10 for each of them, the ratio is
    2/3 for the long label and 0 for the other two. *)
Definition example_distance (label name : string) : Z := 10.

Definition example_ratio (label name : string) : Q :=
  if String.eqb label "abcdefghijklmnopqrst" then 2 # 3 else 0.

Definition example_extract (url : string) : tld_extract :=
  {| subdomain := ""; domain := url; suffix := "" |}.

(** A page that exists and shows no postal code or number. *)
Definition plain_page : UrlSearch.t :=
  {| UrlSearch.exists_ := true;
     UrlSearch.matches_postcode := []; UrlSearch.matches_kvk := [];
     UrlSearch.matches_btw := [];
     UrlSearch.url_per_match_postcode := None;
     UrlSearch.url_per_match_kvk := None;
     UrlSearch.url_per_match_btw := None;
     UrlSearch.external_hrefs := []; UrlSearch.ssl := true;
     UrlSearch.ssl_invalid := false |}.

Definition example_ranking (url : string) (e : tld_extract) (page : UrlSearch.t)
    (postcodes : gset string) (threshold_distance : option Z) : result Ranking.t :=
  UrlCompanyRanking example_standard_postcode example_int example_distance example_ratio
    example_extract url "abcdefghij" (Some e) (Some page) postcodes 12345678
    (Some (1 # 2)) threshold_distance.

(** The row that [collect_web_sites] writes for a scored candidate, with
    [web.ranking = match.ranking]. *)
Definition scored_row (i_web : nat) (url : string) (m : result Ranking.t) : WebDf.row :=
  match m with
  | Ok m => web_df_row i_web url m (Some (Ranking.ranking m))
  | Raise _ => WebDf.nan i_web
  end.

(** The two candidates www.abcdefghijklmnopqrst.nl and www.xyz.nl of the
    company abcdefghij, scored with [threshold_distance = 3]. *)
Definition long_candidate : WebDf.row :=
  scored_row 0 "www.abcdefghijklmnopqrst.nl"
    (example_ranking "www.abcdefghijklmnopqrst.nl"
       {| subdomain := "www"; domain := "abcdefghijklmnopqrst"; suffix := "nl" |}
       plain_page ∅ (Some 3)).

Definition short_candidate : WebDf.row :=
  scored_row 1 "www.xyz.nl"
    (example_ranking "www.xyz.nl"
       {| subdomain := "www"; domain := "xyz"; suffix := "nl" |}
       plain_page ∅ (Some 3)).

(** A company that no worker has processed yet, one that worker 0 has
    processed, and their keys in the query of the partitioning. *)
Definition fresh_company (kvk : Z) : Company.row :=
  {| Company.kvk_nummer := kvk; Company.naam := "company"; Company.url := None;
     Company.core_id := None; Company.ranking := None; Company.datetime := None |}.

Definition processed_company (kvk : Z) : Company.row :=
  {| Company.kvk_nummer := kvk; Company.naam := "company";
     Company.url := Some "www.company.nl";
     Company.core_id := Some 0; Company.ranking := Some 4%Q;
     Company.datetime := Some 0 |}.

Definition fresh_key (kvk : Z) : company_key :=
  {| q_kvk_nummer := kvk; q_core_id := None |}.

(** The log and the end of a run of the loop. *)
Definition log_of {World : Type} (r : World * loop_log * loop_end) : loop_log :=
  snd (fst r).
Definition end_of {World : Type} (r : World * loop_log * loop_end) : loop_end :=
  snd r.

(** A world without a stop file in which every match fails in the store. *)
Definition failing_match (w : unit) (c : Company.row) : unit * result string :=
  (w, Raise (DatabaseError "connection lost")).

(** A world without a stop file in which every match succeeds. *)
Definition succeeding_match (w : unit) (c : Company.row) : unit * result string :=
  (w, Ok (Company.naam c)).

(** One hour, in microseconds, and a registry row that was processed at
    time 0 and has stored lists. *)
Definition hour : Z := 3600000000.

Definition stored_row : UrlNL.row :=
  {| UrlNL.url := "www.company.nl"; UrlNL.datetime := Some 0;
     UrlNL.suffix := Some "nl"; UrlNL.subdomain := Some "www";
     UrlNL.domain := Some "company"; UrlNL.bestaat := Some true;
     UrlNL.ssl := Some true; UrlNL.ssl_invalid := Some false;
     UrlNL.social_media := None; UrlNL.ecommerce := None;
     UrlNL.all_kvk := Some "12345678"; UrlNL.all_btw := None;
     UrlNL.all_psc := Some "1234AB,5678CD";
     UrlNL.kvk_nummer := Some 12345678; UrlNL.post_code := Some "1234AB";
     UrlNL.btw_nummer := None; UrlNL.referred_by := None |}.

Definition company_extract : tld_extract :=
  {| subdomain := "www"; domain := "company"; suffix := "nl" |}.

(** A search object as it is without a request: nothing found. *)
Definition example_search (url : string) (scrape_url : bool) : UrlSearch.t :=
  {| UrlSearch.exists_ := scrape_url;
     UrlSearch.matches_postcode := []; UrlSearch.matches_kvk := [];
     UrlSearch.matches_btw := [];
     UrlSearch.url_per_match_postcode := None;
     UrlSearch.url_per_match_kvk := None;
     UrlSearch.url_per_match_btw := None;
     UrlSearch.external_hrefs := []; UrlSearch.ssl := true;
     UrlSearch.ssl_invalid := false |}.

Definition untested_website : Website.row :=
  {| Website.url := Some "www.company.nl"; Website.naam := None;
     Website.bestaat := None; Website.getest := None; Website.best_match := None;
     Website.has_postcode := None; Website.has_kvk_nr := None;
     Website.has_btw_nr := None; Website.string_match := None;
     Website.levenshtein := None; Website.url_match := None;
     Website.url_rank := None; Website.ranking := None |}.

(** The lists that [get_ranking] reads from the search object, after
    [rank_contact_list], and the condition that [int] accepts every
    registration number found. *)
Definition postcode_lijst_of (a : UrlSearch.t) : list string :=
  matches_after_rank (UrlSearch.url_per_match_postcode a)
                     (UrlSearch.matches_postcode a).

Definition kvk_lijst_of (a : UrlSearch.t) : list string :=
  matches_after_rank (UrlSearch.url_per_match_kvk a) (UrlSearch.matches_kvk a).

Definition btw_lijst_of (a : UrlSearch.t) : list string :=
  matches_after_rank (UrlSearch.url_per_match_btw a) (UrlSearch.matches_btw a).

Definition kvk_strings_parse (py_int : string -> option Z) (a : UrlSearch.t) : Prop :=
  Forall (fun kvk => is_Some (py_int (strip_dots kvk))) (kvk_lijst_of a).

(** A contact page with a postal code, a registration number and a tax
    number, and the candidate www.abcdefghijklmnopqrst.nl scored on it. *)
Definition contact_page : UrlSearch.t :=
  {| UrlSearch.exists_ := true;
     UrlSearch.matches_postcode := ["1234AB"%string];
     UrlSearch.matches_kvk := ["12.345.678"%string];
     UrlSearch.matches_btw := ["NL0012.34.567B01"%string];
     UrlSearch.url_per_match_postcode := None;
     UrlSearch.url_per_match_kvk := None;
     UrlSearch.url_per_match_btw := None;
     UrlSearch.external_hrefs := []; UrlSearch.ssl := true;
     UrlSearch.ssl_invalid := false |}.

Definition long_extract : tld_extract :=
  {| subdomain := "www"; domain := "abcdefghijklmnopqrst"; suffix := "nl" |}.

(** ** 10. The loop over the candidates ([UrlCollection.collect_web_sites],
       kvk_engine.py:1479-1630) *)

(** What is written to the store: [web.save()], [url_nl.save()] and
    [UrlNL.create(...)]. *)
Inductive store_event : Type :=
| StoreWebsite (i_web : nat) (w : Website.row)
| StoreUrlNL (u : UrlNL.row)
| CreateUrlNL (u : UrlNL.row).

(** [UrlNL.create(url=clean_url, bestaat=True, referred_by=url)] *)
Definition url_nl_create (clean_url referred_by : string) : UrlNL.row :=
  {| UrlNL.url := clean_url; UrlNL.datetime := None; UrlNL.suffix := None;
     UrlNL.subdomain := None; UrlNL.domain := None; UrlNL.bestaat := Some true;
     UrlNL.ssl := None; UrlNL.ssl_invalid := None;
     UrlNL.social_media := None; UrlNL.ecommerce := None;
     UrlNL.all_kvk := None; UrlNL.all_btw := None; UrlNL.all_psc := None;
     UrlNL.kvk_nummer := None; UrlNL.post_code := None; UrlNL.btw_nummer := None;
     UrlNL.referred_by := Some referred_by |}.

(** [web_df.loc[i_web, EXISTS_KEY] = v] and [web_df.loc[i_web, HAS_KVK_NR] = v]
    on the row concerned. *)
Definition web_df_set_exists (v : bool) (r : WebDf.row) : WebDf.row :=
  {| WebDf.index := WebDf.index r; WebDf.url := WebDf.url r;
     WebDf.exists_ := Some v; WebDf.distance := WebDf.distance r;
     WebDf.string_match := WebDf.string_match r;
     WebDf.distance_string_match := WebDf.distance_string_match r;
     WebDf.url_rank := WebDf.url_rank r; WebDf.has_postcode := WebDf.has_postcode r;
     WebDf.has_kvk_nr := WebDf.has_kvk_nr r; WebDf.subdomain := WebDf.subdomain r;
     WebDf.domain := WebDf.domain r; WebDf.suffix := WebDf.suffix r;
     WebDf.ranking := WebDf.ranking r |}.

(** Lines 1564-1572: the scores go to the Website row. *)
Definition scored_website (web : Website.row) (m : Ranking.t) : Website.row :=
  {| Website.url := Website.url web; Website.naam := Website.naam web;
     Website.bestaat := Website.bestaat web; Website.getest := Website.getest web;
     Website.best_match := Some false;
     Website.has_postcode := Some (Ranking.has_postcode m);
     Website.has_kvk_nr := Some (Ranking.has_kvk_nummer m);
     Website.has_btw_nr := Some (Ranking.has_btw_nummer m);
     Website.string_match := Ranking.string_match m;
     Website.levenshtein := Ranking.distance m;
     Website.url_match := Ranking.url_match m;
     Website.url_rank := Ranking.url_rank m;
     Website.ranking := Some (Ranking.ranking m) |}.

(** The state of the loop: the Website objects of the company, the UrlNL
    table, the frame, the four running values, and (for the proofs) what
    was written to the store and which pages were fetched, each fetch with
    the number of the candidate and the registry row as it was then. *)
Module Collection.
Record t : Type := {
  company_websites : list Website.row;
  url_nl : gmap string UrlNL.row;
  web_df : list WebDf.row;
  min_distance : option Z;
  max_sequence_match : option Q;
  index_distance : option nat;
  index_string_match : option nat;
  stored : list store_event;
  fetched : list (nat * string * UrlNL.row)
}.
End Collection.

(** What [collect_web_sites] leaves: the state, [self.web_df] (which is
    [None] when no distance was found) and whether the warning about the
    two best candidates was logged. *)
Record collected : Type := {
  collected_state : Collection.t;
  collected_web_df : option (list WebDf.row);
  collected_warning : bool
}.

Section Collect.

(** Functions of other packages and of the language. *)
Variable U : unicode.
Variable standard_postcode : string -> string.
Variable py_int : string -> option Z.
Variable Levenshtein_distance : string -> string -> Z.
Variable SequenceMatcher_ratio : string -> string -> Q.
Variable tldextract_extract : string -> tld_extract.
Variable UrlSearchStrings : string -> bool -> UrlSearch.t.
Variable SOCIAL_MEDIA : list string.
Variable PAY_OPTIONS : list string.
Variable paste_strings : list string -> option string.
Variable format_08d : Z -> string.             (* "{:08d}".format *)
Variable get_clean_url : string -> string.     (* cbs_utils.web_scraping *)
(** [datetime.datetime.now(...)] at the candidate with the given number. *)
Variable now : nat -> Z.

(** The attributes of the collection. *)
Variable filter_urls : option (list string).
Variable exclude_extensions : gset string.     (* the index of the frame *)
Variable internet_scraping : bool.
Variable save : bool.
Variable older_time : option Z.
Variable threshold_distance : option Z.
Variable threshold_string_match : option Q.
Variable company_name : string.
Variable company_name_small : string.
Variable kvk_nr : Z.
Variable postcodes : gset string.

(** [self.filter_urls and url not in self.filter_urls] *)
Definition filtered_out (url : string) : bool :=
  match filter_urls with
  | None | Some [] => false
  | Some urls => negb (existsb (String.eqb url) urls)
  end.

(** Lines 1544-1562: what was found goes to the registry row. *)
Definition registry_scores (url_nl : UrlNL.row) (m : Ranking.t) : UrlNL.row :=
  {| UrlNL.url := UrlNL.url url_nl; UrlNL.datetime := UrlNL.datetime url_nl;
     UrlNL.suffix := UrlNL.suffix url_nl; UrlNL.subdomain := UrlNL.subdomain url_nl;
     UrlNL.domain := UrlNL.domain url_nl; UrlNL.bestaat := UrlNL.bestaat url_nl;
     UrlNL.ssl := UrlNL.ssl url_nl; UrlNL.ssl_invalid := UrlNL.ssl_invalid url_nl;
     UrlNL.social_media := UrlNL.social_media url_nl;
     UrlNL.ecommerce := UrlNL.ecommerce url_nl;
     UrlNL.all_kvk := paste_strings (map format_08d (elements (Ranking.kvk_set m)));
     UrlNL.all_btw := paste_strings (elements (Ranking.btw_set m));
     UrlNL.all_psc := paste_strings (elements (Ranking.postcode_set m));
     UrlNL.kvk_nummer :=
       match elements (Ranking.kvk_set m) with
       | kvk :: _ => Some kvk
       | [] => UrlNL.kvk_nummer url_nl
       end;
     UrlNL.post_code :=
       match elements (Ranking.postcode_set m) with
       | pc :: _ => Some pc
       | [] => UrlNL.post_code url_nl
       end;
     UrlNL.btw_nummer := Ranking.btw_nummer m;
     UrlNL.referred_by := UrlNL.referred_by url_nl |}.

(** Lines 1591-1602: every outbound link that the registry does not know
    yet gets a row. *)
Definition register_links (url : string) (hrefs : list (option string))
    (table : gmap string UrlNL.row) (stored : list store_event)
    : gmap string UrlNL.row * list store_event :=
  foldl (fun '(table, stored) href =>
           match href with
           | None => (table, stored)
           | Some external_url =>
               let clean_url := get_clean_url external_url in
               match table !! clean_url with
               | Some _ => (table, stored)
               | None =>
                   let row := url_nl_create clean_url url in
                   (<[clean_url := row]> table, stored ++ [CreateUrlNL row])
               end
           end)
        (table, stored) hrefs.

(** Lines 1531-1534: the page does not exist; [continue] comes before
    every [save()], so that only the objects in memory and the frame
    change. *)
Definition missing_page (i_web : nat) (web : Website.row)
    (fetched : list (nat * string * UrlNL.row)) (st : Collection.t) : Collection.t :=
  {| Collection.company_websites := <[i_web := web]> (Collection.company_websites st);
     Collection.url_nl := Collection.url_nl st;
     Collection.web_df := alter (web_df_set_exists false) i_web (Collection.web_df st);
     Collection.min_distance := Collection.min_distance st;
     Collection.max_sequence_match := Collection.max_sequence_match st;
     Collection.index_distance := Collection.index_distance st;
     Collection.index_string_match := Collection.index_string_match st;
     Collection.stored := Collection.stored st;
     Collection.fetched := fetched |}.

(** The state in which an exception leaves a turn that has come to line
    1512: the Website object has been written to and the fetches have been
    made; nothing has been saved or created yet (the first [save()] is at
    line 1576) and the frame is untouched. *)
Definition raised_page (i_web : nat) (web : Website.row)
    (fetched : list (nat * string * UrlNL.row)) (st : Collection.t) : Collection.t :=
  {| Collection.company_websites := <[i_web := web]> (Collection.company_websites st);
     Collection.url_nl := Collection.url_nl st;
     Collection.web_df := Collection.web_df st;
     Collection.min_distance := Collection.min_distance st;
     Collection.max_sequence_match := Collection.max_sequence_match st;
     Collection.index_distance := Collection.index_distance st;
     Collection.index_string_match := Collection.index_string_match st;
     Collection.stored := Collection.stored st;
     Collection.fetched := fetched |}.

(** Lines 1544-1617: the candidate has a ranking [m]. *)
Definition scored_page (i_web : nat) (url : string) (web : Website.row)
    (url_nl : UrlNL.row) (m : Ranking.t) (distance : Z) (string_match : Q)
    (url_analyse : UrlSearch.t) (fetched : list (nat * string * UrlNL.row))
    (st : Collection.t) : Collection.t :=
  let url_nl := registry_scores url_nl m in
  let web := scored_website web m in
  let saved :=
    if save
    then (<[url := url_nl]> (Collection.url_nl st),
          Collection.stored st ++ [StoreWebsite i_web web; StoreUrlNL url_nl])
    else (Collection.url_nl st, Collection.stored st) in
  let closer :=
    match Collection.min_distance st with
    | None => true
    | Some min_distance => distance <? min_distance
    end in
  let better :=
    match Collection.max_sequence_match st with
    | None => true
    | Some max_sequence_match => negb (Qle_bool string_match max_sequence_match)
    end in
  let linked :=
    register_links url (UrlSearch.external_hrefs url_analyse) saved.1 saved.2 in
  {| Collection.company_websites := <[i_web := web]> (Collection.company_websites st);
     Collection.url_nl := linked.1;
     Collection.web_df :=
       <[i_web := web_df_row i_web url m (Website.ranking web)]> (Collection.web_df st);
     Collection.min_distance :=
       if closer then Some distance else Collection.min_distance st;
     Collection.max_sequence_match :=
       if better then Some string_match else Collection.max_sequence_match st;
     Collection.index_distance :=
       if closer then Some i_web else Collection.index_distance st;
     Collection.index_string_match :=
       if better then Some i_web else Collection.index_string_match st;
     Collection.stored := linked.2;
     Collection.fetched := fetched |}.

(** One turn of the loop, for the Website object [web] at position [i_web]
    (the frame has a row for every position, see [collection_start]). *)
Definition collect_candidate (i_web : nat) (web : Website.row) (st : Collection.t)
    : outcome Collection.t Collection.t :=
  match Website.url web with
  | None => Raises st AttributeError            (* web.url.url *)
  | Some url =>
      if filtered_out url then Returns st
      else
        let url_extract := tldextract_extract url in
        if bool_decide (suffix url_extract ∈ exclude_extensions) then Returns st
        else
          match Collection.url_nl st !! url with
          | None => Returns st
          | Some url_nl =>
              let a := update_and_scrape U UrlSearchStrings tldextract_extract SOCIAL_MEDIA
                         PAY_OPTIONS paste_strings older_time (now i_web)
                         internet_scraping company_name url url_extract web url_nl in
              let fetched :=
                Collection.fetched st
                ++ map (fun f => (i_web, f.1, f.2)) (analysed_fetches a) in
              match analysed_analyse a with
              | Raise e => Raises (raised_page i_web (analysed_web a) fetched st) e
              | Ok url_analyse =>
                  if match url_analyse with
                     | Some url_analyse => negb (UrlSearch.exists_ url_analyse)
                     | None => false
                     end
                  then Returns (missing_page i_web (analysed_web a) fetched st)
                  else
                    match UrlCompanyRanking standard_postcode py_int Levenshtein_distance
                            SequenceMatcher_ratio tldextract_extract url
                            company_name_small (Some url_extract) url_analyse postcodes
                            kvk_nr threshold_string_match threshold_distance with
                    | Raise e => Raises (raised_page i_web (analysed_web a) fetched st) e
                    | Ok m =>
                        match Ranking.distance m, Ranking.string_match m,
                              Ranking.url_analyse m with
                        | Some distance, Some string_match, Some url_analyse =>
                            Returns (scored_page i_web url (analysed_web a)
                                       (analysed_url_nl a) m distance string_match
                                       url_analyse fetched st)
                        | _, _, _ =>
                            Raises (raised_page i_web (analysed_web a) fetched st)
                                   TypeError
                        end
                    end
              end
          end
  end.

(** [for i_web, web in enumerate(self.company_websites)], from position
    [i_web] on; [todo] are the objects that are still to come. *)
Fixpoint collect_from (i_web : nat) (todo : list Website.row) (st : Collection.t)
    : outcome Collection.t Collection.t :=
  match todo with
  | [] => Returns st
  | web :: todo' =>
      match collect_candidate i_web web st with
      | Returns st' => collect_from (S i_web) todo' st'
      | Raises st' e => Raises st' e
      end
  end.

(** The state at the start of [collect_web_sites]: the frame of
    [__init__] (line 1300) and the four values set to [None]. *)
Definition collection_start (company_websites : list Website.row)
    (table : gmap string UrlNL.row) : Collection.t :=
  {| Collection.company_websites := company_websites;
     Collection.url_nl := table;
     Collection.web_df := map WebDf.nan (seq 0 (List.length company_websites));
     Collection.min_distance := None;
     Collection.max_sequence_match := None;
     Collection.index_distance := None;
     Collection.index_string_match := None;
     Collection.stored := [];
     Collection.fetched := [] |}.

Definition collect_web_sites (company_websites : list Website.row)
    (table : gmap string UrlNL.row) : outcome Collection.t collected :=
  match collect_from 0 company_websites (collection_start company_websites table) with
  | Raises st e => Raises st e
  | Returns st =>
      Returns
        {| collected_state := st;
           collected_web_df :=
             match Collection.min_distance st with
             | None => None
             | Some _ => Some (Collection.web_df st)
             end;
           collected_warning :=
             match Collection.min_distance st with
             | None => false
             | Some _ =>
                 negb (bool_decide (Collection.index_string_match st
                                    = Collection.index_distance st))
             end |}
  end.

End Collect.

(** ** 11. From a company to its match ([UrlCollection.__init__],
       kvk_engine.py:1245-1318, and [CompanyUrlMatch.__init__], 1148-1199)

    An exception ends the call and comes with the state of the loop over
    the candidates as it was then. *)

Record url_collection : Type := {
  collection_state : Collection.t;
  collection_web_df : option (list WebDf.row);
  collection_warning : bool
}.

(** What a call of [CompanyUrlMatch] leaves behind. *)
Record company_match : Type := {
  match_collection : url_collection;
  match_result_ : match_result
}.

Section Matching.

Variable U : unicode.
Variable standard_postcode : string -> string.
Variable is_postcode : string -> bool.
Variable py_int : string -> option Z.
Variable Levenshtein_distance : string -> string -> Z.
Variable SequenceMatcher_ratio : string -> string -> Q.
Variable tldextract_extract : string -> tld_extract.
Variable UrlSearchStrings : string -> bool -> UrlSearch.t.
Variable SOCIAL_MEDIA : list string.
Variable PAY_OPTIONS : list string.
Variable paste_strings : list string -> option string.
Variable format_08d : Z -> string.
Variable get_clean_url : string -> string.
(** The clock at each candidate, and at the end of the match. *)
Variable now : nat -> Z.
Variable now_match : Z.

(** Lines 1286-1294: the postcodes of the addresses that [is_postcode]
    accepts, standardised, as a set. *)
Definition company_postcodes (address : list string) : gset string :=
  list_to_set (map standard_postcode (List.filter is_postcode address)).

Definition UrlCollection (company_websites : list Website.row) (address : list string)
    (company_name : string) (kvk_nr : Z) (threshold_distance : option Z)
    (threshold_string_match : option Q) (impose_url : option string)
    (internet_scraping save : bool) (url_nl : gmap string UrlNL.row)
    (older_time : option Z) (exclude_extensions : gset string)
    (filter_urls : option (list string)) : outcome Collection.t url_collection :=
  let company_name_small := clean_text U company_name in
  let postcodes := company_postcodes address in
  match collect_web_sites U standard_postcode py_int Levenshtein_distance
          SequenceMatcher_ratio tldextract_extract UrlSearchStrings SOCIAL_MEDIA
          PAY_OPTIONS paste_strings format_08d get_clean_url now filter_urls
          exclude_extensions internet_scraping save older_time threshold_distance
          threshold_string_match company_name company_name_small kvk_nr postcodes
          company_websites url_nl with
  | Raises st e => Raises st e
  | Returns c =>
      match reduce_web_df impose_url threshold_distance threshold_string_match
              (collected_web_df c) with
      | Raise e => Raises (collected_state c) e
      | Ok web_df =>
          Returns {| collection_state := collected_state c;
                     collection_web_df := web_df;
                     collection_warning := collected_warning c |}
      end
  end.

(** [imposed_urls] is [None] by default; [imposed_urls.get] then raises,
    before the collection is made. *)
Definition CompanyUrlMatch (company : Company.row) (websites : list Website.row)
    (address : list string) (imposed_urls : option (gmap Z string))
    (distance_threshold : option Z) (string_match_threshold : option Q)
    (save : bool) (i_proc : option Z) (internet_scraping : bool)
    (url_nl : gmap string UrlNL.row) (older_time : option Z)
    (exclude_extension : gset string) (filter_urls : option (list string))
    : outcome Collection.t company_match :=
  match imposed_urls with
  | None => Raises (collection_start websites url_nl) AttributeError
  | Some imposed_urls =>
      let kvk_nr := Company.kvk_nummer company in
      let company_name := Company.naam company in
      let impose_url := imposed_urls !! kvk_nr in
      match UrlCollection websites address company_name kvk_nr
              distance_threshold string_match_threshold impose_url
              internet_scraping save url_nl older_time exclude_extension
              filter_urls with
      | Raises st e => Raises st e
      | Returns collection =>
          let r := find_match_for_company save i_proc now_match
                     (collection_web_df collection) company
                     (Collection.company_websites (collection_state collection)) in
          match after_end r with
          | Raise e => Raises (collection_state collection) e
          | Ok _ => Returns {| match_collection := collection; match_result_ := r |}
          end
      end
  end.

End Matching.

(** ** 12. What the loop keeps

    Predicates on the state of the loop, for the statements about
    [collect_web_sites]; [websites] are the Website objects the loop
    started with. *)

(** After the turns for the positions below [i_web]: both lists have kept
    their length, no URL of a Website object has changed, the positions
    still to come are as they were, and every row of the frame carries its
    own position as label. *)
Definition loop_shape (websites : list Website.row) (i_web : nat) (st : Collection.t)
    : Prop :=
  List.length (Collection.company_websites st) = List.length websites
  /\ List.length (Collection.web_df st) = List.length websites
  /\ Website.url <$> Collection.company_websites st = Website.url <$> websites
  /\ (forall j, (i_web <= j)%nat -> Collection.company_websites st !! j = websites !! j)
  /\ (forall j, (i_web <= j < List.length websites)%nat ->
                Collection.web_df st !! j = Some (WebDf.nan j))
  /\ (forall j r, Collection.web_df st !! j = Some r -> WebDf.index r = j).

Section Kept.

Variable standard_postcode : string -> string.
Variable py_int : string -> option Z.
Variable Levenshtein_distance : string -> string -> Z.
Variable SequenceMatcher_ratio : string -> string -> Q.
Variable tldextract_extract : string -> tld_extract.
Variable threshold_distance : option Z.
Variable threshold_string_match : option Q.
Variable company_name_small : string.
Variable kvk_nr : Z.
Variable postcodes : gset string.

(** The row of a candidate that was scored: the candidate at this position
    has a URL, a page that exists was analysed, and the row holds what
    [UrlCompanyRanking] made of them. *)
Definition row_of_scored (websites : list Website.row) (j : nat) (r : WebDf.row) : Prop :=
  exists web url url_analyse m,
    websites !! j = Some web
    /\ Website.url web = Some url
    /\ UrlSearch.exists_ url_analyse = true
    /\ UrlCompanyRanking standard_postcode py_int Levenshtein_distance
         SequenceMatcher_ratio tldextract_extract url company_name_small
         (Some (tldextract_extract url)) (Some url_analyse) postcodes kvk_nr
         threshold_string_match threshold_distance = Ok m
    /\ r = web_df_row j url m (Some (Ranking.ranking m)).

(** A row of the frame is as [__init__] made it (all NaN), or only says
    that the page does not exist, or is the row of a scored candidate. *)
Definition frame_row (websites : list Website.row) (j : nat) (r : WebDf.row) : Prop :=
  r = WebDf.nan j
  \/ r = web_df_set_exists false (WebDf.nan j)
  \/ row_of_scored websites j r.

End Kept.

(** ** 13. The surroundings of the loop, bundled

    The functions of other packages and the two clocks on the one hand,
    the attributes of the collection on the other. *)

Record library : Type := {
  lib_unicode : unicode;
  lib_standard_postcode : string -> string;
  lib_is_postcode : string -> bool;
  lib_int : string -> option Z;
  lib_Levenshtein_distance : string -> string -> Z;
  lib_SequenceMatcher_ratio : string -> string -> Q;
  lib_tldextract_extract : string -> tld_extract;
  lib_UrlSearchStrings : string -> bool -> UrlSearch.t;
  lib_SOCIAL_MEDIA : list string;
  lib_PAY_OPTIONS : list string;
  lib_paste_strings : list string -> option string;
  lib_format_08d : Z -> string;
  lib_get_clean_url : string -> string;
  lib_now : nat -> Z;
  lib_now_match : Z
}.

Record attributes : Type := {
  self_filter_urls : option (list string);
  self_exclude_extensions : gset string;
  self_internet_scraping : bool;
  self_save : bool;
  self_older_time : option Z;
  self_threshold_distance : option Z;
  self_threshold_string_match : option Q;
  self_company_name : string;
  self_company_name_small : string;
  self_kvk_nr : Z;
  self_postcodes : gset string
}.

Definition collect_web_sites_with (lib : library) (self : attributes)
    (company_websites : list Website.row) (table : gmap string UrlNL.row)
    : outcome Collection.t collected :=
  collect_web_sites (lib_unicode lib) (lib_standard_postcode lib) (lib_int lib)
    (lib_Levenshtein_distance lib) (lib_SequenceMatcher_ratio lib)
    (lib_tldextract_extract lib) (lib_UrlSearchStrings lib) (lib_SOCIAL_MEDIA lib)
    (lib_PAY_OPTIONS lib) (lib_paste_strings lib) (lib_format_08d lib)
    (lib_get_clean_url lib) (lib_now lib) (self_filter_urls self)
    (self_exclude_extensions self) (self_internet_scraping self) (self_save self)
    (self_older_time self) (self_threshold_distance self)
    (self_threshold_string_match self) (self_company_name self)
    (self_company_name_small self) (self_kvk_nr self) (self_postcodes self)
    company_websites table.

Definition frame_row_with (lib : library) (self : attributes)
    (websites : list Website.row) (j : nat) (r : WebDf.row) : Prop :=
  frame_row (lib_standard_postcode lib) (lib_int lib) (lib_Levenshtein_distance lib)
    (lib_SequenceMatcher_ratio lib) (lib_tldextract_extract lib)
    (self_threshold_distance self) (self_threshold_string_match self)
    (self_company_name_small self) (self_kvk_nr self) (self_postcodes self)
    websites j r.

(** The attributes that [UrlCollection.__init__] sets from its arguments. *)
Definition attributes_of (lib : library) (address : list string) (company_name : string)
    (kvk_nr : Z) (threshold_distance : option Z) (threshold_string_match : option Q)
    (internet_scraping save : bool) (older_time : option Z)
    (exclude_extensions : gset string) (filter_urls : option (list string)) : attributes :=
  {| self_filter_urls := filter_urls;
     self_exclude_extensions := exclude_extensions;
     self_internet_scraping := internet_scraping;
     self_save := save;
     self_older_time := older_time;
     self_threshold_distance := threshold_distance;
     self_threshold_string_match := threshold_string_match;
     self_company_name := company_name;
     self_company_name_small := clean_text (lib_unicode lib) company_name;
     self_kvk_nr := kvk_nr;
     self_postcodes :=
       company_postcodes (lib_standard_postcode lib) (lib_is_postcode lib) address |}.

Definition UrlCollection_with (lib : library) :=
  UrlCollection (lib_unicode lib) (lib_standard_postcode lib) (lib_is_postcode lib) (lib_int lib)
    (lib_Levenshtein_distance lib) (lib_SequenceMatcher_ratio lib)
    (lib_tldextract_extract lib) (lib_UrlSearchStrings lib) (lib_SOCIAL_MEDIA lib)
    (lib_PAY_OPTIONS lib) (lib_paste_strings lib) (lib_format_08d lib)
    (lib_get_clean_url lib) (lib_now lib).

Definition CompanyUrlMatch_with (lib : library) :=
  CompanyUrlMatch (lib_unicode lib) (lib_standard_postcode lib) (lib_is_postcode lib) (lib_int lib)
    (lib_Levenshtein_distance lib) (lib_SequenceMatcher_ratio lib)
    (lib_tldextract_extract lib) (lib_UrlSearchStrings lib) (lib_SOCIAL_MEDIA lib)
    (lib_PAY_OPTIONS lib) (lib_paste_strings lib) (lib_format_08d lib)
    (lib_get_clean_url lib) (lib_now lib) (lib_now_match lib).

(** *** A company with four candidates

    The company Acme B.V. (cleaned: acme) with the candidates
    www.acmeshop.nl, www.acme.be, www.gone.nl and www.acme.nl.  The values
    of the library functions are those for these URLs: the distances and
    ratios of the labels www, acmeshop, gone and acme against acme; the page
    of www.gone.nl does not exist; the page of www.acme.nl shows the postal
    code and the registration number of the company and has one outbound
    link, to a site that the registry does not know.  A fifth URL,
    www.broken.nl, has a page with an outbound link that is [None]; it is a
    candidate in the last example only. *)

Definition shop_extract (url : string) : tld_extract :=
  if String.eqb url "www.acmeshop.nl"
  then {| subdomain := "www"; domain := "acmeshop"; suffix := "nl" |}
  else if String.eqb url "www.acme.be"
  then {| subdomain := "www"; domain := "acme"; suffix := "be" |}
  else if String.eqb url "www.gone.nl"
  then {| subdomain := "www"; domain := "gone"; suffix := "nl" |}
  else if String.eqb url "www.acme.nl"
  then {| subdomain := "www"; domain := "acme"; suffix := "nl" |}
  else if String.eqb url "https://www.partner.nl/contact"
  then {| subdomain := "www"; domain := "partner"; suffix := "nl" |}
  else if String.eqb url "www.broken.nl"
  then {| subdomain := "www"; domain := "broken"; suffix := "nl" |}
  else {| subdomain := ""; domain := url; suffix := "" |}.

Definition shop_distance (label name : string) : Z :=
  if String.eqb label "acme" then 0
  else if String.eqb label "gone" then 3
  else 4.

Definition shop_ratio (label name : string) : Q :=
  if String.eqb label "acme" then 1
  else if String.eqb label "acmeshop" then 2 # 3
  else if String.eqb label "gone" then 1 # 4
  else 0.

Definition shop_page : UrlSearch.t :=
  {| UrlSearch.exists_ := true;
     UrlSearch.matches_postcode := ["1234AB"%string];
     UrlSearch.matches_kvk := ["12345678"%string];
     UrlSearch.matches_btw := [];
     UrlSearch.url_per_match_postcode := None;
     UrlSearch.url_per_match_kvk := None;
     UrlSearch.url_per_match_btw := None;
     UrlSearch.external_hrefs := [Some "https://www.partner.nl/contact"%string];
     UrlSearch.ssl := true;
     UrlSearch.ssl_invalid := false |}.

(** A page on which the scraper stored an outbound link that is [None]. *)
Definition broken_page : UrlSearch.t :=
  {| UrlSearch.exists_ := true;
     UrlSearch.matches_postcode := []; UrlSearch.matches_kvk := [];
     UrlSearch.matches_btw := [];
     UrlSearch.url_per_match_postcode := None;
     UrlSearch.url_per_match_kvk := None;
     UrlSearch.url_per_match_btw := None;
     UrlSearch.external_hrefs := [None];
     UrlSearch.ssl := true;
     UrlSearch.ssl_invalid := false |}.

Definition shop_search (url : string) (scrape_url : bool) : UrlSearch.t :=
  if String.eqb url "www.gone.nl" then example_search url false
  else if String.eqb url "www.acme.nl" then shop_page
  else if String.eqb url "www.broken.nl" then broken_page
  else plain_page.

Definition shop_library : library :=
  {| lib_unicode := latin1;
     lib_standard_postcode := example_standard_postcode;
     lib_is_postcode := fun pc => (String.length pc =? 6)%nat;
     lib_int := example_int;
     lib_Levenshtein_distance := shop_distance;
     lib_SequenceMatcher_ratio := shop_ratio;
     lib_tldextract_extract := shop_extract;
     lib_UrlSearchStrings := shop_search;
     lib_SOCIAL_MEDIA := [];
     lib_PAY_OPTIONS := [];
     lib_paste_strings := fun l => Some (String.concat "," l);
     lib_format_08d := fun kvk => if kvk =? 12345678 then "12345678" else "00000000";
     lib_get_clean_url :=
       fun u => if String.eqb u "https://www.partner.nl/contact"
                then "www.partner.nl" else u;
     lib_now := fun i_web => hour * Z.of_nat (S i_web);
     lib_now_match := hour * 24 |}.

Definition shop_website (url : string) : Website.row :=
  {| Website.url := Some url; Website.naam := None;
     Website.bestaat := None; Website.getest := None; Website.best_match := None;
     Website.has_postcode := None; Website.has_kvk_nr := None;
     Website.has_btw_nr := None; Website.string_match := None;
     Website.levenshtein := None; Website.url_match := None;
     Website.url_rank := None; Website.ranking := None |}.

Definition shop_websites : list Website.row :=
  map shop_website
    ["www.acmeshop.nl"; "www.acme.be"; "www.gone.nl"; "www.acme.nl"]%string.

(** A registry row that was never processed. *)
Definition shop_registry_row (url : string) : UrlNL.row :=
  {| UrlNL.url := url; UrlNL.datetime := None; UrlNL.suffix := None;
     UrlNL.subdomain := None; UrlNL.domain := None; UrlNL.bestaat := None;
     UrlNL.ssl := None; UrlNL.ssl_invalid := None;
     UrlNL.social_media := None; UrlNL.ecommerce := None;
     UrlNL.all_kvk := None; UrlNL.all_btw := None; UrlNL.all_psc := None;
     UrlNL.kvk_nummer := None; UrlNL.post_code := None; UrlNL.btw_nummer := None;
     UrlNL.referred_by := None |}.

Definition shop_registry : gmap string UrlNL.row :=
  list_to_map
    (map (fun url => (url, shop_registry_row url))
         ["www.acmeshop.nl"; "www.acme.be"; "www.gone.nl"; "www.acme.nl"]%string).

Definition shop_company : Company.row :=
  {| Company.kvk_nummer := 12345678; Company.naam := "Acme B.V.";
     Company.url := None; Company.core_id := None; Company.ranking := None;
     Company.datetime := None |}.

Definition shop_address : list string := ["1234AB"; "unknown"]%string.

Definition shop_attributes (internet_scraping save : bool) : attributes :=
  attributes_of shop_library shop_address "Acme B.V." 12345678 (Some 10) (Some (1 # 2))
    internet_scraping save (Some hour) {["be"%string]} None.

(** The result of a call, for the examples: the value returned, or the
    given one when the call raised. *)
Definition returned {A : Type} (default : A) (r : result A) : A :=
  match r with
  | Ok a => a
  | Raise _ => default
  end.

Definition completed {S A : Type} (default : A) (r : outcome S A) : A :=
  match r with
  | Returns a => a
  | Raises _ _ => default
  end.

Definition shop_collected (save : bool) : collected :=
  completed {| collected_state := collection_start [] ∅;
              collected_web_df := None; collected_warning := false |}
           (collect_web_sites_with shop_library (shop_attributes true save)
              shop_websites shop_registry).

(** The match of the company, with a URL imposed on it or without. *)
Definition shop_imposed (impose_url : option string) : gmap Z string :=
  match impose_url with
  | Some u => {[ 12345678 := u ]}
  | None => ∅
  end.

Definition shop_url_collection (impose_url : option string) : url_collection :=
  completed {| collection_state := collection_start [] ∅;
              collection_web_df := None; collection_warning := false |}
           (UrlCollection_with shop_library shop_websites shop_address "Acme B.V."
              12345678 (Some 10) (Some (1 # 2)) impose_url true true shop_registry
              (Some hour) {["be"%string]} None).

Definition shop_match (impose_url : option string) : company_match :=
  completed {| match_collection := shop_url_collection None;
              match_result_ :=
                find_match_for_company false None 0 None shop_company [] |}
           (CompanyUrlMatch_with shop_library shop_company shop_websites shop_address
              (Some (shop_imposed impose_url)) (Some 10) (Some (1 # 2)) true (Some 0)
              true shop_registry (Some hour) {["be"%string]} None).

(** ** 14. The conditions of the loop of [get_kvk_list_per_process]
       (lines 310-317), as predicates on a row of the query *)

Definition in_kvk_range (start stop : option Z) (kvk : Z) : bool :=
  negb (match start with Some a => kvk <? a | None => false end
        || match stop with Some b => b <? kvk | None => false end).

Definition to_process (force_process : bool) (q : company_key) : bool :=
  force_process || negb (bool_decide (is_Some (q_core_id q))).

(** The rows of the query in the range, and those of them to process. *)
Definition rows_in_range (start stop : option Z) (query : list company_key)
    : list company_key :=
  List.filter (fun q => in_kvk_range start stop (q_kvk_nummer q)) query.

Definition rows_to_process (start stop : option Z) (force_process : bool)
    (query : list company_key) : list company_key :=
  List.filter (to_process force_process) (rows_in_range start stop query).

(** Four companies that no worker has processed, partitioned over three
    workers. *)
Definition four_companies : list company_key := map fresh_key [1; 2; 3; 4].

Definition four_companies_partition : list kvk_range * list (log_level * partition_msg) :=
  returned ([], []) (get_kvk_list_per_process four_companies None None None false 3).


(** ** 15. The query of a worker and its count
       ([KvKUrlParser.find_best_matching_url], kvk_engine.py:483-512) *)


(** Line 512: the number of rows of the query for which
    [q.core_id is not None and not self.force_process] is false. *)
Definition max_queries (force_process : bool) (query : list Company.row) : Z :=
  Z.of_nat
    (List.length
       (List.filter
          (fun q => negb (bool_decide (is_Some (Company.core_id q)) && negb force_process))
          query)).


(** ** 16. Linking the URLs to the companies
       ([KvKUrlParser.urls_per_kvk_to_sql], kvk_engine.py:976-1047)

    The frame of URLs is the list of its rows (columns KVK_KEY, URL_KEY and
    NAME_KEY, no missing cells); the result is the list of rows with the
    company that the column COMPANY_KEY holds for each, as they are handed
    to [insert_many]. *)

Definition by_kvk (a b : url_row) : comparison := r_kvk a ?= r_kvk b.

Definition by_kvk_nummer (a b : Company.row) : comparison :=
  Company.kvk_nummer a ?= Company.kvk_nummer b.

(** [f] puts a list in ascending order of [key]; the order of elements
    with the same key is left open. *)
Definition sorts_by {A : Type} (key : A -> Z) (f : list A -> list A) : Prop :=
  forall l, Permutation (f l) l /\ StronglySorted (fun a b => key a <= key b) (f l).

(** [n_url_per_kvk.loc[kvk_nr]]; [None] is the KeyError for a number
    without a URL. *)
Definition n_url_per_kvk (urls : list url_row) (kvk_nr : Z) : option nat :=
  match List.length (List.filter (fun r => r_kvk r =? kvk_nr) urls) with
  | O => None
  | n_url => Some n_url
  end.

(** Lines 1014-1035. *)
Definition company_list_of (urls : list url_row) (kvk_not_in_addresses : gset Z)
    (company_vs_kvk : list Company.row) : list Company.row :=
  flat_map (fun company =>
              let kvk_nr := Company.kvk_nummer company in
              if bool_decide (kvk_nr ∈ kvk_not_in_addresses) then []
              else match n_url_per_kvk urls kvk_nr with
                   | Some n_url => replicate n_url company
                   | None => []
                   end)
           company_vs_kvk.

Section LinkUrls.

(** [sort_values([KVK_KEY])] of pandas sorts with quicksort, which may put
    the rows of one registration number in any order, and the order that
    [order_by] of the database gives to rows with the same number is not
    fixed either. *)
Variable sort_values : list url_row -> list url_row.
Variable order_by : list Company.row -> list Company.row.

Definition urls_per_kvk_to_sql (url_df : list url_row) (addresses_kvk : list Z)
    (company : list Company.row) : result (list (url_row * Company.row)) :=
  match url_df with
  | [] => Ok []
  | _ =>
      let urls := sort_values url_df in
      let company_vs_kvk := order_by company in
      let kvk_comp : gset Z := list_to_set (map Company.kvk_nummer company_vs_kvk) in
      let kvk_not_in_addresses : gset Z := list_to_set addresses_kvk ∖ kvk_comp in
      if bool_decide (kvk_not_in_addresses ≠ ∅)
      then Raise (OtherError "AssertionError")
      else
        let company_list := company_list_of urls kvk_not_in_addresses company_vs_kvk in
        (* urls[COMPANY_KEY] = company_list *)
        if bool_decide (List.length company_list = List.length urls)
        then Ok (zip urls company_list)
        else Raise (ValueError "Length of values does not match length of index")
  end.

End LinkUrls.

(** The URLs of three companies, not in the order of the numbers. *)
Definition three_company_urls : list url_row :=
  [ {| r_kvk := 3; r_naam := "company"; r_url := "www.three.nl" |};
    {| r_kvk := 1; r_naam := "company"; r_url := "www.one.nl" |};
    {| r_kvk := 2; r_naam := "company"; r_url := "www.two.nl" |} ].

(** ** 17. The loop with the matcher of the engine
       ([find_best_matching_url], lines 524-565, calling [CompanyUrlMatch])

    The state is the UrlNL table and the stop file.  The Website and
    address rows of a company come with the query ([prefetch]).  When the
    matcher raises, the table is as the matcher left it; the matcher of the
    engine raises no database error. *)

Record store : Type := {
  store_url_nl : gmap string UrlNL.row;
  store_stop_file : bool
}.

(** The attributes of [KvKUrlParser] that the loop hands to the matcher. *)
Record parser : Type := {
  parser_impose_url_for_kvk : option (gmap Z string);
  parser_threshold_distance : option Z;
  parser_threshold_string_match : option Q;
  parser_i_proc : option Z;
  parser_internet_scraping : bool;
  parser_older_time : option Z;
  parser_exclude_extension : gset string;
  parser_filter_urls : option (list string);
  parser_maximum_entries : option Z;
  parser_force_process : bool;
  parser_search_urls : bool
}.

Section EngineLoop.

Variable lib : library.
Variable self : parser.
Variable websites_of : Company.row -> list Website.row.   (* company.websites *)
Variable address_of : Company.row -> list string.         (* company.address *)

(** [CompanyUrlMatch(company, ...)] of lines 547-561; [save] has its
    default, [True]; the loop reads [company_name] of the result. *)
Definition engine_match (w : store) (company : Company.row) : store * result string :=
  match CompanyUrlMatch_with lib company (websites_of company) (address_of company)
          (parser_impose_url_for_kvk self) (parser_threshold_distance self)
          (parser_threshold_string_match self) true (parser_i_proc self)
          (parser_internet_scraping self) (store_url_nl w) (parser_older_time self)
          (parser_exclude_extension self) (parser_filter_urls self) with
  | Returns company_url_match =>
      ({| store_url_nl :=
            Collection.url_nl
              (collection_state (match_collection company_url_match));
          store_stop_file := store_stop_file w |},
       Ok (Company.naam company))
  | Raises st e =>
      ({| store_url_nl := Collection.url_nl st;
          store_stop_file := store_stop_file w |},
       Raise e)
  end.

Definition remove_stop_file (w : store) : store :=
  {| store_url_nl := store_url_nl w; store_stop_file := false |}.

Definition engine_loop (query : list Company.row) (w : store)
    : store * loop_log * loop_end :=
  find_best_matching_url store store_stop_file remove_stop_file engine_match
    (parser_maximum_entries self) (parser_force_process self) (parser_search_urls self)
    query w.

End EngineLoop.

(** The parser of the examples, with the dictionary of imposed URLs given
    or left at its default. *)
Definition shop_parser (impose_url_for_kvk : option (gmap Z string)) : parser :=
  {| parser_impose_url_for_kvk := impose_url_for_kvk;
     parser_threshold_distance := Some 10;
     parser_threshold_string_match := Some (1 # 2);
     parser_i_proc := Some 0;
     parser_internet_scraping := true;
     parser_older_time := Some hour;
     parser_exclude_extension := {["be"%string]};
     parser_filter_urls := None;
     parser_maximum_entries := None;
     parser_force_process := false;
     parser_search_urls := false |}.

Definition shop_store : store :=
  {| store_url_nl := shop_registry; store_stop_file := false |}.



(** The match of the company without a distance threshold, for two
    candidates that cannot be scored: one is excluded by its suffix, the page
    of the other does not exist. *)
Definition unscored_websites : list Website.row :=
  map shop_website ["www.acme.be"; "www.gone.nl"]%string.

Definition unscored_match : company_match :=
  completed {| match_collection := shop_url_collection None;
              match_result_ :=
                find_match_for_company false None 0 None shop_company [] |}
           (CompanyUrlMatch_with shop_library shop_company unscored_websites shop_address
              (Some ∅) None (Some (1 # 2)) true (Some 0) true shop_registry
              (Some hour) {["be"%string]} None).

(** * Proofs *)

(** ** Name cleaning *)

Module ReFacts.

Lemma matches_Cls fuel p s :
  matches fuel (Cls p) s =
  match s with c :: s' => if p c then [s'] else [] | [] => [] end.
Proof. destruct fuel; reflexivity. Qed.

Lemma matches_Seq fuel r1 r2 s :
  matches fuel (Seq r1 r2) s = flat_map (matches fuel r2) (matches fuel r1 s).
Proof. destruct fuel; reflexivity. Qed.

Lemma matches_Star_O r s : matches 0 (Star r) s = [s].
Proof. reflexivity. Qed.

Lemma matches_Star_S fuel r s :
  matches (S fuel) (Star r) s =
  flat_map (fun s' => if (List.length s' <? List.length s)%nat
                      then matches fuel (Star r) s' else [])
           (matches (S fuel) r s) ++ [s].
Proof. reflexivity. Qed.

Lemma matches_Eos fuel s :
  matches fuel Eos s =
  match s with
  | [] => [s]
  | [c] => if is_newline c then [s] else []
  | _ => []
  end.
Proof. destruct fuel; reflexivity. Qed.

(** Whatever the matcher returns is what is left of the input. *)
Lemma matches_suffix fuel r s x :
  In x (matches fuel r s) -> x `suffix_of` s.
Proof.
  revert r s x.
  induction fuel as [|n IHn]; intros r;
    induction r as [p|r1 IH1 r2 IH2|r1 IH1|]; intros s x Hin.
  - rewrite matches_Cls in Hin. destruct s as [|c s']; [destruct Hin|].
    destruct (p c); [|destruct Hin].
    destruct Hin as [<-|[]]. by apply suffix_cons_r.
  - rewrite matches_Seq in Hin. apply in_flat_map in Hin as (y & Hy & Hx).
    trans y; [by apply IH2|by apply IH1].
  - rewrite matches_Star_O in Hin. by destruct Hin as [<-|[]].
  - rewrite matches_Eos in Hin.
    destruct s as [|c [|d s']]; [|destruct (is_newline c)|]; simpl in Hin;
      try tauto; by destruct Hin as [<-|[]].
  - rewrite matches_Cls in Hin. destruct s as [|c s']; [destruct Hin|].
    destruct (p c); [|destruct Hin].
    destruct Hin as [<-|[]]. by apply suffix_cons_r.
  - rewrite matches_Seq in Hin. apply in_flat_map in Hin as (y & Hy & Hx).
    trans y; [by apply IH2|by apply IH1].
  - rewrite matches_Star_S in Hin. apply in_app_or in Hin as [Hin|Hin].
    + apply in_flat_map in Hin as (y & Hy & Hx).
      destruct (List.length y <? List.length s)%nat; [|destruct Hx].
      trans y; [by apply (IHn (Star r1))|by apply IH1].
    + by destruct Hin as [<-|[]].
  - rewrite matches_Eos in Hin.
    destruct s as [|c [|d s']]; [|destruct (is_newline c)|]; simpl in Hin;
      try tauto; by destruct Hin as [<-|[]].
Qed.

(** A star never fails. *)
Lemma matches_Star_nonempty fuel r s : matches fuel (Star r) s <> [].
Proof.
  destruct fuel; [discriminate|].
  rewrite matches_Star_S. intros H. by apply app_eq_nil in H as [_ ?].
Qed.

(** Completeness of a starred class: every way of splitting off a run of
    characters of the class is tried. *)
Lemma matches_Star_Cls_complete p pre x fuel :
  Forall (fun c => p c = true) pre ->
  (List.length pre <= fuel)%nat ->
  In x (matches fuel (Star (Cls p)) (pre ++ x)).
Proof.
  revert fuel. induction pre as [|c pre IH]; intros fuel Hp Hlen.
  - destruct fuel; [by left|]. rewrite matches_Star_S. apply in_or_app. right. by left.
  - destruct fuel as [|fuel]; [simpl in Hlen; lia|].
    apply Forall_cons in Hp as [Hc Hp].
    rewrite matches_Star_S, matches_Cls. simpl. rewrite Hc. simpl.
    apply in_or_app. left. rewrite app_nil_r.
    assert (Hlt : (List.length (pre ++ x) <? S (List.length (pre ++ x)))%nat = true)
      by (apply Nat.ltb_lt; lia).
    rewrite Hlt. apply IH; [done|simpl in Hlen; lia].
Qed.

(** Substitution only deletes text. *)
Lemma sub_from_nil fuel r : sub_from fuel r [] = [].
Proof. by destruct fuel. Qed.

Lemma match_here_suffix r s x : match_here r s = Some x -> x `suffix_of` s.
Proof.
  unfold match_here. intros H. apply (matches_suffix (List.length s) r).
  destruct (matches (List.length s) r s); [discriminate|].
  injection H as <-. by left.
Qed.

Lemma suffix_sublist (l k : str) : l `suffix_of` k -> l `sublist_of` k.
Proof. intros [pre ->]. by apply sublist_inserts_l. Qed.

Lemma sub_from_sublist fuel r s : sub_from fuel r s `sublist_of` s.
Proof.
  revert s. induction fuel as [|n IH]; intros s; [done|].
  destruct s as [|c s']; [done|]. simpl.
  destruct (match_here r (c :: s')) as [rest|] eqn:Hm.
  - destruct (Nat.ltb _ _).
    + trans rest; [apply IH|]. apply suffix_sublist. by eapply match_here_suffix.
    + by apply sublist_skip.
  - by apply sublist_skip.
Qed.

Lemma sub_empty_sublist r s : sub_empty r s `sublist_of` s.
Proof. apply sub_from_sublist. Qed.

Lemma Forall_sublist (P : N -> Prop) (l k : str) :
  l `sublist_of` k -> Forall P k -> Forall P l.
Proof.
  intros Hs Hk. apply Forall_forall. intros c Hc.
  rewrite Forall_forall in Hk. apply Hk. by apply (sublist_subseteq _ _ Hs).
Qed.

(** Where the pattern matches nowhere, substitution changes nothing. *)
Lemma sub_from_no_match fuel r s :
  (forall u, u `suffix_of` s -> match_here r u = None) ->
  sub_from fuel r s = s.
Proof.
  revert s. induction fuel as [|n IH]; intros s Hno; [done|].
  destruct s as [|c s']; [done|]. simpl.
  rewrite (Hno (c :: s')) by done.
  f_equal. apply IH. intros u Hu. apply Hno. by apply suffix_cons_r.
Qed.

Lemma match_here_Cls_fail p c s : p c = false -> match_here (Cls p) (c :: s) = None.
Proof. intros H. unfold match_here. rewrite matches_Cls. by rewrite H. Qed.

Lemma match_here_Seq_Cls_fail p r c s :
  p c = false -> match_here (Seq (Cls p) r) (c :: s) = None.
Proof. intros H. unfold match_here. rewrite matches_Seq, matches_Cls. by rewrite H. Qed.

Lemma suffix_Forall (P : N -> Prop) (u s : str) :
  u `suffix_of` s -> Forall P s -> Forall P u.
Proof. intros Hu. apply Forall_sublist. by apply suffix_sublist. Qed.

Lemma sub_empty_Cls_id p s :
  Forall (fun c => p c = false) s -> sub_empty (Cls p) s = s.
Proof.
  intros Hs. apply sub_from_no_match. intros [|c u] Hu; [done|].
  apply match_here_Cls_fail.
  pose proof (suffix_Forall _ _ _ Hu Hs) as Hcu.
  by apply Forall_cons in Hcu as [? _].
Qed.

Lemma sub_empty_Seq_Cls_id p r s :
  Forall (fun c => p c = false) s -> sub_empty (Seq (Cls p) r) s = s.
Proof.
  intros Hs. apply sub_from_no_match. intros [|c u] Hu.
  - unfold match_here. rewrite matches_Seq, matches_Cls. done.
  - apply match_here_Seq_Cls_fail.
    pose proof (suffix_Forall _ _ _ Hu Hs) as Hcu.
    by apply Forall_cons in Hcu as [? _].
Qed.

(** Where the pattern takes every character of a class as the start of a
    match, no character of the class is left. *)
Lemma sub_from_removes p r :
  (forall c s', p c = true ->
     exists rest, match_here r (c :: s') = Some rest /\ rest `suffix_of` s') ->
  forall fuel s, (List.length s <= fuel)%nat ->
  Forall (fun c => p c = false) (sub_from fuel r s).
Proof.
  intros Hhit. induction fuel as [|n IH]; intros s Hlen.
  - destruct s; [constructor|simpl in Hlen; lia].
  - destruct s as [|c s']; [constructor|]. simpl in Hlen. simpl.
    destruct (p c) eqn:Hc.
    + destruct (Hhit c s' Hc) as (rest & -> & Hsuf).
      apply suffix_length in Hsuf.
      destruct (Nat.ltb_spec (List.length rest) (S (List.length s'))); [|lia].
      apply IH. lia.
    + assert (Hk : Forall (fun c => p c = false) (c :: sub_from n r s')).
      { constructor; [done|]. apply IH. lia. }
      destruct (match_here r (c :: s')) as [rest|] eqn:Hm; [|done].
      destruct (Nat.ltb_spec (List.length rest) (S (List.length s'))); [|done].
      apply IH. lia.
Qed.

Lemma sub_empty_Cls_removes p s :
  Forall (fun c => p c = false) (sub_empty (Cls p) s).
Proof.
  apply sub_from_removes; [|done]. intros c s' Hc. exists s'. split; [|done].
  unfold match_here. rewrite matches_Cls. by rewrite Hc.
Qed.

Lemma sub_empty_Plus_Cls_removes p s :
  Forall (fun c => p c = false) (sub_empty (Plus (Cls p)) s).
Proof.
  apply sub_from_removes; [|done]. intros c s' Hc.
  unfold match_here, Plus. rewrite matches_Seq, matches_Cls, Hc.
  cbn [flat_map]. rewrite app_nil_r.
  remember (List.length (c :: s')) as n eqn:Hn. clear Hn.
  destruct (matches n (Star (Cls p)) s') as [|x xs] eqn:Hm.
  - by apply matches_Star_nonempty in Hm.
  - exists x. split; [done|].
    apply (matches_suffix n (Star (Cls p))). rewrite Hm. by left.
Qed.

(** Patterns whose classes agree on the characters of a text find the same
    matches in it and make the same substitutions. *)
Lemma flat_map_agree {A B : Type} (f g : A -> list B) (l : list A) :
  (forall a, In a l -> f a = g a) -> flat_map f l = flat_map g l.
Proof.
  induction l as [|x l IH]; intros H; [done|]. simpl.
  rewrite (H x) by by left. f_equal. apply IH. intros a Ha. apply H. by right.
Qed.

Lemma matches_agree (P : N -> Prop) fuel r r' s :
  agree P r r' -> Forall P s -> matches fuel r s = matches fuel r' s.
Proof.
  revert r r' s.
  induction fuel as [|n IHn]; intros r;
    induction r as [p|r1 IH1 r2 IH2|r1 IH1|]; intros r' s Hag Hs;
    destruct r' as [q|r1' r2'|r1'|]; try done.
  - rewrite !matches_Cls. destruct s as [|c s']; [done|].
    apply Forall_cons in Hs as [Hc _]. by rewrite (Hag c Hc).
  - destruct Hag as [H1 H2]. rewrite !matches_Seq, (IH1 r1' s H1 Hs).
    apply flat_map_agree. intros x Hx. apply IH2; [done|].
    eapply suffix_Forall; [by eapply matches_suffix|done].
  - rewrite !matches_Cls. destruct s as [|c s']; [done|].
    apply Forall_cons in Hs as [Hc _]. by rewrite (Hag c Hc).
  - destruct Hag as [H1 H2]. rewrite !matches_Seq, (IH1 r1' s H1 Hs).
    apply flat_map_agree. intros x Hx. apply IH2; [done|].
    eapply suffix_Forall; [by eapply matches_suffix|done].
  - rewrite !matches_Star_S, (IH1 r1' s Hag Hs). f_equal.
    apply flat_map_agree. intros x Hx.
    destruct (List.length x <? List.length s)%nat; [|done].
    apply (IHn (Star r1) (Star r1')); [done|].
    eapply suffix_Forall; [by eapply matches_suffix|done].
Qed.

Lemma sub_from_agree (P : N -> Prop) r r' :
  agree P r r' ->
  forall fuel s, Forall P s -> sub_from fuel r s = sub_from fuel r' s.
Proof.
  intros Hag. induction fuel as [|n IH]; intros s Hs; [done|].
  destruct s as [|c s']; [done|]. simpl.
  assert (Hm : match_here r (c :: s') = match_here r' (c :: s')).
  { unfold match_here. by rewrite (matches_agree P _ r r'). }
  rewrite <- Hm.
  assert (Hs' : Forall P s') by (by apply Forall_cons in Hs as [_ ?]).
  destruct (match_here r (c :: s')) as [rest|] eqn:Hr; [|by rewrite IH].
  destruct (Nat.ltb _ _); [|by rewrite IH].
  apply IH. apply match_here_suffix in Hr. by eapply suffix_Forall.
Qed.

Lemma sub_empty_agree (P : N -> Prop) r r' s :
  agree P r r' -> Forall P s -> sub_empty r s = sub_empty r' s.
Proof. intros Hag Hs. by apply (sub_from_agree P). Qed.

Lemma is_char_true a c : is_char a c = true -> c = N_of_ascii a.
Proof. unfold is_char. by intros ?%N.eqb_eq. Qed.

End ReFacts.

Import ReFacts.

(** *** The parenthesis pattern *)

Lemma paren_free_sublist (l k : str) :
  l `sublist_of` k -> paren_free k -> paren_free l.
Proof.
  induction 1 as [|x l1 l2 Hs IH|x l1 l2 Hs IH]; simpl; [done| |].
  - intros [Hx Hk]. split; [|by apply IH].
    intros -> Hin. apply Hx; [done|].
    apply list_elem_of_In. apply (sublist_subseteq _ _ Hs). by apply list_elem_of_In.
  - intros [_ Hk]. by apply IH.
Qed.

Lemma re_parenthesis_sound fuel c s x :
  In x (matches fuel re_parenthesis (c :: s)) ->
  c = 40%N /\ In 41%N s /\ (x = [] \/ exists d, x = [d] /\ is_newline d = true).
Proof.
  unfold re_parenthesis. rewrite matches_Seq, matches_Cls.
  destruct (is_char "(" c) eqn:Hc; [|intros []].
  apply is_char_true in Hc as ->. cbn [flat_map]. rewrite app_nil_r.
  rewrite matches_Seq. intros Hin. apply in_flat_map in Hin as (y & Hy & Hin).
  apply matches_suffix in Hy as [pre ->].
  rewrite matches_Seq, matches_Cls in Hin.
  destruct y as [|d y]; [destruct Hin|].
  destruct (is_char ")" d) eqn:Hd; [|destruct Hin].
  apply is_char_true in Hd as ->. cbn [flat_map] in Hin. rewrite app_nil_r in Hin.
  split; [done|]. split; [apply in_or_app; right; by left|].
  rewrite matches_Seq in Hin. apply in_flat_map in Hin as (z & _ & Hin).
  rewrite matches_Eos in Hin. destruct z as [|e [|e' z]]; [| |destruct Hin].
  - left. by destruct Hin as [<-|[]].
  - destruct (is_newline e) eqn:He; [|destruct Hin].
    right. exists e. by destruct Hin as [<-|[]].
Qed.

Lemma re_parenthesis_complete fuel s :
  Forall (fun c => is_newline c = false) s ->
  In 41%N s -> (List.length s <= fuel)%nat ->
  In [] (matches fuel re_parenthesis (40%N :: s)).
Proof.
  intros Hnl Hin Hlen. apply in_split in Hin as (pre & post & ->).
  assert (Hdot : forall l : str,
             Forall (fun c => is_newline c = false) l ->
             Forall (fun c => is_dot c = true) l).
  { intros l Hl. eapply Forall_impl; [exact Hl|].
    intros c Hc. unfold is_dot. by rewrite Hc. }
  apply Forall_app in Hnl as [Hpre Hpost]. apply Forall_cons in Hpost as [_ Hpost].
  rewrite length_app in Hlen. simpl in Hlen.
  unfold re_parenthesis. rewrite matches_Seq, matches_Cls. simpl. rewrite app_nil_r.
  rewrite matches_Seq. apply in_flat_map. exists (41%N :: post). split.
  { apply matches_Star_Cls_complete; [by apply Hdot|lia]. }
  rewrite matches_Seq, matches_Cls. simpl. rewrite app_nil_r.
  rewrite matches_Seq. apply in_flat_map. exists []. split.
  { assert (Hp : In [] (matches fuel (Star (Cls is_dot)) (post ++ [])))
      by (apply matches_Star_Cls_complete; [by apply Hdot|lia]).
    by rewrite app_nil_r in Hp. }
  rewrite matches_Eos. by left.
Qed.

(** On a single line a match at an opening parenthesis runs to the end. *)
Lemma re_parenthesis_match_here c s :
  Forall (fun d => is_newline d = false) (c :: s) ->
  c = 40%N -> In 41%N s ->
  match_here re_parenthesis (c :: s) = Some [].
Proof.
  intros Hnl -> Hin. unfold match_here.
  pose proof (re_parenthesis_complete (List.length (40%N :: s)) s) as Hc.
  destruct (matches (List.length (40%N :: s)) re_parenthesis (40%N :: s))
    as [|x xs] eqn:Hm.
  - apply Forall_cons in Hnl as [_ Hnl]. destruct Hc; [done|done|simpl; lia].
  - simpl. f_equal.
    assert (Hx : In x (matches (List.length (40%N :: s)) re_parenthesis (40%N :: s)))
      by (rewrite Hm; by left).
    pose proof (matches_suffix _ _ _ _ Hx) as Hsuf.
    apply re_parenthesis_sound in Hx as (_ & _ & [->|(d & -> & Hd)]); [done|].
    pose proof (suffix_Forall _ _ _ Hsuf Hnl) as Hd'.
    apply Forall_cons in Hd' as [Hd' _]. congruence.
Qed.

Lemma sub_parenthesis_paren_free fuel s :
  Forall (fun c => is_newline c = false) s ->
  (List.length s <= fuel)%nat ->
  paren_free (sub_from fuel re_parenthesis s).
Proof.
  revert s. induction fuel as [|n IH]; intros s Hnl Hlen.
  - destruct s; [done|simpl in Hlen; lia].
  - destruct s as [|c s']; [done|]. simpl in Hlen.
    assert (Hkeep : paren_free (sub_from n re_parenthesis s')).
    { apply IH; [by apply Forall_cons in Hnl as [_ ?]|lia]. }
    assert (Hrest : forall rest, match_here re_parenthesis (c :: s') = Some rest ->
                      (List.length rest < S (List.length s'))%nat ->
                      paren_free (sub_from n re_parenthesis rest)).
    { intros rest Hm Hlt. apply IH; [|lia].
      apply match_here_suffix in Hm. by apply (suffix_Forall _ _ _ Hm). }
    assert (Hhead : c = 40%N -> In 41%N (sub_from n re_parenthesis s') ->
                    match_here re_parenthesis (c :: s') = Some []).
    { intros Hc Hin. apply re_parenthesis_match_here; [done|done|].
      apply list_elem_of_In.
      apply (sublist_subseteq _ _ (sub_from_sublist n re_parenthesis s')).
      by apply list_elem_of_In. }
    simpl. destruct (match_here re_parenthesis (c :: s')) as [rest|] eqn:Hm.
    + destruct (Nat.ltb_spec (List.length rest) (S (List.length s'))) as [Hlt|Hge].
      * by apply Hrest.
      * simpl. split; [|done]. intros Hc Hin.
        specialize (Hhead Hc Hin). injection Hhead as ->. simpl in Hge. lia.
    + simpl. split; [|done]. intros Hc Hin. by specialize (Hhead Hc Hin).
Qed.

Lemma sub_parenthesis_id s : paren_free s -> sub_empty re_parenthesis s = s.
Proof.
  intros Hpf. apply sub_from_no_match. intros u Hu.
  apply suffix_sublist in Hu. pose proof (paren_free_sublist _ _ Hu Hpf) as Hpu.
  unfold match_here.
  destruct (matches (List.length u) re_parenthesis u) as [|x xs] eqn:Hm; [done|].
  assert (Hx : In x (matches (List.length u) re_parenthesis u)) by (rewrite Hm; by left).
  destruct u as [|c u'].
  - unfold re_parenthesis in Hx. rewrite matches_Seq, matches_Cls in Hx. destruct Hx.
  - apply re_parenthesis_sound in Hx as (Hc & Hin & _).
    destruct Hpu as [Hno _]. by destruct (Hno Hc).
Qed.

(** *** The ASCII range *)

Lemma latin1_lower_ascii (s : str) : is_ascii s -> is_ascii (map latin1_lower s).
Proof.
  unfold is_ascii. intros Hs. apply Forall_map. eapply Forall_impl; [exact Hs|].
  intros c Hc. cbn beta in *. unfold latin1_lower.
  destruct (_ || _) eqn:Hb; [|done].
  apply orb_true_iff in Hb as [Hb|Hb].
  - apply andb_true_iff in Hb as [_ Hb]. apply N.leb_le in Hb. lia.
  - apply andb_true_iff in Hb as [Hb _]. apply andb_true_iff in Hb as [Hb _].
    apply N.leb_le in Hb. lia.
Qed.

Lemma ascii_tables_latin1 : ascii_tables latin1.
Proof. by repeat split. Qed.

(** On an ASCII name the cleaning depends on the ASCII range of the
    database only. *)
Lemma clean_name_ascii (U : unicode) (s : str) :
  ascii_tables U -> is_ascii s -> clean_name U s = clean_name latin1 s.
Proof.
  intros (Hlow & Hsp & Hwd) Hs. unfold clean_name.
  rewrite (Hlow s Hs). cbn [str_lower latin1].
  set (l0 := map latin1_lower s).
  assert (H0 : is_ascii l0) by by apply latin1_lower_ascii.
  assert (Hlegal : sub_empty (re_legal_form U) l0 = sub_empty (re_legal_form latin1) l0).
  { apply (sub_empty_agree (fun c => (c < 128)%N)); [|exact H0].
    cbn. split; [exact Hsp|]. split; [|exact Hsp]. split; [by split|by split]. }
  rewrite Hlegal.
  set (l3 := sub_empty re_amp_quote _).
  apply (sub_empty_agree (fun c => (c < 128)%N)).
  - cbn. split; exact Hsp.
  - apply (Forall_sublist _ l3 l0); [|exact H0]. unfold l3.
    etrans; [apply sub_empty_sublist|]. etrans; [apply sub_empty_sublist|].
    apply sub_empty_sublist.
Qed.

(** *** Cleaning a cleaned name *)

(** X24.  Cleaning a cleaned name changes nothing when the name holds no
    line feed, whatever its characters: for every database in which lower
    case is stable (text in lower case stays as it is when characters are
    taken out of it and it is put to lower case again, and [str.lower]
    makes no line feed). *)
Theorem clean_name_idempotent_single_line (U : unicode) (s : str)
    (HU : lower_is_stable U) (Hsingle : single_line s) :
  clean_name U (clean_name U s) = clean_name U s.
Proof.
  destruct HU as [Hstable Hline]. rename Hsingle into Hnl.
  set (l0 := str_lower U s).
  set (l1 := sub_empty (re_legal_form U) l0).
  set (l2 := sub_empty re_parenthesis l1).
  set (l3 := sub_empty re_amp_quote l2).
  set (t := sub_empty (re_spaces U) l3).
  assert (Ht : clean_name U s = t) by reflexivity.
  assert (H43 : t `sublist_of` l3) by apply sub_empty_sublist.
  assert (H32 : l3 `sublist_of` l2) by apply sub_empty_sublist.
  assert (H21 : l2 `sublist_of` l1) by apply sub_empty_sublist.
  assert (H10 : l1 `sublist_of` l0) by apply sub_empty_sublist.
  assert (Hlow : str_lower U t = t).
  { apply (Hstable s). by repeat (etrans; [eassumption|]). }
  assert (Hsp : Forall (fun c => re_space U c = false) t)
    by apply sub_empty_Plus_Cls_removes.
  assert (Hamp : Forall (fun c => is_amp_or_quote c = false) t).
  { apply (Forall_sublist _ t l3); [done|]. apply sub_empty_Cls_removes. }
  assert (Hpar : paren_free t).
  { apply (paren_free_sublist t l2); [by etrans|].
    apply sub_parenthesis_paren_free; [|done].
    apply (Forall_sublist _ l1 l0); [done|].
    apply Forall_forall. intros c Hc. unfold is_newline.
    apply N.eqb_neq. intros ->. apply list_elem_of_In, Hline in Hc.
    unfold single_line in Hnl. rewrite Forall_forall in Hnl.
    apply list_elem_of_In, Hnl in Hc. done. }
  rewrite Ht. unfold clean_name. rewrite Hlow.
  unfold re_legal_form. rewrite (sub_empty_Seq_Cls_id (re_space U)) by done.
  rewrite sub_parenthesis_id by done.
  unfold re_amp_quote. rewrite sub_empty_Cls_id by done.
  unfold re_spaces, Plus. by rewrite (sub_empty_Seq_Cls_id (re_space U)).
Qed.

(** Lower case made letter by letter with the table of the examples is
    stable. *)
Lemma lower_is_stable_latin1 : lower_is_stable latin1.
Proof.
  assert (Hidem : forall c, latin1_lower (latin1_lower c) = latin1_lower c).
  { intros c. unfold latin1_lower.
    destruct ((65 <=? c)%N && (c <=? 90)%N
              || (192 <=? c)%N && (c <=? 222)%N && negb (c =? 215)%N) eqn:Hb; [|by rewrite Hb].
    assert (Hc : (65 <= c <= 90 \/ 192 <= c <= 222)%N).
    { apply orb_true_iff in Hb as [Hb|Hb].
      - apply andb_true_iff in Hb as [H1 H2]. apply N.leb_le in H1, H2. lia.
      - apply andb_true_iff in Hb as [Hb _]. apply andb_true_iff in Hb as [H1 H2].
        apply N.leb_le in H1, H2. lia. }
    assert (H1 : (c + 32 <=? 90)%N = false) by (apply N.leb_gt; lia).
    rewrite H1, andb_false_r. destruct Hc as [Hc|Hc].
    - assert (H2 : (192 <=? c + 32)%N = false) by (apply N.leb_gt; lia).
      by rewrite H2.
    - assert (H2 : (c + 32 <=? 222)%N = false) by (apply N.leb_gt; lia).
      by rewrite H2, andb_false_r. }
  split.
  - intros s t Hsub. cbn [str_lower latin1] in *.
    assert (Hfix : Forall (fun c => latin1_lower c = c) t).
    { apply (Forall_sublist _ t (map latin1_lower s)); [done|].
      apply Forall_map, Forall_forall. intros c _. apply Hidem. }
    clear Hsub. induction Hfix as [|c t Hc _ IH]; [done|]. simpl. by rewrite Hc, IH.
  - intros s Hin. cbn [str_lower latin1] in Hin.
    apply in_map_iff in Hin as (c & Hc & Hin).
    assert (c = 10%N) as ->; [|done].
    unfold latin1_lower in Hc. destruct (_ || _) eqn:Hb; [|done].
    apply orb_true_iff in Hb as [Hb|Hb].
    + apply andb_true_iff in Hb as [H1 _]. apply N.leb_le in H1. lia.
    + apply andb_true_iff in Hb as [Hb _]. apply andb_true_iff in Hb as [H1 _].
      apply N.leb_le in H1. lia.
Qed.

(** The name of the specification, with the tables of the examples. *)
Lemma clean_name_idempotent_single_line_witness :
  lower_is_stable latin1
  /\ single_line (codepoints "ACME B.V. (Holding) & Co.")
  /\ clean_name latin1 (clean_name latin1 (codepoints "ACME B.V. (Holding) & Co."))
     = clean_name latin1 (codepoints "ACME B.V. (Holding) & Co.").
Proof.
  assert (Hs : single_line (codepoints "ACME B.V. (Holding) & Co.")).
  { unfold single_line. vm_compute. repeat constructor. }
  split; [exact lower_is_stable_latin1|]. split; [exact Hs|].
  exact (clean_name_idempotent_single_line latin1 _ lower_is_stable_latin1 Hs).
Defined.

(** C9: cleaning is not idempotent on every string, against the comment of
    the second substitution (everything between parentheses and what
    follows is to go).  The name a, opening parenthesis, line feed,
    closing parenthesis is cleaned to a() because the dot of the second
    pattern does not cross the line feed, which the fourth substitution
    then deletes; cleaning a() gives a.  The name of the specification,
    ACME B.V. (Holding) & Co., is cleaned to acme. *)
Theorem clean_name_not_idempotent (U : unicode) (HU : ascii_tables U) :
  clean_name U name_with_line_break = codepoints "a()"
  /\ clean_name U (clean_name U name_with_line_break) = codepoints "a"
  /\ clean_name U (clean_name U name_with_line_break)
     <> clean_name U name_with_line_break
  /\ clean_name U (codepoints "ACME B.V. (Holding) & Co.") = codepoints "acme".
Proof.
  assert (Ha : forall s : str, (forallb (fun c => c <? 128)%N s = true) -> is_ascii s).
  { intros s Hs. apply Forall_forall. intros c Hc.
    rewrite forallb_forall in Hs. apply list_elem_of_In, Hs in Hc. by apply N.ltb_lt. }
  assert (H1 : clean_name U name_with_line_break = codepoints "a()").
  { rewrite clean_name_ascii; [reflexivity|exact HU|by apply Ha]. }
  assert (H2 : clean_name U (codepoints "a()") = codepoints "a").
  { rewrite clean_name_ascii; [reflexivity|exact HU|by apply Ha]. }
  split; [exact H1|]. rewrite H1, H2. split; [reflexivity|]. split; [discriminate|].
  rewrite clean_name_ascii; [reflexivity|exact HU|by apply Ha].
Qed.

(** With the tables of the examples. *)
Lemma clean_name_not_idempotent_witness :
  ascii_tables latin1
  /\ clean_name latin1 (clean_name latin1 name_with_line_break)
     <> clean_name latin1 name_with_line_break.
Proof.
  split; [exact ascii_tables_latin1|].
  exact (proj1 (proj2 (proj2 (clean_name_not_idempotent latin1 ascii_tables_latin1)))).
Defined.

(** ** The stable sort *)

Section Sorting.

Context {A : Type} (cmp : A -> A -> comparison).

Lemma insert_by_perm (x : A) (l : list A) : Permutation (insert_by cmp x l) (x :: l).
Proof.
  induction l as [|y l IH]; simpl; [done|].
  destruct (cmp x y); try done.
  rewrite IH. apply perm_swap.
Qed.

Lemma sort_by_perm (l : list A) : Permutation (sort_by cmp l) l.
Proof.
  induction l as [|x l IH]; simpl; [done|].
  unfold sort_by in *. simpl. rewrite insert_by_perm. by constructor.
Qed.

Lemma sort_by_In (l : list A) (x : A) : In x (sort_by cmp l) <-> In x l.
Proof.
  split; intros H.
  - by apply (Permutation_in _ (sort_by_perm l)).
  - by apply (Permutation_in _ (Permutation_sym (sort_by_perm l))).
Qed.

Hypothesis cmp_total : forall x y, cmp x y = Gt -> not_after cmp y x.
Hypothesis cmp_trans :
  forall x y z, not_after cmp x y -> not_after cmp y z -> not_after cmp x z.

Lemma insert_by_sorted (x : A) (l : list A) :
  StronglySorted (not_after cmp) l -> StronglySorted (not_after cmp) (insert_by cmp x l).
Proof using cmp_total cmp_trans.
  induction 1 as [|y l Hs IH Hy]; simpl.
  - repeat constructor.
  - destruct (cmp x y) eqn:Hxy.
    + constructor; [by constructor|]. constructor; [unfold not_after; congruence|].
      eapply Forall_impl; [exact Hy|]. intros z Hz. simpl in Hz.
      apply (cmp_trans x y z); [unfold not_after; congruence|done].
    + constructor; [by constructor|]. constructor; [unfold not_after; congruence|].
      eapply Forall_impl; [exact Hy|]. intros z Hz. simpl in Hz.
      apply (cmp_trans x y z); [unfold not_after; congruence|done].
    + constructor; [done|].
      apply Forall_forall. intros z Hz. apply list_elem_of_In in Hz.
      apply (Permutation_in _ (insert_by_perm x l)) in Hz. destruct Hz as [<-|Hz].
      * by apply cmp_total.
      * rewrite Forall_forall in Hy. apply Hy. by apply list_elem_of_In.
Qed.

Lemma sort_by_sorted (l : list A) : StronglySorted (not_after cmp) (sort_by cmp l).
Proof using cmp_total cmp_trans.
  induction l as [|x l IH]; [constructor|].
  unfold sort_by in *. simpl. by apply insert_by_sorted.
Qed.

(** The first row of a sorted frame precedes every row of it. *)
Lemma sorted_head_first (x : A) (l : list A) :
  (forall y, not_after cmp y y) ->
  StronglySorted (not_after cmp) (x :: l) -> forall y, In y (x :: l) -> not_after cmp x y.
Proof.
  intros Hrefl Hs y [<-|Hy]; [apply Hrefl|].
  apply StronglySorted_inv in Hs as [_ Hx].
  rewrite Forall_forall in Hx. apply Hx. by apply list_elem_of_In.
Qed.

End Sorting.

(** ** Spurious URLs *)

Lemma index_eqb_eq a b : index_eqb a b = true <-> index_of a = index_of b.
Proof.
  unfold index_eqb, index_of. rewrite andb_true_iff, Z.eqb_eq, String.eqb_eq.
  split; [by intros [-> ->]|]. intros H. by injection H.
Qed.

Lemma existsb_index r seen :
  existsb (index_eqb r) seen = true <-> In (index_of r) (map index_of seen).
Proof.
  rewrite existsb_exists, in_map_iff. split.
  - intros (s & Hs & He). exists s. by apply index_eqb_eq in He.
  - intros (s & He & Hs). exists s. split; [done|]. by apply index_eqb_eq.
Qed.

Lemma drop_duplicated_In seen urls r :
  In r (drop_duplicated seen urls) -> In r urls /\ ~ In (index_of r) (map index_of seen).
Proof.
  revert seen. induction urls as [|x urls IH]; intros seen; simpl; [done|].
  destruct (existsb (index_eqb x) seen) eqn:Hx.
  - intros H. apply IH in H as [? ?]. auto.
  - intros [<-|H].
    + split; [by left|]. rewrite <- existsb_index. congruence.
    + apply IH in H as [? Hn]. split; [by right|]. simpl in Hn. tauto.
Qed.

Lemma drop_duplicated_NoDup seen urls :
  NoDup (map index_of (drop_duplicated seen urls)).
Proof.
  revert seen. induction urls as [|x urls IH]; intros seen; simpl; [constructor|].
  destruct (existsb (index_eqb x) seen); [apply IH|].
  simpl. constructor; [|apply IH].
  rewrite list_elem_of_In, in_map_iff. intros (r & He & Hr).
  apply drop_duplicated_In in Hr as [_ Hn]. apply Hn. simpl. by left.
Qed.

Lemma drop_duplicated_covers seen urls r :
  In r urls ->
  In (index_of r) (map index_of seen)
  \/ In (index_of r) (map index_of (drop_duplicated seen urls)).
Proof.
  revert seen. induction urls as [|x urls IH]; intros seen; simpl; [done|].
  intros [->|Hr].
  - destruct (existsb (index_eqb r) seen) eqn:Hx.
    + left. by apply existsb_index.
    + right. simpl. by left.
  - destruct (existsb (index_eqb x) seen) eqn:Hx; [by apply IH|].
    destruct (IH (x :: seen) Hr) as [[He|Hs]|Hd].
    + right. simpl. by left.
    + by left.
    + right. simpl. by right.
Qed.

Lemma drop_frequent_urls_In threshold dataframe r :
  In r (drop_frequent_urls threshold dataframe)
  <-> In r dataframe /\ n_count dataframe r < threshold.
Proof. unfold drop_frequent_urls. by rewrite filter_In, Z.ltb_lt. Qed.

Lemma n_count_same_url dataframe r r' :
  r_url r' = r_url r -> n_count dataframe r' = n_count dataframe r.
Proof. unfold n_count. by intros ->. Qed.

(** C7: the rows that pass the count are those whose URL occurs strictly
    less often than the threshold; no row of a URL that occurs at or above
    the threshold is left, every pair of registration number and URL that
    occurs below it is still there, and it is there once. *)
Theorem remove_spurious_urls_spec (n_count_threshold : Z) (dataframe : list url_row) :
  let urls := remove_spurious_urls n_count_threshold dataframe in
  (forall r, In r (drop_frequent_urls n_count_threshold dataframe)
             <-> In r dataframe /\ n_count dataframe r < n_count_threshold)
  /\ (forall r r', In r dataframe -> n_count_threshold <= n_count dataframe r ->
                   In r' urls -> r_url r' <> r_url r)
  /\ (forall r, In r dataframe -> n_count dataframe r < n_count_threshold ->
                exists r', In r' urls /\ r_kvk r' = r_kvk r /\ r_url r' = r_url r)
  /\ (forall r', In r' urls ->
                 In r' dataframe /\ n_count dataframe r' < n_count_threshold)
  /\ NoDup (map index_of urls).
Proof.
  assert (Hin : forall r', In r' (remove_spurious_urls n_count_threshold dataframe) ->
                  In r' dataframe /\ n_count dataframe r' < n_count_threshold).
  { intros r' Hr'. unfold remove_spurious_urls in Hr'.
    apply drop_duplicated_In in Hr' as [Hr' _].
    apply sort_by_In in Hr'. by apply drop_frequent_urls_In. }
  simpl. split; [apply drop_frequent_urls_In|]. split; [|split; [|split]].
  - intros r r' Hr Hge Hr' Hurl. apply Hin in Hr' as [_ Hlt].
    rewrite (n_count_same_url _ _ _ Hurl) in Hlt. lia.
  - intros r Hr Hlt. unfold remove_spurious_urls.
    assert (Hs : In r (sort_by index_compare (drop_frequent_urls n_count_threshold dataframe))).
    { apply sort_by_In. by apply drop_frequent_urls_In. }
    destruct (drop_duplicated_covers [] _ r Hs) as [[]|Hd].
    apply in_map_iff in Hd as (r' & He & Hr'). exists r'. split; [done|].
    unfold index_of in He. by injection He.
  - exact Hin.
  - apply drop_duplicated_NoDup.
Qed.

(** ** The shortlist *)

Lemma holds_true (cell : option bool) : holds cell = true <-> cell = Some true.
Proof. destruct cell as [[]|]; simpl; split; congruence. Qed.

(** [column_min] is the least distance that occurs in the frame. *)
Lemma column_min_spec (web_df : list WebDf.row) (m : Z) :
  column_min web_df = Some m <->
  (exists r, In r web_df /\ WebDf.distance r = Some m)
  /\ (forall r d, In r web_df -> WebDf.distance r = Some d -> m <= d).
Proof.
  revert m. induction web_df as [|x l IH]; intros m; simpl.
  - split; [discriminate|]. by intros [(r & [] & _) _].
  - destruct (WebDf.distance x) as [dx|] eqn:Hx.
    + destruct (column_min l) as [ml|] eqn:Hl.
      * specialize (IH ml). destruct IH as [IH _].
        destruct (IH eq_refl) as [(r & Hr & Hrd) Hmin]. split.
        -- intros [= <-]. split.
           ++ destruct (Z.min_spec dx ml) as [[_ ->]|[_ ->]]; [exists x|exists r]; auto.
           ++ intros r' d [<-|Hr'] Hd; [|specialize (Hmin r' d Hr' Hd)]; [|lia].
              rewrite Hx in Hd. injection Hd as <-. lia.
        -- intros [(r' & Hr' & Hd') Hle]. f_equal.
           assert (m <= dx) by (apply (Hle x); auto).
           assert (m <= ml) by (apply (Hle r); auto).
           destruct Hr' as [<-|Hr'].
           ++ rewrite Hx in Hd'. injection Hd' as <-. lia.
           ++ specialize (Hmin r' m Hr' Hd'). lia.
      * assert (Hnone : forall r d, In r l -> WebDf.distance r = Some d -> False).
        { intros r d Hr Hd. clear IH. induction l as [|y l IHl]; [done|].
          simpl in Hl. destruct Hr as [<-|Hr].
          - rewrite Hd in Hl. by destruct (column_min l).
          - destruct (WebDf.distance y); [by destruct (column_min l)|]. by apply IHl. }
        split.
        -- intros [= <-]. split; [exists x; auto|].
           intros r d [<-|Hr] Hd; [|by destruct (Hnone r d)].
           rewrite Hx in Hd. injection Hd as <-. lia.
        -- intros [(r' & [<-|Hr'] & Hd') _]; [congruence|by destruct (Hnone r' m)].
    + rewrite IH. split.
      * intros [(r & Hr & Hd) Hle]. split; [exists r; auto|].
        intros r' d [<-|Hr'] Hd'; [congruence|eauto].
      * intros [(r & [<-|Hr] & Hd) Hle]; [congruence|]. split; [eauto|].
        intros r' d Hr' Hd'. apply (Hle r'); auto.
Qed.

Lemma distance_mask_spec td web_df r :
  holds (WebDf.exists_ r) = true ->
  distance_mask td web_df r = true <-> within_distance td web_df r.
Proof.
  intros Hex. unfold distance_mask, within_distance. destruct td as [t|].
  - destruct (WebDf.distance r) as [d|], (column_min web_df) as [m|]; split;
      try discriminate; try (by intros (? & ? & ? & ? & ?)).
    + intros H. apply Z.leb_le in H. by exists d, m.
    + intros (d' & m' & [= <-] & [= <-] & H). by apply Z.leb_le.
  - by rewrite holds_true.
Qed.

Lemma string_match_mask_spec ts r :
  holds (WebDf.exists_ r) = true ->
  string_match_mask ts r = true <-> string_match_reached ts r.
Proof.
  intros Hex. unfold string_match_mask, string_match_reached. destruct ts as [t|].
  - destruct (WebDf.string_match r) as [s|]; split;
      try discriminate; try (by intros (? & ? & ?)).
    + intros H. apply Qle_bool_iff in H. by exists s.
    + intros (s' & [= <-] & H). by apply Qle_bool_iff.
  - by rewrite holds_true.
Qed.

Lemma shortlist_mask_spec td ts web_df r :
  shortlist_mask td ts web_df r = true <->
  WebDf.exists_ r = Some true
  /\ (within_distance td web_df r \/ string_match_reached ts r
      \/ WebDf.has_postcode r = Some true \/ WebDf.has_kvk_nr r = Some true).
Proof.
  unfold shortlist_mask. rewrite andb_true_iff, !orb_true_iff, !holds_true.
  split; intros [Hex H]; (split; [done|]); apply holds_true in Hex;
    rewrite (distance_mask_spec _ _ _ Hex), (string_match_mask_spec _ _ Hex) in *;
    tauto.
Qed.

(** The two-key order is a total preorder. *)
Lemma ranking_order_total a b :
  ranking_order a b = Gt -> not_after ranking_order b a.
Proof.
  unfold not_after, ranking_order, descending.
  destruct (WebDf.ranking a) as [x|], (WebDf.ranking b) as [y|],
    (WebDf.distance_string_match a) as [t|],
    (WebDf.distance_string_match b) as [u|]; try discriminate;
    repeat match goal with
           | |- context [(?p ?= ?q)%Q] => destruct (Qcompare_spec p q)
           end; try discriminate; try lra.
Qed.

Lemma ranking_order_refl a : not_after ranking_order a a.
Proof.
  unfold not_after, ranking_order, descending.
  destruct (WebDf.ranking a) as [x|], (WebDf.distance_string_match a) as [t|];
    repeat match goal with
           | |- context [(?p ?= ?q)%Q] => destruct (Qcompare_spec p q)
           end; try discriminate; try lra.
Qed.

Lemma ranking_order_trans a b c :
  not_after ranking_order a b -> not_after ranking_order b c ->
  not_after ranking_order a c.
Proof.
  unfold not_after, ranking_order, descending.
  destruct (WebDf.ranking a) as [x|], (WebDf.ranking b) as [y|],
    (WebDf.ranking c) as [z|],
    (WebDf.distance_string_match a) as [t|],
    (WebDf.distance_string_match b) as [u|],
    (WebDf.distance_string_match c) as [v|]; try congruence;
    repeat match goal with
           | |- context [(?p ?= ?q)%Q] => destruct (Qcompare_spec p q)
           end; try congruence; try lra.
Qed.

Lemma not_after_ranked_before a b :
  not_after ranking_order a b -> ranked_before a b.
Proof.
  unfold not_after, ranking_order, ranked_before, descending.
  intros H x y t u Hx Hy Ht Hu. rewrite Hx, Hy, Ht, Hu in H.
  destruct (Qcompare_spec y x) as [Hyx|Hyx|Hyx]; [|by left|congruence].
  right. split; [done|].
  destruct (Qcompare_spec u t) as [Hut|Hut|Hut]; [lra|lra|congruence].
Qed.

(** What [get_ranking] returns, when it returns. *)
Lemma get_ranking_url_match sp pi self m :
  get_ranking sp pi self = Ok m ->
  exists d s,
    Ranking.distance m = Some d /\ Ranking.string_match m = Some s
    /\ Ranking.url_match m = Some (inject_Z d * (1 - s))%Q.
Proof.
  unfold get_ranking. intros H.
  destruct (Ranking.url_analyse self) as [a|];
    (destruct (int_all pi _) as [kvks|e]; [|discriminate]);
    cbn [mbind result_bind] in H;
    destruct (Ranking.distance self) as [d|]; try discriminate;
    destruct (Ranking.string_match self) as [s|]; try discriminate;
    destruct (Ranking.threshold_distance self) as [t|]; try discriminate;
    destruct (t =? 0); try discriminate;
    injection H as <-; exists d, s; by simpl.
Qed.

(** The example of the specification: three candidates that exist, with
    rankings 5, 8 and 8, and 2 and 4 in the distance/string-match column of
    the two that are tied; the first row is the one with 4. *)
Lemma shortlist_example_5_8_8 :
  head (get_best_matching_web_site (Some 10) (Some (1 # 2))
          [candidate 0 5 1; candidate 1 8 2; candidate 2 8 4])
  = Some (candidate 2 8 4).
Proof. reflexivity. Qed.

(** C1 (as stated): ties are not broken by the product of distance and
    string match.  The company abcdefghij has the candidates
    www.abcdefghijklmnopqrst.nl (distance 10, ratio 2/3) and www.xyz.nl
    (distance 10, ratio 0); under [threshold_distance = 3] both get the
    ranking 4.  The products are 20/3 and 0, so the claim puts the long
    name first; the frame's column holds 10/3 and 10 and the code puts
    www.xyz.nl first. *)
Lemma shortlist_tie_not_by_product :
  let web_df := [long_candidate; short_candidate] in
  let shortlist := get_best_matching_web_site (Some 3) (Some (1 # 2)) web_df in
  WebDf.ranking long_candidate = Some 4%Q
  /\ WebDf.ranking short_candidate = Some 4%Q
  /\ distance_times_string_match long_candidate = Some (20 # 3)
  /\ distance_times_string_match short_candidate = Some 0%Q
  /\ shortlist = [short_candidate; long_candidate]
  /\ ~ StronglySorted (not_after claimed_order) shortlist.
Proof.
  repeat split; try reflexivity.
  intros Hs. apply StronglySorted_inv in Hs as [_ Hf].
  apply Forall_cons in Hf as [Hf _]. by apply Hf.
Qed.

(** C1 (amended): a row is kept exactly when its page exists and it is
    within the distance threshold of the least distance, or reaches the
    string-match threshold, or has a matching postal code, or has a matching
    registration number; the kept rows are sorted descending by ranking,
    ties broken descending by the distance/string-match column of the
    frame, which the collector fills with url_match = distance * (1 -
    string_match); the first row is the one that the coordinator takes. *)
Theorem shortlist_reduction (threshold_distance : option Z)
    (threshold_string_match : option Q) (web_df : list WebDf.row) :
  let shortlist :=
    get_best_matching_web_site threshold_distance threshold_string_match web_df in
  (forall r, In r shortlist <->
     In r web_df /\ WebDf.exists_ r = Some true
     /\ (within_distance threshold_distance web_df r
         \/ string_match_reached threshold_string_match r
         \/ WebDf.has_postcode r = Some true
         \/ WebDf.has_kvk_nr r = Some true))
  /\ Permutation shortlist
       (List.filter (shortlist_mask threshold_distance threshold_string_match web_df) web_df)
  /\ StronglySorted (not_after ranking_order) shortlist
  /\ (forall best rest r, shortlist = best :: rest -> In r shortlist ->
        ranked_before best r)
  /\ (forall best rest save i_proc now company websites web,
        shortlist = best :: rest -> websites !! WebDf.index best = Some web ->
        let after := find_match_for_company save i_proc now (Some shortlist)
                       company websites in
        Company.url (after_company after) = WebDf.url best
        /\ Company.ranking (after_company after) = WebDf.ranking best
        /\ after_websites after !! WebDf.index best = Some (best_match_of best web))
  /\ reduce_web_df None threshold_distance threshold_string_match (Some web_df)
     = Ok (Some shortlist)
  /\ (forall sp pi self m i_web url web_ranking,
        get_ranking sp pi self = Ok m ->
        exists d s,
          WebDf.distance (web_df_row i_web url m web_ranking) = Some d
          /\ WebDf.string_match (web_df_row i_web url m web_ranking) = Some s
          /\ WebDf.distance_string_match (web_df_row i_web url m web_ranking)
             = Some (inject_Z d * (1 - s))%Q).
Proof.
  assert (Hsorted : StronglySorted (not_after ranking_order)
            (get_best_matching_web_site threshold_distance threshold_string_match web_df)).
  { apply sort_by_sorted; [apply ranking_order_total|apply ranking_order_trans]. }
  simpl. split; [|split; [|split; [|split; [|split; [|split]]]]].
  - intros r. unfold get_best_matching_web_site.
    rewrite sort_by_In, filter_In, shortlist_mask_spec. tauto.
  - apply sort_by_perm.
  - exact Hsorted.
  - intros best rest r Heq Hin. apply not_after_ranked_before.
    rewrite Heq in Hsorted, Hin.
    apply (sorted_head_first ranking_order best rest); auto using ranking_order_refl.
  - intros best rest save i_proc now company websites web Heq Hweb.
    rewrite Heq. unfold find_match_for_company. rewrite Hweb. simpl.
    split; [done|]. split; [done|].
    apply list_lookup_insert_eq. by eapply lookup_lt_Some.
  - reflexivity.
  - intros sp pi self m i_web url web_ranking Hm.
    destruct (get_ranking_url_match _ _ _ _ Hm) as (d & s & Hd & Hs & Hu).
    exists d, s. by simpl.
Qed.

(** A URL that occurs as often as the threshold says goes with all its
    rows; of a pair that occurs twice one row stays. *)
Lemma remove_spurious_urls_example :
  remove_spurious_urls 3
    [ {| r_kvk := 2; r_naam := "b"; r_url := "b.nl" |};
      {| r_kvk := 1; r_naam := "a"; r_url := "facebook.com" |};
      {| r_kvk := 2; r_naam := "b"; r_url := "facebook.com" |};
      {| r_kvk := 3; r_naam := "c"; r_url := "facebook.com" |};
      {| r_kvk := 2; r_naam := "b"; r_url := "b.nl" |};
      {| r_kvk := 1; r_naam := "a"; r_url := "a.nl" |} ]
  = [ {| r_kvk := 1; r_naam := "a"; r_url := "a.nl" |};
      {| r_kvk := 2; r_naam := "b"; r_url := "b.nl" |} ].
Proof. reflexivity. Qed.

(** ** Work partitioning *)

(** C5 (the code at the failing input): four qualifying registration
    numbers and three workers.  [n_per_proc] is 1 + 1 = 2, the chunks are
    [1, 2], [3, 4] and the empty list, the [except IndexError] branch logs
    its warning for the third worker, and only two sub-ranges are
    recorded. *)
Theorem partition_leaves_worker_without_range :
  n_per_proc_of 4 3 = 2
  /\ kvk_chunks [1; 2; 3; 4] 3 = [[1; 2]; [3; 4]; []]
  /\ get_kvk_list_per_process (map fresh_key [1; 2; 3; 4]) None None None false 3
     = Ok ([ {| range_start := 1; range_stop := 2 |};
             {| range_start := 3; range_stop := 4 |} ],
           [ (INFO, MsgGettingRange); (INFO, MsgGettingRange);
             (INFO, MsgGettingRange); (WARNING, MsgSomethingWrong) ]).
Proof. repeat split. Qed.

(** What does hold for every worker count above zero: there is one chunk
    per worker, and the chunks, put one after the other, are the list. *)
Lemma chunks_take (l : list Z) (q j : nat) :
  concat (map (fun i => take q (drop (i * q) l)) (seq 0 j)) = take (j * q) l.
Proof.
  induction j as [|j IH]; [done|].
  rewrite seq_S, map_app, concat_app, IH. simpl. rewrite app_nil_r.
  rewrite take_take_drop. f_equal. lia.
Qed.

Lemma kvk_chunks_cover (kvk_to_process : list Z) (number_of_processes : Z) :
  0 < number_of_processes ->
  List.length (kvk_chunks kvk_to_process number_of_processes)
  = Z.to_nat number_of_processes
  /\ concat (kvk_chunks kvk_to_process number_of_processes) = kvk_to_process.
Proof.
  intros HP. unfold kvk_chunks, py_range.
  set (p := n_per_proc_of (Z.of_nat (List.length kvk_to_process)) number_of_processes).
  split; [by rewrite !length_map, length_seq|].
  assert (Hp : 0 <= p).
  { unfold p, n_per_proc_of.
    pose proof (Z.quot_pos (Z.of_nat (List.length kvk_to_process)) number_of_processes).
    pose proof (Z.mod_pos_bound (Z.of_nat (List.length kvk_to_process)) number_of_processes).
    lia. }
  destruct (Z.to_nat number_of_processes) as [|k] eqn:Hk; [lia|].
  rewrite seq_S, !map_app, concat_app. simpl. rewrite app_nil_r.
  assert (Hlast : kvk_list_of kvk_to_process number_of_processes p (Z.of_nat k)
                  = drop (k * Z.to_nat p) kvk_to_process).
  { unfold kvk_list_of, slice_from.
    destruct (Z.eqb_spec (Z.of_nat k) (number_of_processes - 1)); [|lia].
    f_equal. lia. }
  rewrite Hlast.
  assert (Hfront : map (kvk_list_of kvk_to_process number_of_processes p)
                     (map Z.of_nat (seq 0 k))
                   = map (fun i => take (Z.to_nat p) (drop (i * Z.to_nat p) kvk_to_process))
                         (seq 0 k)).
  { rewrite map_map. apply map_ext_in. intros i Hi. apply in_seq in Hi.
    unfold kvk_list_of, slice.
    destruct (Z.eqb_spec (Z.of_nat i) (number_of_processes - 1)); [lia|].
    f_equal; [|f_equal]; nia. }
  rewrite Hfront, chunks_take. apply take_drop.
Qed.

(** ** The main loop *)

Section MainLoopFacts.

Context {World : Type}.
Variable stop_file_exists : World -> bool.
Variable remove_stop_file : World -> World.
Variable CompanyUrlMatch : World -> Company.row -> World * result string.

Lemma rows_iterated_app (log : loop_log) (r : log_level * loop_msg) :
  rows_iterated (log ++ [r]) = rows_iterated log + (if is_iterated r then 1 else 0).
Proof.
  unfold rows_iterated. rewrite List.filter_app, length_app. simpl.
  destruct (is_iterated r); simpl; lia.
Qed.

Lemma rows_matched_app (log : loop_log) (r : log_level * loop_msg) :
  rows_matched (log ++ [r]) = rows_matched log + (if is_matched r then 1 else 0).
Proof.
  unfold rows_matched. rewrite List.filter_app, length_app. simpl.
  destruct (is_matched r); simpl; lia.
Qed.

(** From row [cnt] on, at most [m - cnt] rows are gone through, and a row
    is handed to the matcher only when it is gone through. *)
Lemma matching_loop_bound (m : Z) (force_process search_urls : bool)
    (query : list Company.row) :
  forall (cnt : Z) (w : World) (log : loop_log),
    cnt <= m ->
    let log' := log_of (matching_loop World stop_file_exists remove_stop_file
                          CompanyUrlMatch (Some m) force_process search_urls
                          cnt query w log) in
    rows_iterated log' - rows_iterated log <= m - cnt
    /\ 0 <= rows_matched log' - rows_matched log <= rows_iterated log' - rows_iterated log.
Proof.
  induction query as [|c query IH]; intros cnt w log Hcnt; simpl.
  - unfold log_of. simpl. lia.
  - destruct (Z.eqb_spec cnt m) as [->|Hne].
    { unfold log_of. simpl. rewrite rows_iterated_app, rows_matched_app. simpl. lia. }
    destruct (stop_file_exists w).
    { unfold log_of. simpl. rewrite rows_iterated_app, rows_matched_app. simpl. lia. }
    destruct (bool_decide (is_Some (Company.core_id c)) && negb force_process).
    { specialize (IH (cnt + 1) w
        (log ++ [(DEBUG, MsgAlreadyProcessed (Company.kvk_nummer c)
                            (Company.naam c))])).
      simpl in IH. rewrite rows_iterated_app, rows_matched_app in IH. simpl in IH. lia. }
    set (log1 := log ++ [(INFO, MsgProcessing (Company.kvk_nummer c) (Company.naam c))]).
    set (log2 := if search_urls then log1 ++ [(INFO, MsgStartUrlSearch)] else log1).
    assert (H2 : rows_iterated log2 = rows_iterated log + 1
                 /\ rows_matched log2 = rows_matched log + 1).
    { unfold log2, log1. destruct search_urls;
        rewrite ?rows_iterated_app, ?rows_matched_app; simpl; lia. }
    destruct (CompanyUrlMatch w c) as [w' [name|e]].
    + specialize (IH (cnt + 1) w' (log2 ++ [(DEBUG, MsgDoneWith name)])).
      simpl in IH. rewrite rows_iterated_app, rows_matched_app in IH. simpl in IH. lia.
    + destruct e;
        try (unfold log_of; simpl; lia).
      specialize (IH (cnt + 1) w' (log2 ++ [(WARNING, MsgError msg); (WARNING, MsgSkipping)])).
      simpl in IH.
      replace (log2 ++ [(WARNING, MsgError msg); (WARNING, MsgSkipping)])
        with ((log2 ++ [(WARNING, MsgError msg)]) ++ [(WARNING, MsgSkipping)]) in *
        by (by rewrite <- app_assoc).
      rewrite !rows_iterated_app, !rows_matched_app in IH. simpl in IH. lia.
Qed.

(** Where the matcher raises nothing but database errors, the loop runs to
    its end. *)
Lemma matching_loop_done (maximum_entries : option Z) (force_process search_urls : bool)
    (query : list Company.row) :
  (forall w c e, snd (CompanyUrlMatch w c) = Raise e -> exists msg, e = DatabaseError msg) ->
  forall (cnt : Z) (w : World) (log : loop_log),
    end_of (matching_loop World stop_file_exists remove_stop_file CompanyUrlMatch
              maximum_entries force_process search_urls cnt query w log) = LoopDone.
Proof.
  intros Hdb. induction query as [|c query IH]; intros cnt w log; simpl; [done|].
  destruct (match maximum_entries with Some m => cnt =? m | None => false end); [done|].
  destruct (stop_file_exists w); [done|].
  destruct (bool_decide (is_Some (Company.core_id c)) && negb force_process);
    [apply IH|].
  destruct (CompanyUrlMatch w c) as [w' [name|e]] eqn:Hm; [apply IH|].
  destruct (Hdb w c e) as [msg ->]; [by rewrite Hm|]. apply IH.
Qed.

(** The log is only appended to: a run that starts with the log [log]
    logs what the same run logs from the empty log, after [log]. *)
Lemma matching_loop_app (maximum_entries : option Z) (force_process search_urls : bool)
    (query : list Company.row) :
  forall (cnt : Z) (w : World) (log : loop_log),
    let loop := matching_loop World stop_file_exists remove_stop_file CompanyUrlMatch
                  maximum_entries force_process search_urls in
    log_of (loop cnt query w log) = log ++ log_of (loop cnt query w [])
    /\ end_of (loop cnt query w log) = end_of (loop cnt query w [])
    /\ (loop cnt query w log).1.1 = (loop cnt query w []).1.1.
Proof.
  induction query as [|c query IH]; intros cnt w log; cbn zeta.
  { unfold log_of, end_of. simpl. by rewrite app_nil_r. }
  cbn [matching_loop].
  destruct (match maximum_entries with Some m => cnt =? m | None => false end); [done|].
  destruct (stop_file_exists w); [done|].
  assert (Hrec : forall cnt' w' (before : loop_log),
            let loop := matching_loop World stop_file_exists remove_stop_file
                          CompanyUrlMatch maximum_entries force_process search_urls in
            log_of (loop cnt' query w' (log ++ before))
            = log ++ log_of (loop cnt' query w' ([] ++ before))
            /\ end_of (loop cnt' query w' (log ++ before))
               = end_of (loop cnt' query w' ([] ++ before))
            /\ (loop cnt' query w' (log ++ before)).1.1
               = (loop cnt' query w' ([] ++ before)).1.1).
  { intros cnt' w' before. cbn zeta.
    destruct (IH cnt' w' (log ++ before)) as (-> & -> & ->).
    destruct (IH cnt' w' ([] ++ before)) as (-> & -> & ->).
    by rewrite app_nil_l, app_assoc. }
  destruct (_ && _); [apply Hrec|].
  destruct (CompanyUrlMatch w c) as [w' [name|e]].
  - destruct search_urls; rewrite <- ?app_assoc; apply Hrec.
  - destruct e; try (unfold log_of, end_of; destruct search_urls; simpl;
                     by rewrite <- ?app_assoc).
    destruct search_urls; rewrite <- ?app_assoc; apply Hrec.
Qed.

(** No run of the loop is left by a database error. *)
Lemma matching_loop_no_database_error (maximum_entries : option Z)
    (force_process search_urls : bool) (query : list Company.row) :
  forall (cnt : Z) (w : World) (log : loop_log) (e : exn),
    end_of (matching_loop World stop_file_exists remove_stop_file CompanyUrlMatch
              maximum_entries force_process search_urls cnt query w log) = LoopRaised e ->
    forall msg, e <> DatabaseError msg.
Proof.
  induction query as [|c query IH]; intros cnt w log e; simpl; [done|].
  destruct (match maximum_entries with Some m => cnt =? m | None => false end); [done|].
  destruct (stop_file_exists w); [done|].
  destruct (_ && _); [apply IH|].
  destruct (CompanyUrlMatch w c) as [w' [name|e']]; [apply IH|].
  destruct e'; try (unfold end_of; simpl; by intros [= <-]). apply IH.
Qed.

End MainLoopFacts.

(** C8: a database error raised while one company is matched is caught and
    logged as a warning: the log of the run goes on, after the message that
    the company is processed, with two warnings (the error and the word
    skipping) and then with what the loop logs for the rest of the query,
    which it goes through from the next row on in the world that the failed
    match left; the run ends as that rest ends.  When the next row is not
    skipped (no cap, no stop file, not processed yet) its company is the
    next that is handed to the matcher.  No run at all is left by a
    database error, and a run in which nothing but database errors is
    raised is never left by an exception. *)
Theorem database_error_is_contained {World : Type}
    (stop_file_exists : World -> bool) (remove_stop_file : World -> World)
    (CompanyUrlMatch : World -> Company.row -> World * result string)
    (maximum_entries : option Z) (force_process search_urls : bool)
    (cnt : Z) (c : Company.row) (query : list Company.row)
    (w w' : World) (err : string) (log : loop_log)
    (Hcap : maximum_entries <> Some cnt)
    (Hstop : stop_file_exists w = false)
    (Hturn : Company.core_id c = None \/ force_process = true)
    (Herr : CompanyUrlMatch w c = (w', Raise (DatabaseError err))) :
  let loop := matching_loop World stop_file_exists remove_stop_file CompanyUrlMatch
                maximum_entries force_process search_urls in
  let run := loop cnt (c :: query) w log in
  let rest := loop (cnt + 1) query w' [] in
  let processing := (INFO, MsgProcessing (Company.kvk_nummer c) (Company.naam c)) in
  log_of run
  = log ++ processing :: (if search_urls then [(INFO, MsgStartUrlSearch)] else [])
        ++ [(WARNING, MsgError err); (WARNING, MsgSkipping)] ++ log_of rest
  /\ end_of run = end_of rest
  /\ run.1.1 = rest.1.1
  /\ (forall c2 query2,
        query = c2 :: query2 ->
        maximum_entries <> Some (cnt + 1) ->
        stop_file_exists w' = false ->
        Company.core_id c2 = None \/ force_process = true ->
        exists more,
          log_of rest
          = (INFO, MsgProcessing (Company.kvk_nummer c2) (Company.naam c2)) :: more)
  /\ (forall cnt0 query0 w0 log0 e,
        end_of (loop cnt0 query0 w0 log0) = LoopRaised e ->
        forall msg, e <> DatabaseError msg)
  /\ ((forall w0 c0 e, snd (CompanyUrlMatch w0 c0) = Raise e ->
                       exists msg, e = DatabaseError msg) ->
      forall query0 w0,
        end_of (find_best_matching_url World stop_file_exists remove_stop_file
                  CompanyUrlMatch maximum_entries force_process search_urls query0 w0)
        = LoopDone).
Proof.
  cbn zeta.
  assert (Hcapped : forall n, maximum_entries <> Some n ->
            match maximum_entries with Some m => n =? m | None => false end = false).
  { intros n Hn. destruct maximum_entries as [m|]; [|done].
    apply Z.eqb_neq. intros ->. by apply Hn. }
  assert (Hfresh : forall c0 : Company.row,
            Company.core_id c0 = None \/ force_process = true ->
            bool_decide (is_Some (Company.core_id c0)) && negb force_process = false).
  { intros c0 [Hnone| ->]; [|by rewrite andb_false_r].
    rewrite Hnone. apply andb_false_iff. left.
    apply bool_decide_eq_false. by intros [? ?]. }
  assert (Hstep : matching_loop World stop_file_exists remove_stop_file CompanyUrlMatch
                    maximum_entries force_process search_urls cnt (c :: query) w log
                  = matching_loop World stop_file_exists remove_stop_file CompanyUrlMatch
                      maximum_entries force_process search_urls (cnt + 1) query w'
                      (log ++ (INFO, MsgProcessing (Company.kvk_nummer c) (Company.naam c))
                           :: (if search_urls then [(INFO, MsgStartUrlSearch)] else [])
                           ++ [(WARNING, MsgError err); (WARNING, MsgSkipping)])).
  { cbn [matching_loop]. rewrite (Hcapped cnt Hcap), Hstop, (Hfresh c Hturn), Herr.
    f_equal. destruct search_urls; by rewrite <- !app_assoc. }
  rewrite Hstep.
  destruct (matching_loop_app stop_file_exists remove_stop_file CompanyUrlMatch
              maximum_entries force_process search_urls query (cnt + 1) w'
              (log ++ (INFO, MsgProcessing (Company.kvk_nummer c) (Company.naam c))
                   :: (if search_urls then [(INFO, MsgStartUrlSearch)] else [])
                   ++ [(WARNING, MsgError err); (WARNING, MsgSkipping)]))
    as (Hlog & Hend & Hworld).
  split_and!.
  - rewrite Hlog. rewrite <- !app_assoc. simpl.
    destruct search_urls; simpl; reflexivity.
  - exact Hend.
  - exact Hworld.
  - intros c2 query2 -> Hcap2 Hstop2 Hturn2. cbn [matching_loop].
    rewrite (Hcapped (cnt + 1) Hcap2), Hstop2, (Hfresh c2 Hturn2).
    destruct (CompanyUrlMatch w' c2) as [w2 [name|e]].
    + match goal with
      | |- context [matching_loop _ _ _ _ _ _ _ ?n ?q ?v ?l] =>
          destruct (matching_loop_app stop_file_exists remove_stop_file CompanyUrlMatch
                      maximum_entries force_process search_urls q n v l) as (-> & _ & _)
      end.
      destruct search_urls; simpl; by eexists.
    + destruct e;
        try (unfold log_of; destruct search_urls; simpl; by eexists).
      match goal with
      | |- context [matching_loop _ _ _ _ _ _ _ ?n ?q ?v ?l] =>
          destruct (matching_loop_app stop_file_exists remove_stop_file CompanyUrlMatch
                      maximum_entries force_process search_urls q n v l) as (-> & _ & _)
      end.
      destruct search_urls; simpl; by eexists.
  - intros cnt0 query0 w0 log0 e. apply matching_loop_no_database_error.
  - intros Hdb query0 w0. by apply matching_loop_done.
Qed.

(** Two fresh companies whose matches both fail in the store: both are
    handed to the matcher, each failure is logged with two warnings, and
    the run ends normally. *)
Lemma database_error_is_contained_witness :
  let run := matching_loop unit (fun _ => false) (fun w => w) failing_match
               (Some 5) false false 0 [fresh_company 1; fresh_company 2] tt [] in
  log_of run
  = [ (INFO, MsgProcessing 1 "company");
      (WARNING, MsgError "connection lost"); (WARNING, MsgSkipping);
      (INFO, MsgProcessing 2 "company");
      (WARNING, MsgError "connection lost"); (WARNING, MsgSkipping) ]
  /\ end_of run = LoopDone.
Proof.
  pose proof (database_error_is_contained (fun _ : unit => false) (fun w => w)
                failing_match (Some 5) false false 0 (fresh_company 1)
                [fresh_company 2] tt tt "connection lost" []) as H.
  destruct H as (Hlog & Hend & _); [discriminate|reflexivity|by left|reflexivity|].
  split; [exact Hlog|exact Hend].
Defined.

(** C10: the cap is compared with the number of the row in the query, so
    with [maximum_entries = m] at most [m] rows are gone through, skipped
    ones included, and no more rows are matched than are gone through; the
    number of matched companies can stay below [m] (always for a query
    that starts with processed companies, as in the run of two rows
    below, where a third, unprocessed company is not reached). *)
Theorem maximum_entries_counts_skipped_rows {World : Type}
    (stop_file_exists : World -> bool) (remove_stop_file : World -> World)
    (CompanyUrlMatch : World -> Company.row -> World * result string)
    (search_urls : bool) (m : Z) (Hm : 0 <= m)
    (query : list Company.row) (w : World) :
  let run := find_best_matching_url World stop_file_exists remove_stop_file
               CompanyUrlMatch (Some m) false search_urls in
  rows_iterated (log_of (run query w)) <= m
  /\ rows_matched (log_of (run query w)) <= rows_iterated (log_of (run query w))
  /\ (0 < m -> exists query', rows_matched (log_of (run query' w)) < m)
  /\ (let short_run := find_best_matching_url unit (fun _ => false) (fun u => u)
                         succeeding_match (Some 2) false false
                         [processed_company 1; fresh_company 2; fresh_company 3] tt in
      rows_iterated (log_of short_run) = 2 /\ rows_matched (log_of short_run) = 1).
Proof.
  simpl.
  assert (Hb : forall q,
    rows_iterated (log_of (find_best_matching_url World stop_file_exists
       remove_stop_file CompanyUrlMatch (Some m) false search_urls q w)) <= m
    /\ 0 <= rows_matched (log_of (find_best_matching_url World stop_file_exists
       remove_stop_file CompanyUrlMatch (Some m) false search_urls q w))
       <= rows_iterated (log_of (find_best_matching_url World stop_file_exists
       remove_stop_file CompanyUrlMatch (Some m) false search_urls q w))).
  { intros q.
    pose proof (matching_loop_bound stop_file_exists remove_stop_file CompanyUrlMatch
                  m false search_urls q 0 w [] Hm) as H.
    simpl in H. unfold find_best_matching_url.
    change (rows_iterated []) with 0 in H. change (rows_matched []) with 0 in H. lia. }
  split; [apply Hb|]. split; [apply Hb|]. split; [|by split].
  intros Hpos. exists [processed_company 1].
  destruct m as [|p|p]; try lia.
  unfold find_best_matching_url. simpl.
  destruct (stop_file_exists w); unfold log_of, rows_matched; simpl; lia.
Qed.

(** A cap of two on a query of three companies. *)
Lemma maximum_entries_counts_skipped_rows_witness :
  let run := find_best_matching_url unit (fun _ => false) (fun u => u)
               succeeding_match (Some 2) false false in
  0 <= 2
  /\ rows_iterated
       (log_of (run [processed_company 1; fresh_company 2; fresh_company 3] tt)) <= 2.
Proof.
  assert (Hm : 0 <= 2) by lia.
  split; [exact Hm|].
  exact (proj1 (maximum_entries_counts_skipped_rows (fun _ : unit => false) (fun u => u)
                  succeeding_match false 2 Hm
                  [processed_company 1; fresh_company 2; fresh_company 3] tt)).
Defined.

(** ** The coordinator *)

(** C6: where the shortlist has no row (the frame is [None], or it is
    empty), the company row is left as it was, in all its fields, no
    Website row is changed and nothing is saved.  With [None] the method
    returns; with an empty frame the read of the first index raises
    IndexError before anything is assigned. *)
Theorem empty_shortlist_leaves_company (save : bool) (i_proc : option Z) (now : Z)
    (web_df : option (list WebDf.row)) (company : Company.row)
    (websites : list Website.row)
    (Hempty : web_df = None \/ web_df = Some []) :
  let after := find_match_for_company save i_proc now web_df company websites in
  after_company after = company
  /\ Company.url (after_company after) = Company.url company
  /\ Company.core_id (after_company after) = Company.core_id company
  /\ Company.ranking (after_company after) = Company.ranking company
  /\ Company.datetime (after_company after) = Company.datetime company
  /\ after_websites after = websites
  /\ after_saved after = []
  /\ (web_df = None -> after_end after = Ok ())
  /\ (web_df = Some [] -> after_end after = Raise IndexError).
Proof.
  destruct Hempty as [-> | ->]; simpl; repeat split; congruence.
Qed.

(** An empty frame for a company that was not processed before. *)
Lemma empty_shortlist_leaves_company_witness :
  let after := find_match_for_company true (Some 0) 1 (Some [])
                 (fresh_company 1) [untested_website] in
  Company.core_id (after_company after) = None /\ after_saved after = [].
Proof.
  pose proof (empty_shortlist_leaves_company true (Some 0) 1 (Some [])
                (fresh_company 1) [untested_website] (or_intror eq_refl)) as H.
  simpl in H. destruct H as (_ & _ & Hcore & _ & _ & _ & Hsaved & _).
  split; [exact Hcore|exact Hsaved].
Defined.

(** A shortlist with a row marks the company as processed. *)
Lemma shortlist_row_sets_core_id save i_proc now best rest company websites web :
  websites !! WebDf.index best = Some web ->
  Company.core_id
    (after_company (find_match_for_company save i_proc now (Some (best :: rest))
                      company websites)) = i_proc.
Proof. intros H. unfold find_match_for_company. by rewrite H. Qed.

(** ** Staleness *)

Lemma split_comma_example :
  split_comma "1234AB,5678CD" = ["1234AB"; "5678CD"]%string.
Proof. reflexivity. Qed.

(** C4: with a timestamp and a window (a window that is not zero, or a
    timestamp that is not in the future) the row needs updating exactly when
    the elapsed time is not less than the window; without a timestamp it
    always needs updating; when it needs updating the timestamp, suffix,
    subdomain and domain are set, and the fetch that follows sees the row
    with these values; when it does not, the row is left alone, no fetch is
    made and the stored lists are split back into the matches. *)
Theorem staleness_policy
    (U : unicode) (UrlSearchStrings : string -> bool -> UrlSearch.t)
    (tldextract_extract : string -> tld_extract)
    (SOCIAL_MEDIA PAY_OPTIONS : list string)
    (paste_strings : list string -> option string)
    (older_time : option Z) (now : Z) (url_nl : UrlNL.row) (url_extract : tld_extract)
    (company_name url : string) (web : Website.row) :
  let checked := check_if_url_needs_update older_time now url_nl url_extract in
  let url_nl' := fst checked in
  let url_needs_update := snd checked in
  let a := update_and_scrape U UrlSearchStrings tldextract_extract SOCIAL_MEDIA PAY_OPTIONS
             paste_strings older_time now true company_name url url_extract web url_nl in
  (forall t window,
      UrlNL.datetime url_nl = Some t -> older_time = Some window ->
      window <> 0 \/ t <= now ->
      (url_needs_update = true <-> ~ now - t < window)
      /\ (url_needs_update = false <-> now - t < window))
  /\ (UrlNL.datetime url_nl = None -> url_needs_update = true)
  /\ (url_needs_update = true ->
        UrlNL.datetime url_nl' = Some now
        /\ UrlNL.suffix url_nl' = Some (suffix url_extract)
        /\ UrlNL.subdomain url_nl' = Some (subdomain url_extract)
        /\ UrlNL.domain url_nl' = Some (domain url_extract))
  /\ (url_needs_update = false -> url_nl' = url_nl)
  /\ analysed_needs_update a = url_needs_update
  /\ (url_needs_update = true -> analysed_fetches a = [(url, url_nl')])
  /\ (url_needs_update = false ->
        analysed_fetches a = []
        /\ analysed_url_nl a = url_nl
        /\ exists found,
            analysed_analyse a = Ok (Some found)
            /\ found = reuse_stored url_nl (UrlSearchStrings url false)
            /\ UrlSearch.exists_ found = true
            /\ (forall s, UrlNL.all_psc url_nl = Some s -> s <> ""%string ->
                          UrlSearch.matches_postcode found = split_comma s)
            /\ (forall s, UrlNL.all_btw url_nl = Some s -> s <> ""%string ->
                          UrlSearch.matches_btw found = split_comma s)
            /\ (forall s, UrlNL.all_kvk url_nl = Some s -> s <> ""%string ->
                          UrlSearch.matches_kvk found = split_comma s)).
Proof.
  assert (Hstored : forall field s matches,
            field = Some s -> s <> ""%string -> stored_matches field matches = split_comma s).
  { intros field s matches -> Hs. simpl.
    destruct (String.eqb_spec s ""); [done|reflexivity]. }
  simpl. split; [|split; [|split; [|split; [|split; [|split]]]]].
  - intros t window Ht -> Hw. unfold check_if_url_needs_update. rewrite Ht. simpl.
    destruct (Z.eqb_spec window 0) as [->|Hne]; simpl.
    + destruct Hw as [Hw|Hw]; [done|]. split; split; try done; try lia.
    + destruct (Z.ltb_spec (now - t) window); simpl; split; split; try done; try lia.
  - intros Hnone. unfold check_if_url_needs_update. by rewrite Hnone.
  - unfold check_if_url_needs_update.
    destruct (match UrlNL.datetime url_nl with Some _ => _ | None => _ end); [done|].
    simpl. discriminate.
  - unfold check_if_url_needs_update.
    destruct (match UrlNL.datetime url_nl with Some _ => _ | None => _ end); [|done].
    simpl. discriminate.
  - unfold update_and_scrape.
    by destruct (check_if_url_needs_update older_time now url_nl url_extract).
  - unfold update_and_scrape.
    destruct (check_if_url_needs_update older_time now url_nl url_extract) as [u b].
    simpl. intros ->. unfold scrape_url_and_store_in_tables. simpl.
    by destruct (store_scraped _ _ _ _ _ _ _).
  - unfold update_and_scrape.
    destruct (check_if_url_needs_update older_time now url_nl url_extract) as [u b] eqn:Hc.
    simpl. intros ->.
    assert (u = url_nl) as ->.
    { unfold check_if_url_needs_update in Hc.
      destruct (match UrlNL.datetime url_nl with Some _ => _ | None => _ end);
        [discriminate|]. by injection Hc as <-. }
    unfold scrape_url_and_store_in_tables. simpl.
    split; [done|]. split; [done|].
    eexists. split; [reflexivity|]. split; [reflexivity|]. split; [reflexivity|].
    simpl. repeat split; intros s Hs Hne; by apply Hstored.
Qed.

(** The two cases of the specification: processed one hour ago, with a
    window of two hours and with one of half an hour. *)
Lemma staleness_examples :
  snd (check_if_url_needs_update (Some (2 * hour)) hour stored_row company_extract) = false
  /\ snd (check_if_url_needs_update (Some (hour / 2)) hour stored_row company_extract) = true
  /\ analysed_fetches
       (update_and_scrape latin1 example_search example_extract [] [] (fun _ => None)
          (Some (2 * hour)) hour true "company" "www.company.nl" company_extract
          untested_website stored_row) = []
  /\ exists found,
       analysed_analyse
         (update_and_scrape latin1 example_search example_extract [] [] (fun _ => None)
            (Some (2 * hour)) hour true "company" "www.company.nl" company_extract
            untested_website stored_row) = Ok (Some found)
       /\ UrlSearch.matches_postcode found = ["1234AB"; "5678CD"]%string.
Proof. split; [done|]. split; [done|]. split; [done|]. eexists. by split. Qed.

(** ** The scoring engine *)


Lemma int_all_ok (py_int : string -> option Z) (l : list string) :
  Forall (fun kvk => is_Some (py_int (strip_dots kvk))) l ->
  exists kvks, int_all py_int l = Ok kvks.
Proof.
  induction 1 as [|s l [k Hk] _ [ks IH]]; simpl; [by eexists|].
  rewrite Hk, IH. by eexists.
Qed.

Section ScoringFacts.

Variable standard_postcode : string -> string.
Variable py_int : string -> option Z.
Variable Levenshtein_distance : string -> string -> Z.
Variable SequenceMatcher_ratio : string -> string -> Q.
Variable tldextract_extract : string -> tld_extract.

(** What the constructor computes, attribute by attribute. *)
Lemma UrlCompanyRanking_ok (url company_name : string) (url_extract : option tld_extract)
    (a : UrlSearch.t) (company_postcodes : gset string) (company_kvk_nummer : Z)
    (threshold_string_match : option Q) (threshold : Z) :
  threshold <> 0 -> kvk_strings_parse py_int a ->
  exists m kvks,
    UrlCompanyRanking standard_postcode py_int Levenshtein_distance SequenceMatcher_ratio
      tldextract_extract url company_name url_extract (Some a) company_postcodes
      company_kvk_nummer threshold_string_match (Some threshold) = Ok m
    /\ int_all py_int (kvk_lijst_of a) = Ok kvks
    /\ let e := match url_extract with Some e => e | None => tldextract_extract url end in
       let d := py_min (Levenshtein_distance (subdomain e) company_name)
                       (Levenshtein_distance (domain e) company_name) in
       let s := py_max (SequenceMatcher_ratio (subdomain e) company_name)
                       (SequenceMatcher_ratio (domain e) company_name) in
       let url_match := (inject_Z d * (1 - s))%Q in
       let url_rank :=
         (py_max (inject_Z 3 * (1 - url_match / inject_Z threshold)) 0
          + suffix_bonus (suffix e) + subdomain_bonus (subdomain e))%Q in
       let postcode_set : gset string :=
         list_to_set (map standard_postcode (postcode_lijst_of a)) in
       let kvk_set : gset Z := list_to_set kvks in
       let btw_set : gset string := list_to_set (map strip_dots (btw_lijst_of a)) in
       let has_postcode :=
         bool_decide (company_postcodes ≠ ∅)
         && bool_decide (company_postcodes ∩ postcode_set ≠ ∅) in
       let has_kvk_nummer := bool_decide (company_kvk_nummer ∈ kvk_set) in
       let has_btw_nummer := bool_decide (btw_set ≠ ∅) in
       Ranking.ext m = e
       /\ Ranking.distance m = Some d
       /\ Ranking.string_match m = Some s
       /\ Ranking.url_match m = Some url_match
       /\ Ranking.url_rank m = Some url_rank
       /\ Ranking.postcode_set m = postcode_set
       /\ Ranking.kvk_set m = kvk_set
       /\ Ranking.btw_set m = btw_set
       /\ Ranking.has_postcode m = has_postcode
       /\ Ranking.has_kvk_nummer m = has_kvk_nummer
       /\ Ranking.has_btw_nummer m = has_btw_nummer
       /\ Ranking.btw_nummer m = (strip_dots <$> head (elements btw_set))
       /\ Ranking.ranking m
          = (0 + bonus has_postcode 3 + bonus has_kvk_nummer 3 + bonus has_btw_nummer 0
             + url_rank)%Q.
Proof.
  intros Ht Hparse. destruct (int_all_ok py_int _ Hparse) as [kvks Hk].
  unfold kvk_lijst_of in Hk.
  unfold UrlCompanyRanking, rank_contact_list, get_ranking.
  cbn -[py_max py_min suffix_bonus subdomain_bonus bonus Qplus Qmult Qminus Qdiv
        list_to_set elements int_all matches_after_rank strip_dots Z.eqb].
  rewrite Hk.
  cbn -[py_max py_min suffix_bonus subdomain_bonus bonus Qplus Qmult Qminus Qdiv
        list_to_set elements int_all matches_after_rank strip_dots Z.eqb].
  destruct (Z.eqb_spec threshold 0) as [->|_]; [done|].
  eexists _, kvks. split; [reflexivity|]. split; [exact Hk|].
  cbn -[py_max py_min suffix_bonus subdomain_bonus bonus Qplus Qmult Qminus Qdiv
        list_to_set elements matches_after_rank strip_dots].
  repeat split.
Qed.

End ScoringFacts.



Lemma int_all_elem (py_int : string -> option Z) (l : list string) (kvks : list Z) (k : Z) :
  int_all py_int l = Ok kvks ->
  k ∈ kvks <-> exists s, s ∈ l /\ py_int (strip_dots s) = Some k.
Proof.
  revert kvks. induction l as [|x l IH]; intros kvks; simpl.
  - intros [= <-]. split; [by intros ?%elem_of_nil|]. by intros (s & ?%elem_of_nil & _).
  - destruct (py_int (strip_dots x)) as [kx|] eqn:Hx; [|discriminate].
    destruct (int_all py_int l) as [ks|]; [|discriminate].
    cbn [mbind result_bind]. intros [= <-]. rewrite elem_of_cons, (IH ks eq_refl).
    split.
    + intros [->|(s & Hs & Hk)]; [exists x|exists s]; split; auto; apply elem_of_cons; auto.
    + intros (s & Hs & Hk). apply elem_of_cons in Hs as [->|Hs].
      * left. congruence.
      * right. by exists s.
Qed.



(** The value of the example: distance 10 and ratio 2/3 give url_match
    10/3, the score 3 * (1 - (10/3)/3) is negative and cut off at 0, and
    the bonuses for nl and www make the url_rank 4. *)
Lemma url_shape_score_example :
  exists m,
    example_ranking "www.abcdefghijklmnopqrst.nl" long_extract plain_page ∅ (Some 3) = Ok m
    /\ Ranking.url_match m = Some (10 # 3)
    /\ Ranking.url_rank m = Some 4%Q
    /\ Ranking.ranking m = 4%Q.
Proof. eexists. split; [vm_compute; reflexivity|]. repeat split. Qed.

(** C3: the ranking starts at 0; 3 is added, and has_postcode is set,
    exactly when the postal codes of the company and of the page
    intersect; 3 is added, and has_kvk_nummer is set, exactly when the
    registration number of the company is among those of the page; when
    the page has a tax number, has_btw_nummer is set and the first tax
    number of the set is recorded, and 0 is added. *)
Theorem field_match_bonuses
    (standard_postcode : string -> string) (py_int : string -> option Z)
    (Levenshtein_distance : string -> string -> Z)
    (SequenceMatcher_ratio : string -> string -> Q)
    (tldextract_extract : string -> tld_extract)
    (url company_name : string) (url_extract : option tld_extract)
    (a : UrlSearch.t) (company_postcodes : gset string) (company_kvk_nummer : Z)
    (threshold_string_match : option Q) (threshold_distance : Z)
    (Hthreshold : threshold_distance <> 0)
    (Hparse : kvk_strings_parse py_int a) :
  exists m url_rank,
    UrlCompanyRanking standard_postcode py_int Levenshtein_distance SequenceMatcher_ratio
      tldextract_extract url company_name url_extract (Some a) company_postcodes
      company_kvk_nummer threshold_string_match (Some threshold_distance) = Ok m
    /\ Ranking.ranking
         (new_ranking tldextract_extract url company_name url_extract (Some a)
            company_postcodes company_kvk_nummer threshold_string_match
            (Some threshold_distance) 3) = 0%Q
    /\ Ranking.postcode_set m = list_to_set (map standard_postcode (postcode_lijst_of a))
    /\ (forall k, k ∈ Ranking.kvk_set m
                  <-> exists s, s ∈ kvk_lijst_of a /\ py_int (strip_dots s) = Some k)
    /\ Ranking.btw_set m = list_to_set (map strip_dots (btw_lijst_of a))
    /\ (Ranking.has_postcode m = true
        <-> exists pc, pc ∈ company_postcodes /\ pc ∈ Ranking.postcode_set m)
    /\ (Ranking.has_kvk_nummer m = true <-> company_kvk_nummer ∈ Ranking.kvk_set m)
    /\ (Ranking.has_btw_nummer m = true <-> Ranking.btw_set m ≠ ∅)
    /\ (Ranking.btw_set m ≠ ∅ ->
        exists first, head (elements (Ranking.btw_set m)) = Some first
                      /\ Ranking.btw_nummer m = Some (strip_dots first))
    /\ (Ranking.btw_set m = ∅ -> Ranking.btw_nummer m = None)
    /\ Ranking.url_rank m = Some url_rank
    /\ (Ranking.ranking m
        == 0 + (if Ranking.has_postcode m then 3 else 0)
             + (if Ranking.has_kvk_nummer m then 3 else 0)
             + (if Ranking.has_btw_nummer m then 0 else 0)
             + url_rank)%Q.
Proof.
  destruct (UrlCompanyRanking_ok standard_postcode py_int Levenshtein_distance
              SequenceMatcher_ratio tldextract_extract url company_name url_extract a
              company_postcodes company_kvk_nummer threshold_string_match
              threshold_distance Hthreshold Hparse)
    as (m & kvks & Hm & Hkvks & _ & _ & _ & _ & Hur & Hps & Hks & Hbs & Hp & Hk & Hb
        & Hbn & Hr).
  cbv zeta in *.
  exists m. eexists. split; [exact Hm|]. split; [reflexivity|].
  split; [exact Hps|]. split.
  { intros k. rewrite Hks, elem_of_list_to_set. by apply int_all_elem. }
  split; [exact Hbs|]. split.
  { rewrite Hp, Hps, andb_true_iff, !bool_decide_eq_true. split.
    - intros [_ Hne]. apply set_choose_L in Hne as [pc Hpc]. exists pc.
      by apply elem_of_intersection in Hpc.
    - intros (pc & H1 & H2). split; intros Hempty.
      + rewrite Hempty in H1. by apply not_elem_of_empty in H1.
      + assert (Hpc : pc ∈ company_postcodes ∩ list_to_set
                        (map standard_postcode (postcode_lijst_of a)))
          by (by apply elem_of_intersection).
        rewrite Hempty in Hpc. by apply not_elem_of_empty in Hpc. }
  split; [by rewrite Hk, Hks, bool_decide_eq_true|].
  split; [by rewrite Hb, Hbs, bool_decide_eq_true|].
  split.
  { intros Hne. rewrite Hbn, <- Hbs.
    destruct (elements (Ranking.btw_set m)) as [|first rest] eqn:He.
    - apply elements_empty_inv in He. by apply leibniz_equiv in He.
    - exists first. by simpl. }
  split.
  { intros Hempty. rewrite Hbn, <- Hbs, Hempty. by rewrite elements_empty. }
  split; [exact Hur|].
  rewrite Hr, Hp, Hk, Hb.
  unfold bonus. reflexivity.
Qed.

(** The long candidate scored on its contact page. *)
Lemma field_match_bonuses_witness :
  10 <> 0
  /\ kvk_strings_parse example_int contact_page
  /\ exists m url_rank,
       example_ranking "www.abcdefghijklmnopqrst.nl" long_extract contact_page
         {["1234AB"%string]} (Some 10) = Ok m
       /\ Ranking.url_rank m = Some url_rank.
Proof.
  assert (H1 : 10 <> 0) by lia.
  assert (H2 : kvk_strings_parse example_int contact_page).
  { constructor; [|constructor]. vm_compute. eexists. reflexivity. }
  split; [exact H1|]. split; [exact H2|].
  destruct (field_match_bonuses example_standard_postcode example_int example_distance
              example_ratio example_extract "www.abcdefghijklmnopqrst.nl" "abcdefghij"
              (Some long_extract) contact_page {["1234AB"%string]} 12345678
              (Some (1 # 2)) 10 H1 H2)
    as (m & ur & Hm & _ & _ & _ & _ & _ & _ & _ & _ & _ & Hur & _).
  exists m, ur. split; [exact Hm|exact Hur].
Defined.

(** The value of the example: the page shows the postal code and the
    registration number of the company and a tax number; the ranking is
    3 + 3 + 0 + 6. *)
Lemma field_match_bonuses_example :
  exists m,
    example_ranking "www.abcdefghijklmnopqrst.nl" long_extract contact_page
      {["1234AB"%string]} (Some 10) = Ok m
    /\ Ranking.has_postcode m = true
    /\ Ranking.has_kvk_nummer m = true
    /\ Ranking.has_btw_nummer m = true
    /\ Ranking.btw_nummer m = Some "NL001234567B01"%string
    /\ Ranking.url_rank m = Some (180 # 30)
    /\ (Ranking.ranking m == 12)%Q.
Proof. eexists. split; [vm_compute; reflexivity|]. repeat split. Qed.

(** * The loop over the candidates *)

Lemma register_links_keeps get_clean_url url hrefs table stored k row :
  table !! k = Some row ->
  (register_links get_clean_url url hrefs table stored).1 !! k = Some row.
Proof.
  unfold register_links. revert table stored.
  induction hrefs as [|href hrefs IH]; intros table stored Hk; [done|].
  simpl. destruct href as [external_url|]; [|by apply IH].
  destruct (table !! get_clean_url external_url) eqn:Hc; [by apply IH|].
  apply IH. rewrite lookup_insert_ne; [done|]. intros <-. congruence.
Qed.

Lemma register_links_new get_clean_url url hrefs table stored k row :
  (register_links get_clean_url url hrefs table stored).1 !! k = Some row ->
  table !! k = Some row
  \/ (table !! k = None /\ row = url_nl_create k url
      /\ exists external_url, In (Some external_url) hrefs
                              /\ k = get_clean_url external_url).
Proof.
  unfold register_links. revert table stored.
  induction hrefs as [|href hrefs IH]; intros table stored Hk; [by left|].
  simpl in Hk. destruct href as [external_url|].
  - destruct (table !! get_clean_url external_url) eqn:Hc.
    + destruct (IH _ _ Hk) as [?|(? & ? & e & ? & ?)]; [by left|].
      right. split_and!; [done..|]. exists e. split; [by right|done].
    + destruct (IH _ _ Hk) as [Hi|(Hn & ? & e & ? & ?)].
      * rewrite lookup_insert in Hi. destruct (decide _) as [<-|].
        -- right. injection Hi as <-. split_and!; [done..|].
           exists external_url. split; [by left|done].
        -- by left.
      * rewrite lookup_insert in Hn. destruct (decide _); [done|].
        right. split_and!; [done..|]. exists e. split; [by right|done].
  - destruct (IH _ _ Hk) as [?|(? & ? & e & ? & ?)]; [by left|].
    right. split_and!; [done..|]. exists e. split; [by right|done].
Qed.

Lemma register_links_stored get_clean_url url hrefs table stored :
  exists created,
    (register_links get_clean_url url hrefs table stored).2
    = stored ++ map CreateUrlNL created.
Proof.
  unfold register_links. revert table stored.
  induction hrefs as [|href hrefs IH]; intros table stored.
  { exists []. simpl. by rewrite app_nil_r. }
  simpl. destruct href as [external_url|]; [|by apply IH].
  destruct (table !! get_clean_url external_url); [by apply IH|].
  destruct (IH (<[get_clean_url external_url :=
                   url_nl_create (get_clean_url external_url) url]> table)
               (stored ++ [CreateUrlNL (url_nl_create (get_clean_url external_url) url)]))
    as [created ->].
  exists (url_nl_create (get_clean_url external_url) url :: created).
  by rewrite <- app_assoc.
Qed.

(** The staleness check and the fetch leave the URL of the Website object
    alone. *)
Lemma update_and_scrape_url U UrlSearchStrings tldextract_extract SOCIAL_MEDIA PAY_OPTIONS
    paste_strings older_time now internet_scraping company_name url url_extract web url_nl :
  Website.url
    (analysed_web
       (update_and_scrape U UrlSearchStrings tldextract_extract SOCIAL_MEDIA PAY_OPTIONS
          paste_strings older_time now internet_scraping company_name url url_extract
          web url_nl))
  = Website.url web.
Proof.
  unfold update_and_scrape.
  destruct (check_if_url_needs_update _ _ _ _) as [u needs].
  destruct internet_scraping; [|done].
  unfold scrape_url_and_store_in_tables. destruct needs; [|done]. simpl.
  by destruct (store_scraped _ _ _ _ _ _ _).
Qed.

(** Without scraping there is no page analysis and nothing is raised; with
    scraping there is an analysis unless the fetch raises. *)
Lemma update_and_scrape_analyse U UrlSearchStrings tldextract_extract SOCIAL_MEDIA
    PAY_OPTIONS paste_strings older_time now internet_scraping company_name url
    url_extract web url_nl :
  analysed_analyse
    (update_and_scrape U UrlSearchStrings tldextract_extract SOCIAL_MEDIA PAY_OPTIONS
       paste_strings older_time now internet_scraping company_name url url_extract
       web url_nl) = Ok None
  <-> internet_scraping = false.
Proof.
  unfold update_and_scrape.
  destruct (check_if_url_needs_update _ _ _ _) as [u needs].
  destruct internet_scraping; simpl; [|done].
  split; [|done]. by destruct (scraped_analyse _).
Qed.

(** Without a page analysis the constructor of the ranking fails at the
    first attribute access of [rank_contact_list]. *)
Lemma UrlCompanyRanking_without_page standard_postcode py_int Levenshtein_distance
    SequenceMatcher_ratio tldextract_extract url company_name url_extract
    company_postcodes company_kvk_nummer threshold_string_match threshold_distance :
  UrlCompanyRanking standard_postcode py_int Levenshtein_distance SequenceMatcher_ratio
    tldextract_extract url company_name url_extract None company_postcodes
    company_kvk_nummer threshold_string_match threshold_distance
  = Raise AttributeError.
Proof. reflexivity. Qed.

(** Filling in a row that had no distance yet adds its distance to the
    minimum of the column. *)
Lemma column_min_insert web_df i_web r0 r :
  web_df !! i_web = Some r0 -> WebDf.distance r0 = None ->
  column_min (<[i_web := r]> web_df)
  = match WebDf.distance r, column_min web_df with
    | Some d, Some m => Some (Z.min d m)
    | Some d, None => Some d
    | None, acc => acc
    end.
Proof.
  revert i_web. induction web_df as [|x web_df IH]; intros [|i_web] Hl Hd; try done.
  - injection Hl as ->. simpl. unfold column_min at 2. simpl. rewrite Hd.
    by destruct (WebDf.distance r).
  - simpl in Hl. change (<[S i_web := r]> (x :: web_df)) with (x :: <[i_web := r]> web_df).
    unfold column_min. simpl. fold (column_min (<[i_web := r]> web_df)).
    fold (column_min web_df). rewrite (IH _ Hl Hd).
    destruct (WebDf.distance x), (WebDf.distance r), (column_min web_df);
      try done; f_equal; lia.
Qed.

Lemma column_min_alter f web_df i_web :
  (forall r, WebDf.distance (f r) = WebDf.distance r) ->
  column_min (alter f i_web web_df) = column_min web_df.
Proof.
  intros Hf. revert i_web. induction web_df as [|x web_df IH]; intros [|i_web]; try done.
  - unfold column_min. simpl. by rewrite Hf.
  - change (alter f (S i_web) (x :: web_df)) with (x :: alter f i_web web_df).
    unfold column_min. simpl. fold (column_min (alter f i_web web_df)).
    by rewrite IH.
Qed.

(** What a ranking that was made holds. *)
Lemma UrlCompanyRanking_made standard_postcode py_int Levenshtein_distance
    SequenceMatcher_ratio tldextract_extract url company_name url_extract url_analyse
    company_postcodes company_kvk_nummer threshold_string_match threshold_distance m :
  UrlCompanyRanking standard_postcode py_int Levenshtein_distance SequenceMatcher_ratio
    tldextract_extract url company_name (Some url_extract) url_analyse company_postcodes
    company_kvk_nummer threshold_string_match threshold_distance = Ok m ->
  Ranking.ext m = url_extract
  /\ Ranking.distance m
     = Some (py_min (Levenshtein_distance (subdomain url_extract) company_name)
                    (Levenshtein_distance (domain url_extract) company_name))
  /\ Ranking.string_match m
     = Some (py_max (SequenceMatcher_ratio (subdomain url_extract) company_name)
                    (SequenceMatcher_ratio (domain url_extract) company_name))
  /\ is_Some (Ranking.url_match m) /\ is_Some (Ranking.url_rank m)
  /\ is_Some (Ranking.url_analyse m)
  /\ exists threshold, threshold_distance = Some threshold /\ threshold <> 0.
Proof.
  unfold UrlCompanyRanking. cbv zeta.
  destruct url_analyse as [a|]; [|done]. simpl.
  unfold get_ranking. simpl.
  destruct (int_all _ _) as [kvks|e]; [|done]. simpl.
  destruct threshold_distance as [threshold|]; [|done].
  destruct (threshold =? 0) eqn:Ht; [done|].
  intros [= <-]. simpl. split_and!; try done; try by eexists.
  exists threshold. split; [done|]. by apply Z.eqb_neq.
Qed.

(** The outbound links of the page that the ranking holds are those of the
    page it was given, and those of an analysis are the links of the search
    object that [UrlSearchStrings] returned for the URL. *)
Lemma UrlCompanyRanking_hrefs standard_postcode py_int Levenshtein_distance
    SequenceMatcher_ratio tldextract_extract url company_name url_extract an0
    company_postcodes company_kvk_nummer threshold_string_match threshold_distance m an :
  UrlCompanyRanking standard_postcode py_int Levenshtein_distance SequenceMatcher_ratio
    tldextract_extract url company_name url_extract (Some an0) company_postcodes
    company_kvk_nummer threshold_string_match threshold_distance = Ok m ->
  Ranking.url_analyse m = Some an ->
  UrlSearch.external_hrefs an = UrlSearch.external_hrefs an0.
Proof.
  unfold UrlCompanyRanking. cbv zeta. simpl.
  unfold get_ranking. simpl.
  destruct (int_all _ _) as [kvks|e]; [|done]. simpl.
  destruct threshold_distance as [threshold|]; [|done].
  destruct (threshold =? 0); [done|].
  intros [= <-]. simpl. by intros [= <-].
Qed.

Lemma update_and_scrape_hrefs U UrlSearchStrings tldextract_extract SOCIAL_MEDIA
    PAY_OPTIONS paste_strings older_time now internet_scraping company_name url
    url_extract web url_nl an0 :
  analysed_analyse
    (update_and_scrape U UrlSearchStrings tldextract_extract SOCIAL_MEDIA PAY_OPTIONS
       paste_strings older_time now internet_scraping company_name url url_extract
       web url_nl) = Ok (Some an0) ->
  exists scrape_url,
    UrlSearch.external_hrefs an0
    = UrlSearch.external_hrefs (UrlSearchStrings url scrape_url).
Proof.
  unfold update_and_scrape.
  destruct (check_if_url_needs_update _ _ _ _) as [u needs].
  destruct internet_scraping; [|done]. simpl.
  unfold scrape_url_and_store_in_tables. destruct needs; simpl.
  - destruct (store_scraped _ _ _ _ _ _ _); simpl; [|done].
    intros [= <-]. by exists true.
  - intros [= <-]. by exists false.
Qed.

Section CollectFacts.

Variable U : unicode.
Variable standard_postcode : string -> string.
Variable py_int : string -> option Z.
Variable Levenshtein_distance : string -> string -> Z.
Variable SequenceMatcher_ratio : string -> string -> Q.
Variable tldextract_extract : string -> tld_extract.
Variable UrlSearchStrings : string -> bool -> UrlSearch.t.
Variable SOCIAL_MEDIA : list string.
Variable PAY_OPTIONS : list string.
Variable paste_strings : list string -> option string.
Variable format_08d : Z -> string.
Variable get_clean_url : string -> string.
Variable now : nat -> Z.
Variable filter_urls : option (list string).
Variable exclude_extensions : gset string.
Variable internet_scraping : bool.
Variable save : bool.
Variable older_time : option Z.
Variable threshold_distance : option Z.
Variable threshold_string_match : option Q.
Variable company_name : string.
Variable company_name_small : string.
Variable kvk_nr : Z.
Variable postcodes : gset string.

Local Abbreviation turn :=
  (collect_candidate U standard_postcode py_int Levenshtein_distance SequenceMatcher_ratio
     tldextract_extract UrlSearchStrings SOCIAL_MEDIA PAY_OPTIONS paste_strings
     format_08d get_clean_url now filter_urls exclude_extensions internet_scraping save
     older_time threshold_distance threshold_string_match company_name
     company_name_small kvk_nr postcodes).
Local Abbreviation turns :=
  (collect_from U standard_postcode py_int Levenshtein_distance SequenceMatcher_ratio
     tldextract_extract UrlSearchStrings SOCIAL_MEDIA PAY_OPTIONS paste_strings
     format_08d get_clean_url now filter_urls exclude_extensions internet_scraping save
     older_time threshold_distance threshold_string_match company_name
     company_name_small kvk_nr postcodes).
Local Abbreviation collect :=
  (collect_web_sites U standard_postcode py_int Levenshtein_distance SequenceMatcher_ratio
     tldextract_extract UrlSearchStrings SOCIAL_MEDIA PAY_OPTIONS paste_strings
     format_08d get_clean_url now filter_urls exclude_extensions internet_scraping save
     older_time threshold_distance threshold_string_match company_name
     company_name_small kvk_nr postcodes).
Local Abbreviation analysis i_web url web url_nl :=
  (update_and_scrape U UrlSearchStrings tldextract_extract SOCIAL_MEDIA PAY_OPTIONS
     paste_strings older_time (now i_web) internet_scraping company_name url
     (tldextract_extract url) web url_nl).
Local Abbreviation rank url analyse :=
  (UrlCompanyRanking standard_postcode py_int Levenshtein_distance SequenceMatcher_ratio
     tldextract_extract url company_name_small (Some (tldextract_extract url)) analyse
     postcodes kvk_nr threshold_string_match threshold_distance).
Local Abbreviation fetches i_web a st :=
  (Collection.fetched st ++ map (fun f => (i_web, f.1, f.2)) (analysed_fetches a)).

(** The three ways in which one turn of the loop ends normally: the
    candidate is passed over, its page does not exist, or it is scored. *)
Lemma collect_candidate_inv i_web web st st' :
  turn i_web web st = Returns st' ->
  exists url, Website.url web = Some url /\
    ((st' = st
      /\ (filtered_out filter_urls url = true
          \/ suffix (tldextract_extract url) ∈ exclude_extensions
          \/ Collection.url_nl st !! url = None))
     \/ (filtered_out filter_urls url = false
         /\ (suffix (tldextract_extract url) ∉ exclude_extensions)
         /\ exists url_nl, Collection.url_nl st !! url = Some url_nl
            /\ ((exists an,
                    analysed_analyse (analysis i_web url web url_nl) = Ok (Some an)
                    /\ UrlSearch.exists_ an = false
                    /\ st' = missing_page i_web
                               (analysed_web (analysis i_web url web url_nl))
                               (fetches i_web (analysis i_web url web url_nl) st) st)
                \/ (exists an0 m d s an,
                       analysed_analyse (analysis i_web url web url_nl) = Ok (Some an0)
                       /\ UrlSearch.exists_ an0 = true
                       /\ rank url (Some an0) = Ok m
                       /\ Ranking.distance m = Some d
                       /\ Ranking.string_match m = Some s
                       /\ Ranking.url_analyse m = Some an
                       /\ st' = scored_page paste_strings format_08d get_clean_url save
                                  i_web url
                                  (analysed_web (analysis i_web url web url_nl))
                                  (analysed_url_nl (analysis i_web url web url_nl))
                                  m d s an
                                  (fetches i_web (analysis i_web url web url_nl) st)
                                  st)))).
Proof.
  unfold collect_candidate. intros H.
  destruct (Website.url web) as [url|]; [|done].
  exists url. split; [done|].
  destruct (filtered_out filter_urls url) eqn:Hf.
  { left. injection H as <-. auto. }
  cbv zeta in H. case_bool_decide as Hs.
  { left. injection H as <-. auto. }
  destruct (Collection.url_nl st !! url) as [url_nl|] eqn:Hu.
  2:{ left. injection H as <-. auto. }
  right. split_and!; [done..|]. exists url_nl. split; [done|].
  destruct (analysed_analyse (analysis i_web url web url_nl)) as [[an|]|e] eqn:Ha;
    [| |done].
  - destruct (UrlSearch.exists_ an) eqn:He; simpl in H.
    + right. destruct (rank url (Some an)) as [m|e] eqn:Hm; [|done].
      destruct (Ranking.distance m) as [d|] eqn:Hd; [|done].
      destruct (Ranking.string_match m) as [s|] eqn:Hsm; [|done].
      destruct (Ranking.url_analyse m) as [an'|] eqn:Han; [|done].
      injection H as <-. by exists an, m, d, s, an'.
    + left. injection H as <-. by exists an.
  - by rewrite UrlCompanyRanking_without_page in H.
Qed.


(** A property that holds at the start and that every turn keeps, holds at
    the end of the loop. *)
Lemma collect_from_invariant (P : nat -> Collection.t -> Prop) websites :
  (forall i_web web st st',
      websites !! i_web = Some web -> P i_web st -> turn i_web web st = Returns st' ->
      P (S i_web) st') ->
  forall i_web st st',
    (i_web <= List.length websites)%nat ->
    P i_web st -> turns i_web (drop i_web websites) st = Returns st' ->
    P (List.length websites) st'.
Proof.
  intros Hstep i_web st st' Hi. remember (List.length websites - i_web)%nat as n eqn:Hn.
  revert i_web st Hi Hn. induction n as [|n IH]; intros i_web st Hi Hn HP Hrun.
  - assert (i_web = List.length websites) as -> by lia.
    rewrite drop_all in Hrun. simpl in Hrun. by injection Hrun as <-.
  - destruct (websites !! i_web) as [web|] eqn:Hw.
    2:{ apply lookup_ge_None in Hw. lia. }
    rewrite (drop_S _ _ _ Hw) in Hrun. simpl in Hrun.
    destruct (turn i_web web st) as [st1|st1 e] eqn:Hc; [|done].
    apply (IH (S i_web) st1); [lia|lia|by eapply Hstep|done].
Qed.



Lemma loop_shape_start websites table :
  loop_shape websites 0 (collection_start websites table).
Proof.
  unfold loop_shape, collection_start. simpl.
  split_and!; [done| |done|done| |].
  - by rewrite length_map, length_seq.
  - intros j [_ Hj]. change (map WebDf.nan ?l) with (WebDf.nan <$> l).
    rewrite list_lookup_fmap.
    by rewrite (proj2 (lookup_seq 0 _ j j) (conj eq_refl Hj)).
  - intros j r. change (map WebDf.nan ?l) with (WebDf.nan <$> l).
    rewrite list_lookup_fmap. intros Hr.
    apply fmap_Some in Hr as (k & Hk & ->). apply lookup_seq in Hk as [-> _]. done.
Qed.

Lemma loop_shape_step websites i_web web st st' :
  websites !! i_web = Some web -> loop_shape websites i_web st ->
  turn i_web web st = Returns st' -> loop_shape websites (S i_web) st'.
Proof.
  intros Hw (Hlw & Hld & Hurl & Htail & Hnan & Hidx) Hturn.
  assert (Hkeep : forall web', Website.url web' = Website.url web ->
            Website.url <$> <[i_web := web']> (Collection.company_websites st)
            = Website.url <$> websites).
  { intros web' Hu. rewrite list_fmap_insert, Hu, Hurl. apply list_insert_id.
    by rewrite list_lookup_fmap, Hw. }
  destruct (collect_candidate_inv _ _ _ _ Hturn) as (url & Hu & [[-> _]|Hrest]).
  { split_and!; [done..| | |done].
    - intros j Hj. apply Htail. lia.
    - intros j Hj. apply Hnan. lia. }
  destruct Hrest as (_ & _ & url_nl & _ & [(an & _ & _ & ->)|(an0 & m & d & s & an & _ & _ & _ & _ & _ & _ & ->)]).
  - unfold loop_shape, missing_page. simpl. split_and!.
    + by rewrite length_insert.
    + by rewrite length_alter.
    + apply Hkeep, update_and_scrape_url.
    + intros j Hj. rewrite list_lookup_insert_ne by lia. apply Htail. lia.
    + intros j Hj. rewrite list_lookup_alter_ne by lia. apply Hnan. lia.
    + intros j r. rewrite list_lookup_alter. destruct (decide (i_web = j)) as [<-|]; [|apply Hidx].
      intros Hr. apply fmap_Some in Hr as (r0 & Hr0 & ->). simpl. by apply Hidx.
  - unfold loop_shape, scored_page. simpl. split_and!.
    + by rewrite length_insert.
    + by rewrite length_insert.
    + apply Hkeep. simpl. apply update_and_scrape_url.
    + intros j Hj. rewrite list_lookup_insert_ne by lia. apply Htail. lia.
    + intros j Hj. rewrite list_lookup_insert_ne by lia. apply Hnan. lia.
    + intros j r. rewrite list_lookup_insert.
      destruct (decide _) as [[<- _]|]; [|apply Hidx]. by intros [= <-].
Qed.

Local Abbreviation kind :=
  (frame_row standard_postcode py_int Levenshtein_distance SequenceMatcher_ratio
     tldextract_extract threshold_distance threshold_string_match company_name_small
     kvk_nr postcodes).

(** Every row of the frame is of one of the three kinds. *)
Lemma frame_rows_step websites i_web web st st' :
  websites !! i_web = Some web -> loop_shape websites i_web st ->
  (forall j r, Collection.web_df st !! j = Some r -> kind websites j r) ->
  turn i_web web st = Returns st' ->
  forall j r, Collection.web_df st' !! j = Some r -> kind websites j r.
Proof.
  intros Hw (Hlw & Hld & Hurl & Htail & Hnan & Hidx) Hrows Hturn.
  assert (Hi : (i_web < List.length websites)%nat) by by eapply lookup_lt_Some.
  destruct (collect_candidate_inv _ _ _ _ Hturn) as (url & Hu & [[-> _]|Hrest]); [done|].
  destruct Hrest as (_ & _ & url_nl & _ &
    [(an & _ & _ & ->)|(an0 & m & d & s & an & _ & Hex & Hm & _ & _ & _ & ->)]);
    intros j r; simpl.
  - rewrite list_lookup_alter. destruct (decide (i_web = j)) as [<-|]; [|apply Hrows].
    rewrite Hnan by lia. intros [= <-]. right. by left.
  - rewrite list_lookup_insert. destruct (decide _) as [[<- _]|]; [|apply Hrows].
    intros [= <-]. right. right. by exists web, url, an0, m.
Qed.

(** The least distance so far, and the first position that has it. *)
Lemma best_distance_step websites i_web web st st' :
  websites !! i_web = Some web -> loop_shape websites i_web st ->
  match Collection.min_distance st with
  | None =>
      Collection.index_distance st = None
      /\ forall j r, Collection.web_df st !! j = Some r -> WebDf.distance r = None
  | Some m =>
      exists k r,
        Collection.index_distance st = Some k
        /\ Collection.web_df st !! k = Some r /\ WebDf.distance r = Some m
        /\ forall j r' d', Collection.web_df st !! j = Some r' ->
                           WebDf.distance r' = Some d' ->
                           m <= d' /\ ((j < k)%nat -> m < d')
  end ->
  turn i_web web st = Returns st' ->
  match Collection.min_distance st' with
  | None =>
      Collection.index_distance st' = None
      /\ forall j r, Collection.web_df st' !! j = Some r -> WebDf.distance r = None
  | Some m =>
      exists k r,
        Collection.index_distance st' = Some k
        /\ Collection.web_df st' !! k = Some r /\ WebDf.distance r = Some m
        /\ forall j r' d', Collection.web_df st' !! j = Some r' ->
                           WebDf.distance r' = Some d' ->
                           m <= d' /\ ((j < k)%nat -> m < d')
  end.
Proof.
  intros Hw (Hlw & Hld & Hurl & Htail & Hnan & Hidx) Hbest Hturn.
  assert (Hi : (i_web < List.length websites)%nat) by by eapply lookup_lt_Some.
  assert (Hrow : Collection.web_df st !! i_web = Some (WebDf.nan i_web))
    by (apply Hnan; lia).
  assert (Hlate : forall j r d, Collection.web_df st !! j = Some r ->
             WebDf.distance r = Some d -> (j < i_web)%nat).
  { intros j r d Hr Hd. destruct (decide (j < i_web)%nat); [done|].
    assert (j < List.length websites)%nat
      by (rewrite <- Hld; by eapply lookup_lt_Some).
    rewrite Hnan in Hr by lia. by injection Hr as <-. }
  destruct (collect_candidate_inv _ _ _ _ Hturn) as (url & Hu & [[-> _]|Hrest]); [done|].
  destruct Hrest as (_ & _ & url_nl & _ &
    [(an & _ & _ & ->)|(an0 & m & d & s & an & _ & Hex & Hm & Hd & _ & _ & ->)]).
  - simpl. destruct (Collection.min_distance st) as [md|].
    + destruct Hbest as (k & r & Hk & Hr & Hrd & Hall). exists k, r.
      assert (k <> i_web) by (specialize (Hlate _ _ _ Hr Hrd); lia).
      split_and!; [done| |done|].
      * by rewrite list_lookup_alter_ne.
      * intros j r' d'. rewrite list_lookup_alter.
        destruct (decide (i_web = j)) as [<-|]; [|apply Hall].
        rewrite Hrow. by intros [= <-].
    + destruct Hbest as [Hk Hall]. split; [done|]. intros j r.
      rewrite list_lookup_alter. destruct (decide (i_web = j)) as [<-|]; [|apply Hall].
      rewrite Hrow. by intros [= <-].
  - simpl. destruct (Collection.min_distance st) as [md|].
    + destruct Hbest as (k & r & Hk & Hr & Hrd & Hall).
      assert (k < i_web)%nat by by eapply Hlate.
      destruct (d <? md) eqn:Hlt.
      * apply Z.ltb_lt in Hlt. exists i_web, (web_df_row i_web url m
          (Website.ranking (scored_website
             (analysed_web (analysis i_web url web url_nl)) m))).
        split_and!; [done| |done|].
        -- rewrite list_lookup_insert. rewrite decide_True; [done|]. split; [done|lia].
        -- intros j r' d'. rewrite list_lookup_insert.
           destruct (decide _) as [[<- _]|].
           ++ intros [= <-]. simpl. rewrite Hd. intros [= <-]. lia.
           ++ intros Hr' Hd'. destruct (Hall _ _ _ Hr' Hd'). lia.
      * apply Z.ltb_ge in Hlt. exists k, r. split_and!; [done| |done|].
        -- rewrite list_lookup_insert_ne by lia. done.
        -- intros j r' d'. rewrite list_lookup_insert.
           destruct (decide _) as [[<- _]|]; [|apply Hall].
           intros [= <-]. simpl. rewrite Hd. intros [= <-]. lia.
    + destruct Hbest as [Hk Hall]. exists i_web, (web_df_row i_web url m
          (Website.ranking (scored_website
             (analysed_web (analysis i_web url web url_nl)) m))).
      split_and!; [done| |done|].
      * rewrite list_lookup_insert. rewrite decide_True; [done|]. split; [done|lia].
      * intros j r' d'. rewrite list_lookup_insert.
        destruct (decide _) as [[<- _]|].
        -- intros [= <-]. simpl. rewrite Hd. intros [= <-]. lia.
        -- intros Hr' Hd'. by rewrite (Hall _ _ Hr') in Hd'.
Qed.

(** The greatest string match so far, and the first position that has it. *)
Lemma best_string_match_step websites i_web web st st' :
  websites !! i_web = Some web -> loop_shape websites i_web st ->
  match Collection.max_sequence_match st with
  | None =>
      Collection.index_string_match st = None
      /\ forall j r, Collection.web_df st !! j = Some r -> WebDf.string_match r = None
  | Some m =>
      exists k r,
        Collection.index_string_match st = Some k
        /\ Collection.web_df st !! k = Some r /\ WebDf.string_match r = Some m
        /\ forall j r' s', Collection.web_df st !! j = Some r' ->
                           WebDf.string_match r' = Some s' ->
                           (s' <= m)%Q /\ ((j < k)%nat -> (s' < m)%Q)
  end ->
  turn i_web web st = Returns st' ->
  match Collection.max_sequence_match st' with
  | None =>
      Collection.index_string_match st' = None
      /\ forall j r, Collection.web_df st' !! j = Some r -> WebDf.string_match r = None
  | Some m =>
      exists k r,
        Collection.index_string_match st' = Some k
        /\ Collection.web_df st' !! k = Some r /\ WebDf.string_match r = Some m
        /\ forall j r' s', Collection.web_df st' !! j = Some r' ->
                           WebDf.string_match r' = Some s' ->
                           (s' <= m)%Q /\ ((j < k)%nat -> (s' < m)%Q)
  end.
Proof.
  intros Hw (Hlw & Hld & Hurl & Htail & Hnan & Hidx) Hbest Hturn.
  assert (Hi : (i_web < List.length websites)%nat) by by eapply lookup_lt_Some.
  assert (Hrow : Collection.web_df st !! i_web = Some (WebDf.nan i_web))
    by (apply Hnan; lia).
  assert (Hlate : forall j r s, Collection.web_df st !! j = Some r ->
             WebDf.string_match r = Some s -> (j < i_web)%nat).
  { intros j r s Hr Hs. destruct (decide (j < i_web)%nat); [done|].
    assert (j < List.length websites)%nat
      by (rewrite <- Hld; by eapply lookup_lt_Some).
    rewrite Hnan in Hr by lia. by injection Hr as <-. }
  destruct (collect_candidate_inv _ _ _ _ Hturn) as (url & Hu & [[-> _]|Hrest]); [done|].
  destruct Hrest as (_ & _ & url_nl & _ &
    [(an & _ & _ & ->)|(an0 & m & d & s & an & _ & Hex & Hm & _ & Hs & _ & ->)]).
  - simpl. destruct (Collection.max_sequence_match st) as [ms|].
    + destruct Hbest as (k & r & Hk & Hr & Hrs & Hall). exists k, r.
      assert (k <> i_web) by (specialize (Hlate _ _ _ Hr Hrs); lia).
      split_and!; [done| |done|].
      * by rewrite list_lookup_alter_ne.
      * intros j r' s'. rewrite list_lookup_alter.
        destruct (decide (i_web = j)) as [<-|]; [|apply Hall].
        rewrite Hrow. by intros [= <-].
    + destruct Hbest as [Hk Hall]. split; [done|]. intros j r.
      rewrite list_lookup_alter. destruct (decide (i_web = j)) as [<-|]; [|apply Hall].
      rewrite Hrow. by intros [= <-].
  - simpl. destruct (Collection.max_sequence_match st) as [ms|].
    + destruct Hbest as (k & r & Hk & Hr & Hrs & Hall).
      assert (k < i_web)%nat by by eapply Hlate.
      destruct (Qle_bool s ms) eqn:Hle; simpl.
      * apply Qle_bool_iff in Hle. exists k, r. split_and!; [done| |done|].
        -- rewrite list_lookup_insert_ne by lia. done.
        -- intros j r' s'. rewrite list_lookup_insert.
           destruct (decide _) as [[<- _]|]; [|apply Hall].
           intros [= <-]. simpl. rewrite Hs. intros [= <-]. split; [done|lia].
      * assert (ms < s)%Q as Hlt.
        { apply Qnot_le_lt. intros Hc. apply Qle_bool_iff in Hc. congruence. }
        exists i_web, (web_df_row i_web url m
          (Website.ranking (scored_website
             (analysed_web (analysis i_web url web url_nl)) m))).
        split_and!; [done| |done|].
        -- rewrite list_lookup_insert. rewrite decide_True; [done|]. split; [done|lia].
        -- intros j r' s'. rewrite list_lookup_insert.
           destruct (decide _) as [[<- _]|].
           ++ intros [= <-]. simpl. rewrite Hs. intros [= <-].
              split; [apply Qle_refl|lia].
           ++ intros Hr' Hs'. destruct (Hall _ _ _ Hr' Hs') as [Hle' _].
              split; [apply Qlt_le_weak|intros _]; by eapply Qle_lt_trans.
    + destruct Hbest as [Hk Hall]. exists i_web, (web_df_row i_web url m
          (Website.ranking (scored_website
             (analysed_web (analysis i_web url web url_nl)) m))).
      split_and!; [done| |done|].
      * rewrite list_lookup_insert. rewrite decide_True; [done|]. split; [done|lia].
      * intros j r' s'. rewrite list_lookup_insert.
        destruct (decide _) as [[<- _]|].
        -- intros [= <-]. simpl. rewrite Hs. intros [= <-]. split; [apply Qle_refl|lia].
        -- intros Hr' Hs'. by rewrite (Hall _ _ Hr') in Hs'.
Qed.

(** The value kept in [min_distance] is the minimum of the column. *)
Lemma min_distance_step websites i_web web st st' :
  websites !! i_web = Some web -> loop_shape websites i_web st ->
  Collection.min_distance st = column_min (Collection.web_df st) ->
  turn i_web web st = Returns st' ->
  Collection.min_distance st' = column_min (Collection.web_df st').
Proof.
  intros Hw (Hlw & Hld & Hurl & Htail & Hnan & Hidx) Hmin Hturn.
  assert (Hi : (i_web < List.length websites)%nat) by by eapply lookup_lt_Some.
  assert (Hrow : Collection.web_df st !! i_web = Some (WebDf.nan i_web))
    by (apply Hnan; lia).
  destruct (collect_candidate_inv _ _ _ _ Hturn) as (url & Hu & [[-> _]|Hrest]); [done|].
  destruct Hrest as (_ & _ & url_nl & _ &
    [(an & _ & _ & ->)|(an0 & m & d & s & an & _ & Hex & Hm & Hd & _ & _ & ->)]); simpl.
  - by rewrite column_min_alter.
  - rewrite (column_min_insert _ _ _ _ Hrow eq_refl). simpl. rewrite Hd, <- Hmin.
    destruct (Collection.min_distance st) as [md|]; [|done].
    destruct (d <? md) eqn:Hlt; f_equal.
    + apply Z.ltb_lt in Hlt. lia.
    + apply Z.ltb_ge in Hlt. lia.
Qed.

(** At most one fetch per turn: for the URL of the candidate, with scraping
    switched on, and with the registry row stamped with the time of the
    turn. *)
Lemma update_and_scrape_fetches i_web url web url_nl :
  analysed_fetches (analysis i_web url web url_nl) = []
  \/ exists row,
       analysed_fetches (analysis i_web url web url_nl) = [(url, row)]
       /\ internet_scraping = true
       /\ UrlNL.datetime row = Some (now i_web).
Proof.
  unfold update_and_scrape, check_if_url_needs_update.
  destruct (match UrlNL.datetime url_nl with Some _ => _ | None => _ end);
    destruct internet_scraping; simpl; auto.
  right. unfold scrape_url_and_store_in_tables. simpl.
  destruct (store_scraped _ _ _ _ _ _ _); simpl; eexists; split_and!; done.
Qed.

(** Which candidates a turn never touches, and which pages it may fetch. *)
Lemma fetches_step (websites : list Website.row) i_web web st st' :
  websites !! i_web = Some web ->
  turn i_web web st = Returns st' ->
  forall j u row, In (j, u, row) (Collection.fetched st') ->
    In (j, u, row) (Collection.fetched st)
    \/ (j = i_web /\ Website.url web = Some u
        /\ filtered_out filter_urls u = false
        /\ (suffix (tldextract_extract u) ∉ exclude_extensions)
        /\ is_Some (Collection.url_nl st !! u)
        /\ internet_scraping = true
        /\ UrlNL.datetime row = Some (now i_web)
        /\ Collection.fetched st' = Collection.fetched st ++ [(j, u, row)]).
Proof.
  intros Hw Hturn j u row.
  destruct (collect_candidate_inv _ _ _ _ Hturn) as (url & Hu & [[-> _]|Hrest]); [by left|].
  destruct Hrest as (Hf & Hs & url_nl & Ht & Hcase).
  assert (Hfetched : Collection.fetched st'
                     = fetches i_web (analysis i_web url web url_nl) st).
  { by destruct Hcase as [(an & _ & _ & ->)|(an0 & m & d & s & an & _ & _ & _ & _ & _ & _ & ->)]. }
  rewrite Hfetched.
  destruct (update_and_scrape_fetches i_web url web url_nl) as [->|(row' & -> & Hon & Hd)].
  - simpl. rewrite app_nil_r. by left.
  - simpl. rewrite in_app_iff. intros [?|[[= <- <- <-]|[]]]; [by left|].
    right. split_and!; try done; by eexists.
Qed.

Lemma passed_over_step websites i_web web st st' :
  websites !! i_web = Some web -> loop_shape websites i_web st ->
  turn i_web web st = Returns st' ->
  forall j web' url,
    websites !! j = Some web' -> Website.url web' = Some url ->
    filtered_out filter_urls url = true
    \/ suffix (tldextract_extract url) ∈ exclude_extensions
    \/ j <> i_web ->
    Collection.company_websites st' !! j = Collection.company_websites st !! j
    /\ Collection.web_df st' !! j = Collection.web_df st !! j.
Proof.
  intros Hw Hshape Hturn j web' url Hj Hurl Hskip.
  destruct (collect_candidate_inv _ _ _ _ Hturn) as (u & Hu & [[-> _]|Hrest]); [done|].
  destruct Hrest as (Hf & Hs & url_nl & Ht & Hcase).
  assert (j <> i_web) as Hne.
  { intros ->. rewrite Hw in Hj. injection Hj as <-. rewrite Hu in Hurl.
    injection Hurl as <-. destruct Hskip as [?|[?|?]]; [congruence|done|done]. }
  destruct Hcase as [(an & _ & _ & ->)|(an0 & m & d & s & an & _ & _ & _ & _ & _ & _ & ->)];
    simpl.
  - by rewrite list_lookup_insert_ne, list_lookup_alter_ne.
  - by rewrite !list_lookup_insert_ne.
Qed.

(** A row of the frame that has a URL keeps it. *)
Lemma frame_urls_step websites i_web web st st' :
  websites !! i_web = Some web -> loop_shape websites i_web st ->
  turn i_web web st = Returns st' ->
  forall j r k, Collection.web_df st !! j = Some r -> WebDf.url r = Some k ->
    exists r', Collection.web_df st' !! j = Some r' /\ WebDf.url r' = Some k.
Proof.
  intros Hw (Hlw & Hld & Hurl & Htail & Hnan & Hidx) Hturn j r k Hr Hk.
  assert (j <> i_web) as Hne.
  { intros ->. rewrite Hnan in Hr; [by injection Hr as <-|].
    split; [done|]. by eapply lookup_lt_Some. }
  destruct (collect_candidate_inv _ _ _ _ Hturn) as (url & Hu & [[-> _]|Hrest]).
  { by exists r. }
  destruct Hrest as (_ & _ & url_nl & _ &
    [(an & _ & _ & ->)|(an0 & m & d & s & an & _ & _ & _ & _ & _ & _ & ->)]);
    simpl; exists r.
  - by rewrite list_lookup_alter_ne.
  - by rewrite list_lookup_insert_ne.
Qed.

(** The registry never loses a row, only the rows of scored candidates are
    written, and that only when [save] is set; a new key is the cleaned
    form of an outbound link. *)
Lemma registry_step websites i_web web st st' :
  websites !! i_web = Some web -> loop_shape websites i_web st ->
  turn i_web web st = Returns st' ->
  (forall k row, Collection.url_nl st !! k = Some row ->
     is_Some (Collection.url_nl st' !! k)
     /\ (save = false
         \/ (forall j r, Collection.web_df st' !! j = Some r -> WebDf.url r <> Some k) ->
         Collection.url_nl st' !! k = Some row))
  /\ (forall k, is_Some (Collection.url_nl st' !! k) ->
        is_Some (Collection.url_nl st !! k)
        \/ exists url scrape_url external_url,
             Website.url web = Some url
             /\ In (Some external_url)
                   (UrlSearch.external_hrefs (UrlSearchStrings url scrape_url))
             /\ k = get_clean_url external_url).
Proof.
  intros Hw (Hlw & Hld & Hurl & Htail & Hnan & Hidx) Hturn.
  assert (Hi : (i_web < List.length (Collection.web_df st))%nat).
  { rewrite Hld. by eapply lookup_lt_Some. }
  destruct (collect_candidate_inv _ _ _ _ Hturn) as (url & Hu & [[-> _]|Hrest]).
  { split; [|by left]. intros k row Hk. split; [by eexists|done]. }
  destruct Hrest as (Hf & Hs & url_nl & Ht &
    [(an & _ & _ & ->)|(an0 & m & d & s & an & Ha & _ & Hm & _ & _ & Han & ->)]).
  { split; [|by left]. intros k row Hk. split; [by eexists|done]. }
  unfold scored_page. simpl. split.
  - intros k row Hk. split.
    + destruct save; simpl.
      * destruct (decide (url = k)) as [<-|].
        -- eexists. apply register_links_keeps. by rewrite lookup_insert, decide_True.
        -- eexists. apply register_links_keeps. by rewrite lookup_insert_ne.
      * eexists. by apply register_links_keeps.
    + intros Hsave. apply register_links_keeps. destruct save; simpl; [|done].
      destruct Hsave as [?|Hrow]; [done|].
      rewrite lookup_insert_ne; [done|]. intros <-.
      eapply (Hrow i_web); [rewrite list_lookup_insert, decide_True; done|done].
  - intros k [row Hk]. apply register_links_new in Hk as [Hk|(_ & _ & e & He & ->)].
    + left. destruct save; simpl in Hk; [|by eexists].
      rewrite lookup_insert in Hk. destruct (decide (url = k)) as [<-|]; by eexists.
    + right. rewrite (UrlCompanyRanking_hrefs _ _ _ _ _ _ _ _ _ _ _ _ _ _ _ Hm Han) in He.
      destruct (update_and_scrape_hrefs _ _ _ _ _ _ _ _ _ _ _ _ _ _ _ Ha) as [b Hb].
      rewrite Hb in He. by exists url, b, e.
Qed.

(** Without [save] the only thing written to the store are the new
    registry rows. *)
Lemma stored_step (websites : list Website.row) i_web web st st' :
  websites !! i_web = Some web ->
  turn i_web web st = Returns st' ->
  exists written,
    Collection.stored st' = Collection.stored st ++ written
    /\ (save = false -> forall e, In e written -> exists u, e = CreateUrlNL u).
Proof.
  intros Hw Hturn.
  destruct (collect_candidate_inv _ _ _ _ Hturn) as (url & Hu & [[-> _]|Hrest]).
  { exists []. by rewrite app_nil_r. }
  destruct Hrest as (Hf & Hs & url_nl & Ht &
    [(an & _ & _ & ->)|(an0 & m & d & s & an & _ & _ & _ & _ & _ & _ & ->)]).
  { exists []. simpl. by rewrite app_nil_r. }
  unfold scored_page. simpl.
  match goal with
  | |- context [register_links ?g ?u ?h ?t ?s] =>
      destruct (register_links_stored g u h t s) as [created ->]
  end.
  destruct save; simpl.
  - eexists. rewrite <- app_assoc. split; [done|]. done.
  - exists (map CreateUrlNL created). split; [done|]. intros _ e He.
    apply in_map_iff in He as (u & <- & _). by exists u.
Qed.

(** With scraping switched off a turn either passes the candidate over or
    fails on the missing page analysis. *)
Lemma turn_without_scraping i_web web st :
  internet_scraping = false ->
  (turn i_web web st = Returns st
   /\ exists url, Website.url web = Some url
       /\ (filtered_out filter_urls url = true
           \/ suffix (tldextract_extract url) ∈ exclude_extensions
           \/ Collection.url_nl st !! url = None))
  \/ ((exists st',
         turn i_web web st = Raises st' AttributeError
         /\ Collection.url_nl st' = Collection.url_nl st
         /\ Collection.stored st' = Collection.stored st
         /\ Collection.fetched st' = Collection.fetched st
         /\ Collection.web_df st' = Collection.web_df st)
      /\ forall url, Website.url web = Some url ->
           filtered_out filter_urls url = false
           /\ (suffix (tldextract_extract url) ∉ exclude_extensions)
           /\ is_Some (Collection.url_nl st !! url)).
Proof.
  intros Hoff. unfold collect_candidate.
  destruct (Website.url web) as [url|]; [|right; split; [by exists st|done]].
  destruct (filtered_out filter_urls url) eqn:Hf.
  { left. split; [done|]. exists url. auto. }
  cbv zeta. case_bool_decide as Hs.
  { left. split; [done|]. exists url. auto. }
  destruct (Collection.url_nl st !! url) as [url_nl|] eqn:Hu.
  2:{ left. split; [done|]. exists url. auto. }
  right. split.
  - rewrite (proj2 (update_and_scrape_analyse _ _ _ _ _ _ _ _ _ _ _ _ _ _) Hoff).
    eexists. split; [reflexivity|]. simpl. split_and!; try done.
    unfold update_and_scrape. rewrite Hoff.
    destruct (check_if_url_needs_update _ _ _ _). simpl. by rewrite app_nil_r.
  - intros ? [= <-]. split_and!; [done..|]. by eexists.
Qed.

Lemma both_set_step (websites : list Website.row) i_web web st st' :
  websites !! i_web = Some web ->
  (is_Some (Collection.min_distance st) <-> is_Some (Collection.max_sequence_match st)) ->
  turn i_web web st = Returns st' ->
  (is_Some (Collection.min_distance st') <-> is_Some (Collection.max_sequence_match st')).
Proof.
  intros Hw Hboth Hturn.
  destruct (collect_candidate_inv _ _ _ _ Hturn) as (url & Hu & [[-> _]|Hrest]); [done|].
  destruct Hrest as (_ & _ & url_nl & _ &
    [(an & _ & _ & ->)|(an0 & m & d & s & an & _ & _ & _ & _ & _ & _ & ->)]); [done|].
  simpl. split; intros _.
  - destruct (Collection.max_sequence_match st); [destruct (negb _)|]; by eexists.
  - destruct (Collection.min_distance st); [destruct (_ <? _)|]; by eexists.
Qed.

(** The result of [collect_web_sites] is the state that the loop ends in. *)
Lemma collect_web_sites_inv websites table c :
  collect websites table = Returns c ->
  turns 0%nat (drop 0 websites) (collection_start websites table)
  = Returns (collected_state c)
  /\ collected_web_df c
     = match Collection.min_distance (collected_state c) with
       | None => None
       | Some _ => Some (Collection.web_df (collected_state c))
       end
  /\ collected_warning c
     = match Collection.min_distance (collected_state c) with
       | None => false
       | Some _ =>
           negb (bool_decide (Collection.index_string_match (collected_state c)
                              = Collection.index_distance (collected_state c)))
       end.
Proof.
  unfold collect_web_sites. rewrite drop_0.
  destruct (collect_from _ _ _ _ _ _ _ _ _ _ _ _ _ _ _ _ _ _ _ _ _ _ _ _ _ _ _)
    as [st|st e]; [|done].
  simpl. by intros [= <-].
Qed.

(** An invariant of the turns that holds at the start holds for the result
    of [collect_web_sites]; the shape of the state can be used in every
    turn. *)
Lemma collect_web_sites_invariant (P : Collection.t -> Prop) websites table c :
  P (collection_start websites table) ->
  (forall i_web web st st',
      websites !! i_web = Some web -> loop_shape websites i_web st -> P st ->
      turn i_web web st = Returns st' -> P st') ->
  collect websites table = Returns c ->
  loop_shape websites (List.length websites) (collected_state c)
  /\ P (collected_state c).
Proof.
  intros Hstart Hstep Hc. apply collect_web_sites_inv in Hc as (Hrun & _ & _).
  apply (collect_from_invariant (fun i st => loop_shape websites i st /\ P st) websites)
    with (i_web := 0%nat) (st := collection_start websites table); [|lia| |done].
  - intros i_web web st st' Hw [Hshape HP] Hturn. split.
    + by eapply loop_shape_step.
    + by eapply Hstep.
  - split; [apply loop_shape_start|done].
Qed.



End CollectFacts.

(** * The candidates of a company: what [collect_web_sites] guarantees *)

(** The shape of the result of [collect_web_sites] and the kinds of rows of
    its frame. *)
Lemma collect_web_sites_frame (lib : library) (self : attributes)
    (websites : list Website.row) (table : gmap string UrlNL.row) (c : collected)
    (H : collect_web_sites_with lib self websites table = Returns c) :
  List.length (Collection.company_websites (collected_state c)) = List.length websites
  /\ Website.url <$> Collection.company_websites (collected_state c)
     = Website.url <$> websites
  /\ List.length (Collection.web_df (collected_state c)) = List.length websites
  /\ forall j r, Collection.web_df (collected_state c) !! j = Some r ->
       WebDf.index r = j /\ frame_row_with lib self websites j r.
Proof.
  unfold collect_web_sites_with in H.
  eapply (collect_web_sites_invariant _ _ _ _ _ _ _ _ _ _ _ _ _ _ _ _ _ _ _ _ _ _ _ _
            (fun st => forall j r, Collection.web_df st !! j = Some r ->
                                   frame_row_with lib self websites j r)) in H.
  - destruct H as [(Hlw & Hld & Hurl & _ & _ & Hidx) Hrows]. split_and!; try done.
    intros j r Hr. split; [by apply Hidx|by apply Hrows].
  - intros j r Hr. left.
    destruct (loop_shape_start websites table) as (_ & Hld & _ & _ & Hnan & _).
    assert (j < List.length websites)%nat by (rewrite <- Hld; by eapply lookup_lt_Some).
    rewrite Hnan in Hr by lia. by injection Hr as <-.
  - intros i_web web st st' Hw Hshape Hrows Hturn. unfold frame_row_with.
    eapply frame_rows_step; [exact Hw|exact Hshape|exact Hrows|exact Hturn].
Qed.

(** X1.  When [collect_web_sites] returns, the list of Website objects and
    the frame have the length they started with, no Website object has
    changed its URL, and the row at position [j] of the frame carries the
    label [j] and is of one of three kinds: untouched (all NaN), marked
    as a page that does not exist, or the scores that [UrlCompanyRanking]
    computes for the URL of candidate [j] on a page that exists. *)
Theorem collect_frame_rows (lib : library) (self : attributes)
    (websites : list Website.row) (table : gmap string UrlNL.row) (c : collected)
    (H : collect_web_sites_with lib self websites table = Returns c) :
  List.length (Collection.company_websites (collected_state c)) = List.length websites
  /\ Website.url <$> Collection.company_websites (collected_state c)
     = Website.url <$> websites
  /\ List.length (Collection.web_df (collected_state c)) = List.length websites
  /\ forall j r, Collection.web_df (collected_state c) !! j = Some r ->
       WebDf.index r = j /\ frame_row_with lib self websites j r.
Proof.
  unfold collect_web_sites_with in H.
  eapply (collect_web_sites_invariant _ _ _ _ _ _ _ _ _ _ _ _ _ _ _ _ _ _ _ _ _ _ _ _
            (fun st => forall j r, Collection.web_df st !! j = Some r ->
                                   frame_row_with lib self websites j r)) in H.
  - destruct H as [(Hlw & Hld & Hurl & _ & _ & Hidx) Hrows]. split_and!; try done.
    intros j r Hr. split; [by apply Hidx|by apply Hrows].
  - intros j r Hr. left.
    destruct (loop_shape_start websites table) as (_ & Hld & _ & _ & Hnan & _).
    assert (j < List.length websites)%nat by (rewrite <- Hld; by eapply lookup_lt_Some).
    rewrite Hnan in Hr by lia. by injection Hr as <-.
  - intros i_web web st st' Hw Hshape Hrows Hturn. unfold frame_row_with.
    eapply frame_rows_step; [exact Hw|exact Hshape|exact Hrows|exact Hturn].
Qed.

Lemma collect_frame_rows_witness :
  List.length (Collection.company_websites (collected_state (shop_collected true)))
  = List.length shop_websites
  /\ Website.url <$> Collection.company_websites (collected_state (shop_collected true))
     = Website.url <$> shop_websites
  /\ List.length (Collection.web_df (collected_state (shop_collected true)))
     = List.length shop_websites
  /\ forall j r, Collection.web_df (collected_state (shop_collected true)) !! j = Some r ->
       WebDf.index r = j
       /\ frame_row_with shop_library (shop_attributes true true) shop_websites j r.
Proof.
  apply (collect_frame_rows shop_library (shop_attributes true true) shop_websites
           shop_registry (shop_collected true)).
  vm_compute. reflexivity.
Defined.

(** X2.  When [collect_web_sites] returns, the least distance it kept is
    the minimum of the distance column.  The frame is dropped ([None])
    exactly when no row has a distance.  Otherwise [index_distance] is the
    first position with the least distance, [index_string_match] is the
    first position with the greatest string match, and the warning is
    logged exactly when these two positions differ. *)
Theorem collect_tracks_best (lib : library) (self : attributes)
    (websites : list Website.row) (table : gmap string UrlNL.row) (c : collected)
    (H : collect_web_sites_with lib self websites table = Returns c) :
  Collection.min_distance (collected_state c)
  = column_min (Collection.web_df (collected_state c))
  /\ match collected_web_df c with
     | None =>
         forall j r, Collection.web_df (collected_state c) !! j = Some r ->
                     WebDf.distance r = None
     | Some web_df =>
         web_df = Collection.web_df (collected_state c)
         /\ exists kd rd d ks rs s,
              Collection.index_distance (collected_state c) = Some kd
              /\ web_df !! kd = Some rd /\ WebDf.distance rd = Some d
              /\ (forall j r' d', web_df !! j = Some r' -> WebDf.distance r' = Some d' ->
                                  d <= d' /\ ((j < kd)%nat -> d < d'))
              /\ Collection.index_string_match (collected_state c) = Some ks
              /\ web_df !! ks = Some rs /\ WebDf.string_match rs = Some s
              /\ (forall j r' s', web_df !! j = Some r' ->
                                  WebDf.string_match r' = Some s' ->
                                  (s' <= s)%Q /\ ((j < ks)%nat -> (s' < s)%Q))
              /\ (collected_warning c = true <-> ks <> kd)
     end.
Proof.
  unfold collect_web_sites_with in H.
  pose proof H as Hres. apply collect_web_sites_inv in Hres as (_ & Hdf & Hwarn).
  eapply (collect_web_sites_invariant _ _ _ _ _ _ _ _ _ _ _ _ _ _ _ _ _ _ _ _ _ _ _ _
    (fun st =>
       Collection.min_distance st = column_min (Collection.web_df st)
       /\ (is_Some (Collection.min_distance st)
           <-> is_Some (Collection.max_sequence_match st))
       /\ match Collection.min_distance st with
          | None =>
              Collection.index_distance st = None
              /\ forall j r, Collection.web_df st !! j = Some r -> WebDf.distance r = None
          | Some m =>
              exists k r,
                Collection.index_distance st = Some k
                /\ Collection.web_df st !! k = Some r /\ WebDf.distance r = Some m
                /\ forall j r' d', Collection.web_df st !! j = Some r' ->
                                   WebDf.distance r' = Some d' ->
                                   m <= d' /\ ((j < k)%nat -> m < d')
          end
       /\ match Collection.max_sequence_match st with
          | None =>
              Collection.index_string_match st = None
              /\ forall j r, Collection.web_df st !! j = Some r ->
                             WebDf.string_match r = None
          | Some m =>
              exists k r,
                Collection.index_string_match st = Some k
                /\ Collection.web_df st !! k = Some r /\ WebDf.string_match r = Some m
                /\ forall j r' s', Collection.web_df st !! j = Some r' ->
                                   WebDf.string_match r' = Some s' ->
                                   (s' <= m)%Q /\ ((j < k)%nat -> (s' < m)%Q)
          end)) in H.
  - destruct H as [_ (Hmin & Hboth & Hd & Hs)]. split; [done|].
    rewrite Hdf, Hwarn.
    destruct (Collection.min_distance (collected_state c)) as [m|]; [|by destruct Hd].
    split; [done|].
    destruct (proj1 Hboth) as [ms Hms]; [by eexists|]. rewrite Hms in Hs.
    destruct Hd as (kd & rd & Hkd & Hrd & Hdd & Hdall).
    destruct Hs as (ks & rs & Hks & Hrs & Hss & Hsall).
    exists kd, rd, m, ks, rs, ms. split_and!; try done.
    rewrite Hkd, Hks, negb_true_iff, bool_decide_eq_false. split; congruence.
  - assert (Hnan : forall j r,
              Collection.web_df (collection_start websites table) !! j = Some r ->
              r = WebDf.nan j).
    { intros j r Hr.
      destruct (loop_shape_start websites table) as (_ & Hld & _ & _ & Hnan & _).
      assert (j < List.length websites)%nat
        by (rewrite <- Hld; by eapply lookup_lt_Some).
      rewrite Hnan in Hr by lia. by injection Hr as <-. }
    simpl. split_and!.
    + clear Hnan. generalize 0%nat. induction (List.length websites) as [|n IH]; [done|].
      intros k. simpl. unfold column_min. simpl. apply IH.
    + split; intros [? ?]; done.
    + done.
    + intros j r Hr. by rewrite (Hnan _ _ Hr).
    + done.
    + intros j r Hr. by rewrite (Hnan _ _ Hr).
  - intros i_web web st st' Hw Hshape (Hmin & Hboth & Hd & Hs) Hturn. split_and!.
    + eapply min_distance_step; [exact Hw|exact Hshape|exact Hmin|exact Hturn].
    + eapply both_set_step; [exact Hw|exact Hboth|exact Hturn].
    + eapply best_distance_step; [exact Hw|exact Hshape|exact Hd|exact Hturn].
    + eapply best_string_match_step; [exact Hw|exact Hshape|exact Hs|exact Hturn].
Qed.

Lemma collect_tracks_best_witness :
  Collection.min_distance (collected_state (shop_collected true))
  = column_min (Collection.web_df (collected_state (shop_collected true)))
  /\ match collected_web_df (shop_collected true) with
     | None =>
         forall j r, Collection.web_df (collected_state (shop_collected true)) !! j
                     = Some r ->
                     WebDf.distance r = None
     | Some web_df =>
         web_df = Collection.web_df (collected_state (shop_collected true))
         /\ exists kd rd d ks rs s,
              Collection.index_distance (collected_state (shop_collected true)) = Some kd
              /\ web_df !! kd = Some rd /\ WebDf.distance rd = Some d
              /\ (forall j r' d', web_df !! j = Some r' -> WebDf.distance r' = Some d' ->
                                  d <= d' /\ ((j < kd)%nat -> d < d'))
              /\ Collection.index_string_match (collected_state (shop_collected true))
                 = Some ks
              /\ web_df !! ks = Some rs /\ WebDf.string_match rs = Some s
              /\ (forall j r' s', web_df !! j = Some r' ->
                                  WebDf.string_match r' = Some s' ->
                                  (s' <= s)%Q /\ ((j < ks)%nat -> (s' < s)%Q))
              /\ (collected_warning (shop_collected true) = true <-> ks <> kd)
     end.
Proof.
  apply (collect_tracks_best shop_library (shop_attributes true true) shop_websites
           shop_registry (shop_collected true)).
  vm_compute. reflexivity.
Defined.

(** A row of the shortlist is a row of the frame that passes the mask. *)
Lemma shortlist_In threshold_distance threshold_string_match web_df r :
  In r (get_best_matching_web_site threshold_distance threshold_string_match web_df) ->
  In r web_df
  /\ shortlist_mask threshold_distance threshold_string_match web_df r = true.
Proof.
  unfold get_best_matching_web_site. rewrite sort_by_In. apply filter_In.
Qed.

Lemma In_lookup {A : Type} (l : list A) (x : A) : In x l -> exists i, l !! i = Some x.
Proof.
  intros H. apply (proj2 (list_elem_of_In l x)) in H.
  by apply list_elem_of_lookup_1 in H.
Qed.

(** X3.  A candidate whose URL is not on the list of [filter_urls], or
    whose suffix is in the index of [exclude_extensions], is passed over:
    when [collect_web_sites] returns, its Website object is as it was, its
    row of the frame is still all NaN, its page was never fetched, and its
    row is in no shortlist, whatever the thresholds. *)
Theorem collect_passes_over (lib : library) (self : attributes)
    (websites : list Website.row) (table : gmap string UrlNL.row) (c : collected)
    (j : nat) (web : Website.row) (url : string)
    (H : collect_web_sites_with lib self websites table = Returns c)
    (Hweb : websites !! j = Some web)
    (Hurl : Website.url web = Some url)
    (Hskip : filtered_out (self_filter_urls self) url = true
             \/ suffix (lib_tldextract_extract lib url) ∈ self_exclude_extensions self) :
  Collection.company_websites (collected_state c) !! j = Some web
  /\ Collection.web_df (collected_state c) !! j = Some (WebDf.nan j)
  /\ (forall u row, ~ In (j, u, row) (Collection.fetched (collected_state c)))
  /\ forall threshold_distance threshold_string_match r,
       In r (get_best_matching_web_site threshold_distance threshold_string_match
               (Collection.web_df (collected_state c))) ->
       WebDf.index r <> j.
Proof.
  unfold collect_web_sites_with in H.
  eapply (collect_web_sites_invariant _ _ _ _ _ _ _ _ _ _ _ _ _ _ _ _ _ _ _ _ _ _ _ _
    (fun st =>
       Collection.company_websites st !! j = Some web
       /\ Collection.web_df st !! j = Some (WebDf.nan j)
       /\ forall u row, ~ In (j, u, row) (Collection.fetched st))) in H.
  - destruct H as [(_ & _ & _ & _ & _ & Hidx) (Hw & Hr & Hf)]. split_and!; try done.
    intros td ts r Hin <-. apply shortlist_In in Hin as [Hin Hmask].
    apply In_lookup in Hin as [k Hk]. rewrite <- (Hidx _ _ Hk) in Hk.
    rewrite Hr in Hk. injection Hk as Hk. by rewrite <- Hk in Hmask.
  - destruct (loop_shape_start websites table) as (_ & _ & _ & _ & Hnan & _).
    split_and!; [done| |by intros ? ? []].
    apply Hnan. split; [lia|]. by eapply lookup_lt_Some.
  - intros i_web web' st st' Hw' Hshape (Hw & Hr & Hf) Hturn.
    edestruct passed_over_step as [Hw1 Hr1];
      [exact Hw'|exact Hshape|exact Hturn|exact Hweb|exact Hurl| |].
    { destruct Hskip; [left|right; left]; eassumption. }
    rewrite Hw1, Hr1. split_and!; [done..|].
    intros u row Hin.
    eapply fetches_step in Hin; [|exact Hw'|exact Hturn].
    destruct Hin as [Hin|(-> & Hu & Hfilter & Hsuffix & _)]; [by eapply Hf|].
    rewrite Hw' in Hweb. injection Hweb as ->. rewrite Hurl in Hu. injection Hu as ->.
    destruct Hskip; [congruence|done].
Qed.

Lemma collect_passes_over_witness :
  Collection.company_websites (collected_state (shop_collected true)) !! 1%nat
  = Some (shop_website "www.acme.be")
  /\ Collection.web_df (collected_state (shop_collected true)) !! 1%nat
     = Some (WebDf.nan 1)
  /\ (forall u row,
        ~ In (1%nat, u, row) (Collection.fetched (collected_state (shop_collected true))))
  /\ forall threshold_distance threshold_string_match r,
       In r (get_best_matching_web_site threshold_distance threshold_string_match
               (Collection.web_df (collected_state (shop_collected true)))) ->
       WebDf.index r <> 1%nat.
Proof.
  apply (collect_passes_over shop_library (shop_attributes true true) shop_websites
           shop_registry (shop_collected true) 1%nat (shop_website "www.acme.be")
           "www.acme.be").
  - vm_compute. reflexivity.
  - reflexivity.
  - reflexivity.
  - right. vm_compute. reflexivity.
Defined.

(** The same for an invariant that mentions the number of turns made. *)
Lemma collect_web_sites_invariant_at (lib : library) (self : attributes)
    (P : nat -> Collection.t -> Prop) websites table c :
  P 0%nat (collection_start websites table) ->
  (forall i_web web st st',
      websites !! i_web = Some web -> loop_shape websites i_web st -> P i_web st ->
      collect_candidate (lib_unicode lib) (lib_standard_postcode lib) (lib_int lib)
        (lib_Levenshtein_distance lib) (lib_SequenceMatcher_ratio lib)
        (lib_tldextract_extract lib) (lib_UrlSearchStrings lib) (lib_SOCIAL_MEDIA lib)
        (lib_PAY_OPTIONS lib) (lib_paste_strings lib) (lib_format_08d lib)
        (lib_get_clean_url lib) (lib_now lib) (self_filter_urls self)
        (self_exclude_extensions self) (self_internet_scraping self) (self_save self)
        (self_older_time self) (self_threshold_distance self)
        (self_threshold_string_match self) (self_company_name self)
        (self_company_name_small self) (self_kvk_nr self) (self_postcodes self)
        i_web web st = Returns st' ->
      P (S i_web) st') ->
  collect_web_sites_with lib self websites table = Returns c ->
  P (List.length websites) (collected_state c).
Proof.
  intros Hstart Hstep Hc. unfold collect_web_sites_with in Hc.
  apply collect_web_sites_inv in Hc as (Hrun & _ & _).
  eapply (collect_from_invariant _ _ _ _ _ _ _ _ _ _ _ _ _ _ _ _ _ _ _ _ _ _ _ _
            (fun i st => loop_shape websites i st /\ P i st) websites)
    with (i_web := 0%nat) (st := collection_start websites table); [|lia| |exact Hrun].
  - intros i_web web st st' Hw [Hshape HP] Hturn. split.
    + by eapply loop_shape_step.
    + by eapply Hstep.
  - split; [apply loop_shape_start|done].
Qed.

(** X4.  Every page that [collect_web_sites] fetches is the page of a
    candidate that passed the filters: scraping is switched on, the URL is
    that of the candidate at the position of the fetch, it is on the list
    of [filter_urls] (if there is one) and its suffix is not excluded; the
    registry row that the fetch sees carries the time of that turn.  No
    candidate is fetched twice. *)
Theorem collect_fetches (lib : library) (self : attributes)
    (websites : list Website.row) (table : gmap string UrlNL.row) (c : collected)
    (H : collect_web_sites_with lib self websites table = Returns c) :
  (forall j u row, In (j, u, row) (Collection.fetched (collected_state c)) ->
     self_internet_scraping self = true
     /\ (exists web, websites !! j = Some web /\ Website.url web = Some u)
     /\ filtered_out (self_filter_urls self) u = false
     /\ (suffix (lib_tldextract_extract lib u) ∉ self_exclude_extensions self)
     /\ UrlNL.datetime row = Some (lib_now lib j))
  /\ NoDup (map (fun f => f.1.1) (Collection.fetched (collected_state c))).
Proof.
  pose proof (collect_web_sites_invariant_at lib self
    (fun i st =>
       (forall j u row, In (j, u, row) (Collection.fetched st) ->
          (j < i)%nat
          /\ self_internet_scraping self = true
          /\ (exists web, websites !! j = Some web /\ Website.url web = Some u)
          /\ filtered_out (self_filter_urls self) u = false
          /\ (suffix (lib_tldextract_extract lib u) ∉ self_exclude_extensions self)
          /\ UrlNL.datetime row = Some (lib_now lib j))
       /\ NoDup (map (fun f => f.1.1) (Collection.fetched st)))
    websites table c) as Hinv.
  destruct Hinv as [Hall Hnd]; [| |exact H|].
  - split; [by intros ? ? ? []|]. simpl. constructor.
  - intros i_web web st st' Hw Hshape [Hall Hnd] Hturn.
    pose proof (fetches_step _ _ _ _ _ _ _ _ _ _ _ _ _ _ _ _ _ _ _ _ _ _ _ _
                  websites i_web web st st' Hw Hturn) as Hnew.
    split.
    + intros j u row Hin. destruct (Hnew _ _ _ Hin) as [Hold|(-> & Hu & ? & ? & _ & ? & ? & _)].
      * destruct (Hall _ _ _ Hold) as (? & ?). split; [lia|done].
      * split_and!; try done; [lia|by exists web].
    + destruct (collect_candidate_inv _ _ _ _ _ _ _ _ _ _ _ _ _ _ _ _ _ _ _ _ _ _ _ _
                  _ _ _ _ Hturn) as (url & Hu & [[-> _]|Hrest]); [done|].
      destruct Hrest as (_ & _ & url_nl & _ & Hcase).
      assert (Hfetched : Collection.fetched st'
                = Collection.fetched st
                  ++ map (fun f => (i_web, f.1, f.2))
                       (analysed_fetches
                          (update_and_scrape (lib_unicode lib) (lib_UrlSearchStrings lib)
                             (lib_tldextract_extract lib) (lib_SOCIAL_MEDIA lib)
                             (lib_PAY_OPTIONS lib) (lib_paste_strings lib)
                             (self_older_time self) (lib_now lib i_web)
                             (self_internet_scraping self) (self_company_name self)
                             url (lib_tldextract_extract lib url) web url_nl))).
      { by destruct Hcase as [(an & _ & _ & ->)
                             |(an0 & m & d & s & an & _ & _ & _ & _ & _ & _ & ->)]. }
      rewrite Hfetched.
      destruct (update_and_scrape_fetches (lib_unicode lib) (lib_tldextract_extract lib)
                  (lib_UrlSearchStrings lib) (lib_SOCIAL_MEDIA lib) (lib_PAY_OPTIONS lib)
                  (lib_paste_strings lib) (lib_now lib) (self_internet_scraping self)
                  (self_older_time self) (self_company_name self) i_web url web url_nl)
        as [->|(row' & -> & _)].
      * simpl. by rewrite app_nil_r.
      * simpl. rewrite map_app. simpl. apply NoDup_app. split_and!; [done| |].
        -- intros k Hk Hk'. apply list_elem_of_In in Hk. apply in_map_iff in Hk as ([[j u] row] & <- & Hin).
           destruct (Hall _ _ _ Hin) as [Hlt _]. simpl in Hk'.
           apply list_elem_of_In in Hk'. destruct Hk' as [<-|[]]. simpl in Hlt. lia.
        -- apply NoDup_singleton.
  - split; [|done]. intros j u row Hin. by destruct (Hall _ _ _ Hin) as (_ & ?).
Qed.

Lemma collect_fetches_witness :
  (forall j u row,
     In (j, u, row) (Collection.fetched (collected_state (shop_collected true))) ->
     self_internet_scraping (shop_attributes true true) = true
     /\ (exists web, shop_websites !! j = Some web /\ Website.url web = Some u)
     /\ filtered_out (self_filter_urls (shop_attributes true true)) u = false
     /\ (suffix (lib_tldextract_extract shop_library u)
         ∉ self_exclude_extensions (shop_attributes true true))
     /\ UrlNL.datetime row = Some (lib_now shop_library j))
  /\ NoDup (map (fun f => f.1.1)
              (Collection.fetched (collected_state (shop_collected true)))).
Proof.
  apply (collect_fetches shop_library (shop_attributes true true) shop_websites
           shop_registry (shop_collected true)).
  vm_compute. reflexivity.
Defined.

(** The registry never loses a row; which rows can change. *)
Lemma collect_web_sites_registry (lib : library) (self : attributes)
    (websites : list Website.row) (table : gmap string UrlNL.row) (c : collected)
    (H : collect_web_sites_with lib self websites table = Returns c) :
  (forall k row, table !! k = Some row ->
     is_Some (Collection.url_nl (collected_state c) !! k)
     /\ (self_save self = false
         \/ (forall j r, Collection.web_df (collected_state c) !! j = Some r ->
                         WebDf.url r <> Some k) ->
         Collection.url_nl (collected_state c) !! k = Some row))
  /\ (forall k, is_Some (Collection.url_nl (collected_state c) !! k) ->
        is_Some (table !! k)
        \/ exists web url scrape_url external_url,
             In web websites /\ Website.url web = Some url
             /\ In (Some external_url)
                   (UrlSearch.external_hrefs (lib_UrlSearchStrings lib url scrape_url))
             /\ k = lib_get_clean_url lib external_url).
Proof.
  unfold collect_web_sites_with in H.
  eapply (collect_web_sites_invariant _ _ _ _ _ _ _ _ _ _ _ _ _ _ _ _ _ _ _ _ _ _ _ _
    (fun st =>
       (forall k row, table !! k = Some row ->
          is_Some (Collection.url_nl st !! k)
          /\ (self_save self = false
              \/ (forall j r, Collection.web_df st !! j = Some r -> WebDf.url r <> Some k) ->
              Collection.url_nl st !! k = Some row))
       /\ (forall k, is_Some (Collection.url_nl st !! k) ->
             is_Some (table !! k)
             \/ exists web url scrape_url external_url,
                  In web websites /\ Website.url web = Some url
                  /\ In (Some external_url)
                        (UrlSearch.external_hrefs
                           (lib_UrlSearchStrings lib url scrape_url))
                  /\ k = lib_get_clean_url lib external_url))) in H.
  - by destruct H as [_ ?].
  - simpl. split; [|by left]. intros k row Hk. split; [by eexists|done].
  - intros i_web web st st' Hw Hshape [Hold Hnew] Hturn.
    edestruct registry_step as [Hkeep Hkeys]; [exact Hw|exact Hshape|exact Hturn|].
    split.
    + intros k row Hk. destruct (Hold _ _ Hk) as [[row1 Hrow1] Hsame].
      destruct (Hkeep _ _ Hrow1) as [Hsome _]. split; [done|].
      intros Hcond.
      assert (Collection.url_nl st !! k = Some row) as Hst.
      { apply Hsame. destruct Hcond as [?|Hcond]; [by left|right].
        intros j r Hr Hu.
        edestruct frame_urls_step as (r' & Hr' & Hu');
          [exact Hw|exact Hshape|exact Hturn|exact Hr|exact Hu|].
        by eapply Hcond. }
      by apply (Hkeep _ _ Hst).
    + intros k Hk.
      destruct (Hkeys _ Hk) as [Hk'|(url & b & e & Hu & He & ->)]; [by apply Hnew|].
      right. exists web, url, b, e. split_and!; try done.
      apply list_elem_of_In. by eapply list_elem_of_lookup_2.
Qed.

(** X5.  The registry under [collect_web_sites]: no row is ever lost; a
    row that was there at the start is still the same at the end unless
    [save] is set and a candidate with that URL was scored (so the rows of
    candidates that were passed over, or whose page does not exist, are
    never written, not even their new timestamp); and every key that is
    new is the cleaned form of an outbound link of the page of one of the
    candidates of the company. *)
Theorem collect_registry (lib : library) (self : attributes)
    (websites : list Website.row) (table : gmap string UrlNL.row) (c : collected)
    (H : collect_web_sites_with lib self websites table = Returns c) :
  (forall k row, table !! k = Some row ->
     is_Some (Collection.url_nl (collected_state c) !! k)
     /\ (self_save self = false
         \/ (forall j r, Collection.web_df (collected_state c) !! j = Some r ->
                         WebDf.url r <> Some k) ->
         Collection.url_nl (collected_state c) !! k = Some row))
  /\ (forall k, is_Some (Collection.url_nl (collected_state c) !! k) ->
        is_Some (table !! k)
        \/ exists web url scrape_url external_url,
             In web websites /\ Website.url web = Some url
             /\ In (Some external_url)
                   (UrlSearch.external_hrefs (lib_UrlSearchStrings lib url scrape_url))
             /\ k = lib_get_clean_url lib external_url).
Proof.
  unfold collect_web_sites_with in H.
  eapply (collect_web_sites_invariant _ _ _ _ _ _ _ _ _ _ _ _ _ _ _ _ _ _ _ _ _ _ _ _
    (fun st =>
       (forall k row, table !! k = Some row ->
          is_Some (Collection.url_nl st !! k)
          /\ (self_save self = false
              \/ (forall j r, Collection.web_df st !! j = Some r -> WebDf.url r <> Some k) ->
              Collection.url_nl st !! k = Some row))
       /\ (forall k, is_Some (Collection.url_nl st !! k) ->
             is_Some (table !! k)
             \/ exists web url scrape_url external_url,
                  In web websites /\ Website.url web = Some url
                  /\ In (Some external_url)
                        (UrlSearch.external_hrefs
                           (lib_UrlSearchStrings lib url scrape_url))
                  /\ k = lib_get_clean_url lib external_url))) in H.
  - by destruct H as [_ ?].
  - simpl. split; [|by left]. intros k row Hk. split; [by eexists|done].
  - intros i_web web st st' Hw Hshape [Hold Hnew] Hturn.
    edestruct registry_step as [Hkeep Hkeys]; [exact Hw|exact Hshape|exact Hturn|].
    split.
    + intros k row Hk. destruct (Hold _ _ Hk) as [[row1 Hrow1] Hsame].
      destruct (Hkeep _ _ Hrow1) as [Hsome _]. split; [done|].
      intros Hcond.
      assert (Collection.url_nl st !! k = Some row) as Hst.
      { apply Hsame. destruct Hcond as [?|Hcond]; [by left|right].
        intros j r Hr Hu.
        edestruct frame_urls_step as (r' & Hr' & Hu');
          [exact Hw|exact Hshape|exact Hturn|exact Hr|exact Hu|].
        by eapply Hcond. }
      by apply (Hkeep _ _ Hst).
    + intros k Hk.
      destruct (Hkeys _ Hk) as [Hk'|(url & b & e & Hu & He & ->)]; [by apply Hnew|].
      right. exists web, url, b, e. split_and!; try done.
      apply list_elem_of_In. by eapply list_elem_of_lookup_2.
Qed.

Lemma collect_registry_witness :
  (forall k row, shop_registry !! k = Some row ->
     is_Some (Collection.url_nl (collected_state (shop_collected true)) !! k)
     /\ (self_save (shop_attributes true true) = false
         \/ (forall j r,
               Collection.web_df (collected_state (shop_collected true)) !! j = Some r ->
               WebDf.url r <> Some k) ->
         Collection.url_nl (collected_state (shop_collected true)) !! k = Some row))
  /\ (forall k, is_Some (Collection.url_nl (collected_state (shop_collected true)) !! k) ->
        is_Some (shop_registry !! k)
        \/ exists web url scrape_url external_url,
             In web shop_websites /\ Website.url web = Some url
             /\ In (Some external_url)
                   (UrlSearch.external_hrefs
                      (lib_UrlSearchStrings shop_library url scrape_url))
             /\ k = lib_get_clean_url shop_library external_url).
Proof.
  apply (collect_registry shop_library (shop_attributes true true) shop_websites
           shop_registry (shop_collected true)).
  vm_compute. reflexivity.
Defined.

(** X6.  Without [save], [collect_web_sites] writes no Website object and
    no registry row of a candidate; the only thing it still writes to the
    store are the new registry rows of outbound links. *)
Theorem collect_without_save (lib : library) (self : attributes)
    (websites : list Website.row) (table : gmap string UrlNL.row) (c : collected)
    (H : collect_web_sites_with lib self websites table = Returns c)
    (Hsave : self_save self = false) :
  Forall (fun e => exists u, e = CreateUrlNL u) (Collection.stored (collected_state c)).
Proof.
  apply List.Forall_forall.
  unfold collect_web_sites_with in H.
  eapply (collect_web_sites_invariant _ _ _ _ _ _ _ _ _ _ _ _ _ _ _ _ _ _ _ _ _ _ _ _
    (fun st => forall e, In e (Collection.stored st) -> exists u, e = CreateUrlNL u)) in H.
  - by destruct H as [_ ?].
  - by intros e [].
  - intros i_web web st st' Hw Hshape Hold Hturn.
    edestruct stored_step as (written & Hst & Hcreate); [exact Hw|exact Hturn|].
    rewrite Hst. intros e He. apply in_app_iff in He as [He|He]; [by apply Hold|].
    by apply Hcreate.
Qed.

Lemma collect_without_save_witness :
  Forall (fun e => exists u, e = CreateUrlNL u)
    (Collection.stored (collected_state (shop_collected false))).
Proof.
  apply (collect_without_save shop_library (shop_attributes true false) shop_websites
           shop_registry (shop_collected false)).
  - vm_compute. reflexivity.
  - reflexivity.
Defined.

(** X7.  With [internet_scraping] switched off [collect_web_sites] scores
    nothing.  If every candidate is passed over (its URL is not on the
    list of [filter_urls], its suffix is excluded, or the registry does not
    know it) the call returns with nothing changed and without a frame.  As
    soon as one candidate is not passed over, the call fails with an
    [AttributeError]: the ranking is made without a page analysis; by then
    nothing was fetched, saved or created. *)
Theorem collect_without_scraping (lib : library) (self : attributes)
    (websites : list Website.row) (table : gmap string UrlNL.row)
    (Hoff : self_internet_scraping self = false) :
  (Forall (fun web =>
             exists url, Website.url web = Some url
               /\ (filtered_out (self_filter_urls self) url = true
                   \/ suffix (lib_tldextract_extract lib url)
                      ∈ self_exclude_extensions self
                   \/ table !! url = None))
          websites ->
   collect_web_sites_with lib self websites table
   = Returns {| collected_state := collection_start websites table;
                collected_web_df := None; collected_warning := false |})
  /\ (Exists (fun web =>
                ~ exists url, Website.url web = Some url
                    /\ (filtered_out (self_filter_urls self) url = true
                        \/ suffix (lib_tldextract_extract lib url)
                           ∈ self_exclude_extensions self
                        \/ table !! url = None))
             websites ->
      exists st,
        collect_web_sites_with lib self websites table = Raises st AttributeError
        /\ Collection.url_nl st = table
        /\ Collection.stored st = []
        /\ Collection.fetched st = []).
Proof.
  set (passed := fun web : Website.row =>
         exists url, Website.url web = Some url
           /\ (filtered_out (self_filter_urls self) url = true
               \/ suffix (lib_tldextract_extract lib url) ∈ self_exclude_extensions self
               \/ table !! url = None)).
  set (start := collection_start websites table).
  set (turn := collect_candidate (lib_unicode lib) (lib_standard_postcode lib) (lib_int lib)
               (lib_Levenshtein_distance lib) (lib_SequenceMatcher_ratio lib)
               (lib_tldextract_extract lib) (lib_UrlSearchStrings lib)
               (lib_SOCIAL_MEDIA lib) (lib_PAY_OPTIONS lib) (lib_paste_strings lib)
               (lib_format_08d lib) (lib_get_clean_url lib) (lib_now lib)
               (self_filter_urls self) (self_exclude_extensions self)
               (self_internet_scraping self) (self_save self) (self_older_time self)
               (self_threshold_distance self) (self_threshold_string_match self)
               (self_company_name self) (self_company_name_small self)
               (self_kvk_nr self) (self_postcodes self)).
  assert (Hturn : forall i_web web,
            (passed web /\ turn i_web web start = Returns start)
            \/ (~ passed web /\
                exists st, turn i_web web start = Raises st AttributeError
                           /\ Collection.url_nl st = table
                           /\ Collection.stored st = []
                           /\ Collection.fetched st = [])).
  { intros i_web web. unfold turn.
    edestruct turn_without_scraping as [[Hok Hp]|[(st & Hraise & H1 & H2 & H3 & _) Hn]];
      [exact Hoff| |].
    - left. split; [|exact Hok]. exact Hp.
    - right. split.
      + intros (url & Hu & Hskip).
        destruct (Hn _ Hu) as (Hf & Hs & [row Hrow]).
        change (Collection.url_nl start) with table in Hrow.
        destruct Hskip as [?|[?|?]]; congruence.
      + exists st. split; [exact Hraise|]. by rewrite H1, H2, H3. }
  unfold collect_web_sites_with, collect_web_sites. fold start. fold passed.
  generalize 0%nat. generalize websites as todo. intros todo n.
  split.
  - intros Hall. induction Hall as [|web todo Hweb Hall IH] in n |- *; [done|].
    simpl. fold turn. destruct (Hturn n web) as [[_ ->]|[Hn _]]; [|done].
    simpl in IH. by rewrite IH.
  - intros Hex. induction Hex as [web todo Hweb|web todo Hex IH] in n |- *; simpl;
      fold turn.
    + destruct (Hturn n web) as [[Hp _]|[_ (st & -> & Hst)]]; [done|]. by exists st.
    + destruct (Hturn n web) as [[_ ->]|[_ (st & -> & Hst)]]; [|by exists st].
      destruct (IH (S n)) as (st & Hrun & Hst). exists st. split; [|done].
      destruct (collect_from _ _ _ _ _ _ _ _ _ _ _ _ _ _ _ _ _ _ _ _ _ _ _ _ _ _ _)
        as [st1|st1 e]; [done|]. by injection Hrun as -> ->.
Qed.

Lemma collect_without_scraping_witness :
  exists st,
    collect_web_sites_with shop_library (shop_attributes false true) shop_websites
      shop_registry = Raises st AttributeError
    /\ Collection.url_nl st = shop_registry
    /\ Collection.stored st = []
    /\ Collection.fetched st = [].
Proof.
  apply (collect_without_scraping shop_library (shop_attributes false true)
           shop_websites shop_registry); [reflexivity|].
  apply Exists_cons_hd. intros (url & Hurl & Hskip). injection Hurl as <-.
  destruct Hskip as [Hf|[Hs|Ht]].
  - vm_compute in Hf. discriminate.
  - revert Hs. vm_compute. by apply (bool_decide_unpack (_ ∉ _)).
  - vm_compute in Ht. discriminate.
Defined.

(** * From a company to its match *)

Lemma UrlCollection_inv (lib : library) websites address company_name kvk_nr
    threshold_distance threshold_string_match impose_url internet_scraping save table
    older_time exclude_extensions filter_urls uc :
  UrlCollection_with lib websites address company_name kvk_nr threshold_distance
    threshold_string_match impose_url internet_scraping save table older_time
    exclude_extensions filter_urls = Returns uc ->
  exists c,
    collect_web_sites_with lib
      (attributes_of lib address company_name kvk_nr threshold_distance
         threshold_string_match internet_scraping save older_time exclude_extensions
         filter_urls) websites table = Returns c
    /\ collection_state uc = collected_state c
    /\ reduce_web_df impose_url threshold_distance threshold_string_match
         (collected_web_df c) = Ok (collection_web_df uc).
Proof.
  unfold UrlCollection_with, UrlCollection.
  change (collect_web_sites _ _ _ _ _ _ _ _ _ _ _ _ _ _ _ _ _ _ _ _ _ _ _ _ websites table)
    with (collect_web_sites_with lib
            (attributes_of lib address company_name kvk_nr threshold_distance
               threshold_string_match internet_scraping save older_time
               exclude_extensions filter_urls) websites table).
  destruct (collect_web_sites_with _ _ _ _) as [c|e]; [|done]. simpl.
  destruct (reduce_web_df _ _ _ _) as [web_df|e] eqn:Hred; [|done]. simpl.
  intros [= <-]. by exists c.
Qed.

Lemma CompanyUrlMatch_inv (lib : library) company websites address imposed_urls
    distance_threshold string_match_threshold save i_proc internet_scraping table
    older_time exclude_extension filter_urls cm :
  CompanyUrlMatch_with lib company websites address imposed_urls distance_threshold
    string_match_threshold save i_proc internet_scraping table older_time
    exclude_extension filter_urls = Returns cm ->
  exists imposed,
    imposed_urls = Some imposed
    /\ UrlCollection_with lib websites address (Company.naam company)
         (Company.kvk_nummer company) distance_threshold string_match_threshold
         (imposed !! Company.kvk_nummer company) internet_scraping save table older_time
         exclude_extension filter_urls = Returns (match_collection cm)
    /\ match_result_ cm
       = find_match_for_company save i_proc (lib_now_match lib)
           (collection_web_df (match_collection cm)) company
           (Collection.company_websites (collection_state (match_collection cm)))
    /\ after_end (match_result_ cm) = Ok ().
Proof.
  unfold CompanyUrlMatch_with, CompanyUrlMatch.
  destruct imposed_urls as [imposed|]; [|done].
  fold (UrlCollection_with lib).
  destruct (UrlCollection_with _ _ _ _ _ _ _ _ _ _ _ _ _ _) as [uc|e] eqn:Huc; [|done].
  simpl.
  destruct (after_end _) as [[]|e] eqn:Hend; [|done]. simpl.
  intros [= <-]. exists imposed. by simpl.
Qed.


(** A row that has a URL, or a page that exists, is the row of a scored
    candidate. *)
Lemma frame_row_scored (lib : library) (self : attributes) websites j r :
  frame_row_with lib self websites j r ->
  is_Some (WebDf.url r) \/ WebDf.exists_ r = Some true ->
  exists web url,
    websites !! j = Some web /\ Website.url web = Some url
    /\ WebDf.url r = Some url /\ WebDf.exists_ r = Some true
    /\ is_Some (WebDf.distance r).
Proof.
  intros [->|[->|(web & url & an & m & Hw & Hu & Hex & Hm & ->)]] Hr.
  - destruct Hr as [[? ?]|?]; done.
  - destruct Hr as [[? ?]|?]; done.
  - exists web, url. split_and!; try done. simpl.
    apply UrlCompanyRanking_made in Hm as (_ & -> & _). by eexists.
Qed.

(** The rows that are left at the end of [UrlCollection.__init__] are rows
    of scored candidates. *)
Lemma reduced_rows_scored (lib : library) (self : attributes) websites table c
    impose_url threshold_distance threshold_string_match web_df r :
  collect_web_sites_with lib self websites table = Returns c ->
  reduce_web_df impose_url threshold_distance threshold_string_match
    (collected_web_df c) = Ok (Some web_df) ->
  In r web_df ->
  exists web url,
    websites !! WebDf.index r = Some web /\ Website.url web = Some url
    /\ WebDf.url r = Some url /\ WebDf.exists_ r = Some true
    /\ is_Some (WebDf.distance r).
Proof.
  intros Hc Hred Hin.
  destruct (collect_web_sites_frame _ _ _ _ _ Hc) as (_ & _ & _ & Hrows).
  pose proof Hc as Hc'. unfold collect_web_sites_with in Hc'.
  apply collect_web_sites_inv in Hc' as (_ & Hdf & _).
  assert (In r (Collection.web_df (collected_state c))
          /\ (is_Some (WebDf.url r) \/ WebDf.exists_ r = Some true)) as [Hframe Hkind].
  { unfold reduce_web_df in Hred. rewrite Hdf in Hred.
    destruct (Collection.min_distance (collected_state c)) as [md|].
    2:{ destruct impose_url as [u|]; [destruct (String.eqb u "")|]; done. }
    assert (forall df, get_best_matching_web_site threshold_distance
              threshold_string_match (Collection.web_df (collected_state c)) = df ->
              In r df ->
              In r (Collection.web_df (collected_state c))
              /\ (is_Some (WebDf.url r) \/ WebDf.exists_ r = Some true)) as Hbest.
    { intros df <- Hr. apply shortlist_In in Hr as [Hr Hmask]. split; [done|right].
      unfold shortlist_mask in Hmask. apply andb_true_iff in Hmask as [Hex _].
      by apply holds_true. }
    destruct impose_url as [u|]; [destruct (String.eqb u "")|]; simpl in Hred.
    - injection Hred as Hred. by eapply Hbest.
    - injection Hred as <-. apply filter_In in Hin as [Hin Hu].
      apply bool_decide_eq_true in Hu. split; [done|]. left. by eexists.
    - injection Hred as Hred. by eapply Hbest. }
  apply In_lookup in Hframe as [j Hj]. destruct (Hrows _ _ Hj) as [Hidx Hrow].
  rewrite Hidx. by eapply frame_row_scored.
Qed.

(** X8.  When [CompanyUrlMatch] returns and the collection has a frame,
    the frame is not empty and the URL given to the company is the URL of
    one of its own candidates, the one at the position that the first row of
    the frame names: that candidate was scored on a page that exists, its
    Website object is flagged as the best match, no other Website object is
    changed by the match, and the company gets the worker number, the
    ranking of that row and the time of the match.  Without a frame the
    company is left as it was. *)
Theorem match_takes_candidate_url (lib : library) (company : Company.row)
    (websites : list Website.row) (address : list string)
    (imposed_urls : option (gmap Z string)) (distance_threshold : option Z)
    (string_match_threshold : option Q) (save : bool) (i_proc : option Z)
    (internet_scraping : bool) (table : gmap string UrlNL.row) (older_time : option Z)
    (exclude_extension : gset string) (filter_urls : option (list string))
    (cm : company_match)
    (H : CompanyUrlMatch_with lib company websites address imposed_urls
           distance_threshold string_match_threshold save i_proc internet_scraping
           table older_time exclude_extension filter_urls = Returns cm) :
  match collection_web_df (match_collection cm) with
  | None => after_company (match_result_ cm) = company
  | Some web_df =>
      exists best rest web url,
        web_df = best :: rest
        /\ websites !! WebDf.index best = Some web
        /\ Website.url web = Some url
        /\ WebDf.url best = Some url
        /\ WebDf.exists_ best = Some true
        /\ Company.url (after_company (match_result_ cm)) = Some url
        /\ Company.core_id (after_company (match_result_ cm)) = i_proc
        /\ Company.ranking (after_company (match_result_ cm)) = WebDf.ranking best
        /\ Company.datetime (after_company (match_result_ cm)) = Some (lib_now_match lib)
        /\ (exists w, after_websites (match_result_ cm) !! WebDf.index best = Some w
                      /\ Website.best_match w = Some true
                      /\ Website.url w = Some url)
        /\ (forall k, k <> WebDf.index best ->
              after_websites (match_result_ cm) !! k
              = Collection.company_websites
                  (collection_state (match_collection cm)) !! k)
  end.
Proof.
  apply CompanyUrlMatch_inv in H as (imposed & -> & Huc & Hres & Hend).
  apply UrlCollection_inv in Huc as (c & Hc & Hst & Hred).
  destruct (collect_web_sites_frame _ _ _ _ _ Hc) as (Hlen & _ & _ & _).
  rewrite Hres in *. clear Hres.
  destruct (collection_web_df (match_collection cm)) as [web_df|]; [|done].
  destruct web_df as [|best rest]; [done|].
  destruct (reduced_rows_scored _ _ _ _ _ _ _ _ _ best Hc Hred)
    as (web & url & Hw & Hu & Hbu & Hbe & _); [by left|].
  exists best, rest, web, url.
  assert (is_Some (Collection.company_websites (collection_state (match_collection cm))
                   !! WebDf.index best)) as [w Hlook].
  { apply lookup_lt_is_Some. rewrite Hst, Hlen. by eapply lookup_lt_Some. }
  unfold find_match_for_company. rewrite Hlook. simpl.
  split_and!; try done.
  - exists (best_match_of best w). split_and!; try done.
    rewrite list_lookup_insert, decide_True; [done|]. split; [done|].
    by eapply lookup_lt_Some.
  - intros k Hk. by rewrite list_lookup_insert_ne.
Qed.

Lemma column_min_start websites table :
  column_min (Collection.web_df (collection_start websites table)) = None.
Proof.
  simpl. generalize 0%nat. induction (List.length websites) as [|n IH]; [done|].
  intros k. simpl. unfold column_min. simpl. apply IH.
Qed.

Lemma collect_web_sites_min (lib : library) (self : attributes) websites table c :
  collect_web_sites_with lib self websites table = Returns c ->
  Collection.min_distance (collected_state c)
  = column_min (Collection.web_df (collected_state c)).
Proof.
  intros H. unfold collect_web_sites_with in H.
  eapply (collect_web_sites_invariant _ _ _ _ _ _ _ _ _ _ _ _ _ _ _ _ _ _ _ _ _ _ _ _
    (fun st => Collection.min_distance st = column_min (Collection.web_df st))) in H.
  - by destruct H as [_ ?].
  - by rewrite column_min_start.
  - intros i_web web st st' Hw Hshape Hmin Hturn.
    eapply min_distance_step; [exact Hw|exact Hshape|exact Hmin|exact Hturn].
Qed.

(** With a distance threshold that is not negative, the row with the least
    distance is on the shortlist of the frame that [collect_web_sites]
    leaves. *)
Lemma shortlist_not_empty (lib : library) (self : attributes) websites table c
    threshold threshold_string_match web_df :
  collect_web_sites_with lib self websites table = Returns c ->
  collected_web_df c = Some web_df -> 0 <= threshold ->
  exists r m,
    In r (get_best_matching_web_site (Some threshold) threshold_string_match web_df)
    /\ column_min web_df = Some m /\ WebDf.distance r = Some m.
Proof.
  intros Hc Hdf Ht.
  destruct (collect_web_sites_frame _ _ _ _ _ Hc) as (_ & _ & _ & Hrows).
  pose proof (collect_web_sites_min _ _ _ _ _ Hc) as Hmin.
  pose proof Hc as Hc'. unfold collect_web_sites_with in Hc'.
  apply collect_web_sites_inv in Hc' as (_ & Hdf' & _). rewrite Hdf in Hdf'.
  destruct (Collection.min_distance (collected_state c)) as [m|]; [|done].
  injection Hdf' as ->. symmetry in Hmin.
  destruct (proj1 (column_min_spec _ _) Hmin) as [(r & Hr & Hd) _].
  exists r, m. split_and!; [|done..].
  unfold get_best_matching_web_site. apply sort_by_In, filter_In. split; [done|].
  apply In_lookup in Hr as [j Hj]. destruct (Hrows _ _ Hj) as [_ Hrow].
  destruct (frame_row_scored _ _ _ _ _ Hrow) as (_ & _ & _ & _ & _ & Hex & _).
  { right. destruct Hrow as [->|[->|(? & ? & ? & ? & _ & _ & _ & _ & ->)]]; done. }
  unfold shortlist_mask, distance_mask. rewrite Hex, Hd, Hmin. simpl.
  replace (m - m) with 0 by lia. by rewrite (proj2 (Z.leb_le 0 threshold) Ht).
Qed.

(** X9.  With a distance threshold that is not negative and no URL imposed
    on the company, a collection that succeeds always gives a match: the
    shortlist of a frame is never empty, because the candidate with the
    least distance is on it, so that [CompanyUrlMatch] returns, and whenever
    a candidate was scored the company gets the worker number and a URL. *)
Theorem nonnegative_threshold_always_matches (lib : library) (company : Company.row)
    (websites : list Website.row) (address : list string) (imposed : gmap Z string)
    (threshold : Z) (string_match_threshold : option Q) (save : bool)
    (i_proc : option Z) (internet_scraping : bool) (table : gmap string UrlNL.row)
    (older_time : option Z) (exclude_extension : gset string)
    (filter_urls : option (list string)) (uc : url_collection)
    (Hthreshold : 0 <= threshold)
    (Himposed : imposed !! Company.kvk_nummer company = None)
    (H : UrlCollection_with lib websites address (Company.naam company)
           (Company.kvk_nummer company) (Some threshold) string_match_threshold None
           internet_scraping save table older_time exclude_extension filter_urls
         = Returns uc) :
  exists cm,
    CompanyUrlMatch_with lib company websites address (Some imposed) (Some threshold)
      string_match_threshold save i_proc internet_scraping table older_time
      exclude_extension filter_urls = Returns cm
    /\ match_collection cm = uc
    /\ forall web_df, collection_web_df uc = Some web_df ->
         web_df <> []
         /\ (exists r m, In r web_df
                         /\ column_min (Collection.web_df (collection_state uc)) = Some m
                         /\ WebDf.distance r = Some m)
         /\ Company.core_id (after_company (match_result_ cm)) = i_proc
         /\ is_Some (Company.url (after_company (match_result_ cm))).
Proof.
  pose proof H as Huc. apply UrlCollection_inv in Huc as (c & Hc & Hst & Hred).
  destruct (collect_web_sites_frame _ _ _ _ _ Hc) as (Hlen & _ & _ & _).
  assert (Hframe : forall web_df, collection_web_df uc = Some web_df ->
            exists best rest web url w r m,
              web_df = best :: rest
              /\ websites !! WebDf.index best = Some web
              /\ WebDf.url best = Some url
              /\ Collection.company_websites (collection_state uc) !! WebDf.index best
                 = Some w
              /\ In r web_df
              /\ column_min (Collection.web_df (collection_state uc)) = Some m
              /\ WebDf.distance r = Some m).
  { intros web_df Hdf. rewrite Hdf in Hred.
    assert (exists frame, collected_web_df c = Some frame
              /\ web_df = get_best_matching_web_site (Some threshold)
                            string_match_threshold frame) as (frame & Hframe & Hbest).
    { simpl in Hred. destruct (collected_web_df c) as [frame|]; [|done].
      injection Hred as <-. by exists frame. }
    destruct (shortlist_not_empty _ _ _ _ _ _ string_match_threshold _ Hc Hframe Hthreshold)
      as (r & m & Hr & Hm & Hd).
    rewrite <- Hbest in Hr.
    destruct web_df as [|best rest]; [done|].
    destruct (reduced_rows_scored _ _ _ _ _ _ _ _ _ best Hc Hred)
      as (web & url & Hw & Hu & Hbu & _); [by left|].
    assert (is_Some (Collection.company_websites (collection_state uc)
                     !! WebDf.index best)) as [w Hlook].
    { apply lookup_lt_is_Some. rewrite Hst, Hlen. by eapply lookup_lt_Some. }
    exists best, rest, web, url, w, r, m. split_and!; try done.
    pose proof Hc as Hc'. unfold collect_web_sites_with in Hc'.
    apply collect_web_sites_inv in Hc' as (_ & Hdf' & _). rewrite Hframe in Hdf'.
    destruct (Collection.min_distance (collected_state c)); [|done].
    injection Hdf' as ->. by rewrite Hst. }
  unfold CompanyUrlMatch_with, CompanyUrlMatch. fold (UrlCollection_with lib).
  rewrite Himposed, H. simpl.
  destruct (collection_web_df uc) as [web_df|] eqn:Hdf.
  - destruct (Hframe _ eq_refl)
      as (best & rest & web & url & w & r & m & -> & Hw & Hbu & Hlook & Hr & Hm & Hd).
    unfold find_match_for_company. rewrite Hlook. simpl. eexists. split_and!; [done..|].
    intros ? [= <-]. simpl.
    split_and!; try done; first [by exists r, m|rewrite Hbu; by eexists].
  - simpl. eexists. split_and!; [done..|]. by intros ? [=].
Qed.

(** X10.  When a URL is imposed on a company, the thresholds play no
    part: the rows that are left are the rows of the frame with that URL,
    in the order of the candidates, and when [CompanyUrlMatch] returns the
    company has the imposed URL, which is the URL of one of its candidates.
    (So the match fails when the imposed URL is not the URL of a scored
    candidate.) *)
Theorem imposed_url_is_taken (lib : library) (company : Company.row)
    (websites : list Website.row) (address : list string) (imposed : gmap Z string)
    (u : string) (distance_threshold : option Z) (string_match_threshold : option Q)
    (save : bool) (i_proc : option Z) (internet_scraping : bool)
    (table : gmap string UrlNL.row) (older_time : option Z)
    (exclude_extension : gset string) (filter_urls : option (list string))
    (cm : company_match)
    (Himposed : imposed !! Company.kvk_nummer company = Some u)
    (Hu : u <> ""%string)
    (H : CompanyUrlMatch_with lib company websites address (Some imposed)
           distance_threshold string_match_threshold save i_proc internet_scraping
           table older_time exclude_extension filter_urls = Returns cm) :
  Company.url (after_company (match_result_ cm)) = Some u
  /\ Company.core_id (after_company (match_result_ cm)) = i_proc
  /\ (exists j web, websites !! j = Some web /\ Website.url web = Some u)
  /\ collection_web_df (match_collection cm)
     = Some (List.filter (fun r => bool_decide (WebDf.url r = Some u))
               (Collection.web_df (collection_state (match_collection cm)))).
Proof.
  apply CompanyUrlMatch_inv in H as (imposed' & [= <-] & Huc & Hres & Hend).
  rewrite Himposed in Huc.
  apply UrlCollection_inv in Huc as (c & Hc & Hst & Hred).
  destruct (collect_web_sites_frame _ _ _ _ _ Hc) as (Hlen & _ & _ & _).
  assert (collection_web_df (match_collection cm)
          = Some (List.filter (fun r => bool_decide (WebDf.url r = Some u))
                    (Collection.web_df (collection_state (match_collection cm)))))
    as Hdf.
  { pose proof Hc as Hc'. unfold collect_web_sites_with in Hc'.
    apply collect_web_sites_inv in Hc' as (_ & Hdf' & _).
    unfold reduce_web_df in Hred.
    destruct (String.eqb_spec u ""); [done|].
    destruct (collected_web_df c) as [frame|]; [|done].
    destruct (Collection.min_distance (collected_state c)); [|done].
    injection Hdf' as ->. injection Hred as <-. by rewrite Hst. }
  rewrite Hdf in Hred.
  destruct (List.filter _ _) as [|best rest] eqn:Hfilter.
  { rewrite Hres, Hdf in Hend. done. }
  assert (WebDf.url best = Some u) as Hbu.
  { assert (In best (best :: rest)) as Hin by by left.
    rewrite <- Hfilter in Hin. apply filter_In in Hin as [_ Hb].
    by apply bool_decide_eq_true in Hb. }
  destruct (reduced_rows_scored _ _ _ _ _ _ _ _ _ best Hc Hred)
    as (web & url & Hw & Hwu & Hbu' & _); [by left|].
  rewrite Hbu in Hbu'. injection Hbu' as <-.
  assert (is_Some (Collection.company_websites (collection_state (match_collection cm))
                   !! WebDf.index best)) as [w Hlook].
  { apply lookup_lt_is_Some. rewrite Hst, Hlen. by eapply lookup_lt_Some. }
  rewrite Hres, Hdf. unfold find_match_for_company. rewrite Hlook. simpl.
  split_and!; try done. by exists (WebDf.index best), web.
Qed.

Lemma match_takes_candidate_url_witness :
  match collection_web_df (match_collection (shop_match None)) with
  | None => after_company (match_result_ (shop_match None)) = shop_company
  | Some web_df =>
      exists best rest web url,
        web_df = best :: rest
        /\ shop_websites !! WebDf.index best = Some web
        /\ Website.url web = Some url
        /\ WebDf.url best = Some url
        /\ WebDf.exists_ best = Some true
        /\ Company.url (after_company (match_result_ (shop_match None))) = Some url
        /\ Company.core_id (after_company (match_result_ (shop_match None))) = Some 0
        /\ Company.ranking (after_company (match_result_ (shop_match None)))
           = WebDf.ranking best
        /\ Company.datetime (after_company (match_result_ (shop_match None)))
           = Some (lib_now_match shop_library)
        /\ (exists w, after_websites (match_result_ (shop_match None)) !! WebDf.index best
                      = Some w
                      /\ Website.best_match w = Some true
                      /\ Website.url w = Some url)
        /\ (forall k, k <> WebDf.index best ->
              after_websites (match_result_ (shop_match None)) !! k
              = Collection.company_websites
                  (collection_state (match_collection (shop_match None))) !! k)
  end.
Proof.
  apply (match_takes_candidate_url shop_library shop_company shop_websites shop_address
           (Some (shop_imposed None)) (Some 10) (Some (1 # 2)) true (Some 0) true
           shop_registry (Some hour) {["be"%string]} None (shop_match None)).
  vm_compute. reflexivity.
Defined.

Lemma nonnegative_threshold_always_matches_witness :
  exists cm,
    CompanyUrlMatch_with shop_library shop_company shop_websites shop_address
      (Some (shop_imposed None)) (Some 10) (Some (1 # 2)) true (Some 0) true
      shop_registry (Some hour) {["be"%string]} None = Returns cm
    /\ match_collection cm = shop_url_collection None
    /\ forall web_df, collection_web_df (shop_url_collection None) = Some web_df ->
         web_df <> []
         /\ (exists r m,
               In r web_df
               /\ column_min (Collection.web_df
                                (collection_state (shop_url_collection None))) = Some m
               /\ WebDf.distance r = Some m)
         /\ Company.core_id (after_company (match_result_ cm)) = Some 0
         /\ is_Some (Company.url (after_company (match_result_ cm))).
Proof.
  apply (nonnegative_threshold_always_matches shop_library shop_company shop_websites
           shop_address (shop_imposed None) 10 (Some (1 # 2)) true (Some 0) true
           shop_registry (Some hour) {["be"%string]} None (shop_url_collection None)).
  - lia.
  - reflexivity.
  - vm_compute. reflexivity.
Defined.

Lemma imposed_url_is_taken_witness :
  Company.url (after_company (match_result_ (shop_match (Some "www.acmeshop.nl"%string))))
  = Some "www.acmeshop.nl"%string
  /\ Company.core_id
       (after_company (match_result_ (shop_match (Some "www.acmeshop.nl"%string))))
     = Some 0
  /\ (exists j web, shop_websites !! j = Some web
                    /\ Website.url web = Some "www.acmeshop.nl"%string)
  /\ collection_web_df (match_collection (shop_match (Some "www.acmeshop.nl"%string)))
     = Some (List.filter
               (fun r => bool_decide (WebDf.url r = Some "www.acmeshop.nl"%string))
               (Collection.web_df
                  (collection_state
                     (match_collection (shop_match (Some "www.acmeshop.nl"%string)))))).
Proof.
  apply (imposed_url_is_taken shop_library shop_company shop_websites shop_address
           (shop_imposed (Some "www.acmeshop.nl"%string)) "www.acmeshop.nl"
           (Some 10) (Some (1 # 2)) true (Some 0) true shop_registry (Some hour)
           {["be"%string]} None (shop_match (Some "www.acmeshop.nl"%string))).
  - reflexivity.
  - discriminate.
  - vm_compute. reflexivity.
Defined.

(** * The partitioning of the registration numbers *)

Lemma select_kvk_acc maximum_entries start stop force_process query n0 l0 :
  exists taken,
    (select_kvk maximum_entries start stop force_process query n0 l0).2 = l0 ++ taken
    /\ taken `sublist_of`
         map q_kvk_nummer (rows_to_process start stop force_process query)
    /\ n0 <= (select_kvk maximum_entries start stop force_process query n0 l0).1
    /\ Z.of_nat (List.length taken)
       <= (select_kvk maximum_entries start stop force_process query n0 l0).1 - n0
    /\ (maximum_entries = None ->
        taken = map q_kvk_nummer (rows_to_process start stop force_process query)
        /\ (select_kvk maximum_entries start stop force_process query n0 l0).1
           = n0 + Z.of_nat (List.length (rows_in_range start stop query)))
    /\ (forall k, maximum_entries = Some k ->
          (select_kvk maximum_entries start stop force_process query n0 l0).1
          <= Z.max k n0).
Proof.
  revert n0 l0. induction query as [|q query IH]; intros n0 l0.
  { exists []. simpl. rewrite app_nil_r.
    split; [|split; [|split; [|split; [|split]]]]; try done; try lia.
    intros _. split; [done|lia]. }
  cbn [select_kvk].
  destruct (match maximum_entries with Some m => m <=? n0 | None => false end) eqn:Hcap.
  { exists []. simpl. rewrite app_nil_r.
    split; [|split; [|split; [|split; [|split]]]]; try done; try lia.
    all: first [apply sublist_nil_l
               |intros; subst; first [done|apply Z.leb_le in Hcap; lia]]. }
  assert (Hroom : forall k, maximum_entries = Some k -> n0 < k).
  { intros k ->. by apply Z.leb_gt in Hcap. }
  assert (Hc1 : match start with Some a => q_kvk_nummer q <? a | None => false end
                || match stop with Some b => b <? q_kvk_nummer q | None => false end
                = negb (in_kvk_range start stop (q_kvk_nummer q))).
  { unfold in_kvk_range. by rewrite negb_involutive. }
  assert (Hc2 : negb force_process && bool_decide (is_Some (q_core_id q))
                = negb (to_process force_process q)).
  { unfold to_process. by destruct force_process, (bool_decide _). }
  assert (Hrows : rows_in_range start stop (q :: query)
                  = if in_kvk_range start stop (q_kvk_nummer q)
                    then q :: rows_in_range start stop query
                    else rows_in_range start stop query) by reflexivity.
  assert (Hproc : rows_to_process start stop force_process (q :: query)
                  = if in_kvk_range start stop (q_kvk_nummer q)
                    then if to_process force_process q
                         then q :: rows_to_process start stop force_process query
                         else rows_to_process start stop force_process query
                    else rows_to_process start stop force_process query).
  { unfold rows_to_process. rewrite Hrows.
    by destruct (in_kvk_range start stop (q_kvk_nummer q)). }
  rewrite Hc1, Hc2, Hrows, Hproc.
  destruct (in_kvk_range start stop (q_kvk_nummer q)); simpl.
  2:{ destruct (IH n0 l0) as (taken & H1 & H2 & H3 & H4 & H5 & H6).
      exists taken. split; [|split; [|split; [|split; [|split]]]]; done. }
  destruct (to_process force_process q); simpl.
  - destruct (IH (n0 + 1) (l0 ++ [q_kvk_nummer q]))
      as (taken & H1 & H2 & H3 & H4 & H5 & H6).
    exists (q_kvk_nummer q :: taken). split; [|split; [|split; [|split; [|split]]]].
    + rewrite H1. by rewrite <- app_assoc.
    + by apply sublist_skip.
    + lia.
    + simpl. lia.
    + intros Hm. destruct (H5 Hm) as [-> ->]. split; [done|lia].
    + intros k Hk. specialize (H6 k Hk). specialize (Hroom k Hk). lia.
  - destruct (IH (n0 + 1) l0) as (taken & H1 & H2 & H3 & H4 & H5 & H6).
    exists taken. split; [|split; [|split; [|split; [|split]]]].
    + done.
    + done.
    + lia.
    + lia.
    + intros Hm. destruct (H5 Hm) as [-> ->]. split; [done|lia].
    + intros k Hk. specialize (H6 k Hk). specialize (Hroom k Hk). lia.
Qed.

(** X11.  The loop of [get_kvk_list_per_process] over the query: the
    numbers it collects are, in the order of the query, numbers of rows
    that lie in the range and are to be processed (not yet processed, or
    [force_process] is set); without [maximum_entries] they are all of
    them and [number_in_range] counts all rows in the range; with it,
    [number_in_range] does not exceed the cap, and rows that are in the
    range but already processed use up the cap as well, so that
    [kvk_to_process] is never longer than [number_in_range]. *)
Theorem select_kvk_selects (maximum_entries start stop : option Z)
    (force_process : bool) (query : list company_key) :
  (select_kvk maximum_entries start stop force_process query 0 []).2
    `sublist_of` map q_kvk_nummer (rows_to_process start stop force_process query)
  /\ Z.of_nat (List.length
                 (select_kvk maximum_entries start stop force_process query 0 []).2)
     <= (select_kvk maximum_entries start stop force_process query 0 []).1
  /\ (maximum_entries = None ->
      (select_kvk maximum_entries start stop force_process query 0 []).2
      = map q_kvk_nummer (rows_to_process start stop force_process query)
      /\ (select_kvk maximum_entries start stop force_process query 0 []).1
         = Z.of_nat (List.length (rows_in_range start stop query)))
  /\ (forall k, maximum_entries = Some k ->
        (select_kvk maximum_entries start stop force_process query 0 []).1
        <= Z.max k 0).
Proof.
  destruct (select_kvk_acc maximum_entries start stop force_process query 0 [])
    as (taken & H1 & H2 & H3 & H4 & H5 & H6).
  simpl in H1. rewrite H1.
  split; [|split; [|split]]; [done|lia| |].
  - intros Hm. by destruct (H5 Hm) as [-> ->].
  - intros k Hk. apply (H6 k Hk).
Qed.

Lemma StronglySorted_sublist {A : Type} (R : relation A) (l1 l2 : list A) :
  l1 `sublist_of` l2 -> StronglySorted R l2 -> StronglySorted R l1.
Proof.
  induction 1 as [|x l1 l2 Hsub IH|x l1 l2 Hsub IH]; intros Hs; [done| |].
  - apply StronglySorted_inv in Hs as [Hs Hall]. constructor; [by apply IH|].
    apply List.Forall_forall. intros y Hy.
    rewrite List.Forall_forall in Hall. apply Hall.
    apply list_elem_of_In. eapply elem_of_sublist; [|exact Hsub]. by apply list_elem_of_In.
  - apply StronglySorted_inv in Hs as [Hs _]. by apply IH.
Qed.

Lemma StronglySorted_app_parts {A : Type} (R : relation A) (l1 l2 : list A) :
  StronglySorted R (l1 ++ l2) ->
  StronglySorted R l1 /\ StronglySorted R l2
  /\ forall x1 x2, In x1 l1 -> In x2 l2 -> R x1 x2.
Proof.
  induction l1 as [|x l1 IH]; simpl; intros Hs.
  - split_and!; [constructor|done|by intros ? ? []].
  - apply StronglySorted_inv in Hs as [Hs Hall].
    destruct (IH Hs) as (H1 & H2 & H12). rewrite List.Forall_forall in Hall.
    split_and!; [|done|].
    + constructor; [done|]. apply List.Forall_forall. intros y Hy.
      apply Hall, in_app_iff. by left.
    + intros x1 x2 [<-|Hx1] Hx2; [|by apply H12]. apply Hall, in_app_iff. by right.
Qed.

Lemma List_filter_sublist {A : Type} (f : A -> bool) (l : list A) :
  List.filter f l `sublist_of` l.
Proof.
  induction l as [|x l IH]; [done|]. simpl.
  destruct (f x); by constructor.
Qed.

Lemma length_omap_le {A B : Type} (f : A -> option B) (l : list A) :
  (List.length (omap f l) <= List.length l)%nat.
Proof.
  induction l as [|x l IH]; [done|]. csimpl. destruct (f x); simpl in *; lia.
Qed.

Lemma In_concat_split {A : Type} (c : list A) (cs : list (list A)) :
  In c cs -> exists pre post, concat cs = pre ++ c ++ post.
Proof.
  induction cs as [|c' cs IH]; [done|]. intros [->|Hin].
  - exists [], (concat cs). done.
  - destruct (IH Hin) as (pre & post & Heq). exists (c' ++ pre), post.
    simpl. rewrite Heq. by rewrite <- app_assoc.
Qed.

Lemma sorted_between (c : list Z) (a b x : Z) :
  StronglySorted Z.le c -> head c = Some a -> last c = Some b -> In x c ->
  a <= x <= b.
Proof.
  intros Hs Ha Hb Hx. destruct c as [|a' c]; [done|]. injection Ha as ->.
  apply last_Some in Hb as [c' Hc']. split.
  - destruct Hx as [->|Hx]; [lia|].
    apply StronglySorted_inv in Hs as [_ Hall].
    rewrite List.Forall_forall in Hall. by apply Hall.
  - rewrite Hc' in Hs, Hx. apply in_app_iff in Hx as [Hx|[->|[]]]; [|lia].
    destruct (StronglySorted_app_parts _ _ _ Hs) as (_ & _ & Hle).
    apply Hle; [done|by left].
Qed.

(** X12.  When [get_kvk_list_per_process] returns for a positive number
    of workers and a query ordered by registration number, no number is
    lost: every number to process lies within one of the recorded ranges.
    There are at least as many numbers to process as workers, at most one
    range per worker is recorded, and every range runs from a number to
    process to a number to process that is not smaller. *)
Theorem partition_covers (query : list company_key) (start stop maximum_entries : option Z)
    (force_process : bool) (number_of_processes : Z) (kvk_ranges : list kvk_range)
    (log : list (log_level * partition_msg))
    (Hsorted : StronglySorted Z.le (map q_kvk_nummer query))
    (Hworkers : 0 < number_of_processes)
    (H : get_kvk_list_per_process query start stop maximum_entries force_process
           number_of_processes = Ok (kvk_ranges, log)) :
  number_of_processes
  <= Z.of_nat (List.length
                 (select_kvk maximum_entries start stop force_process query 0 []).2)
  /\ (forall kvk,
        In kvk (select_kvk maximum_entries start stop force_process query 0 []).2 ->
        exists r, In r kvk_ranges /\ range_start r <= kvk <= range_stop r)
  /\ (List.length kvk_ranges <= Z.to_nat number_of_processes)%nat
  /\ forall r, In r kvk_ranges ->
       In (range_start r) (select_kvk maximum_entries start stop force_process query 0 []).2
       /\ In (range_stop r) (select_kvk maximum_entries start stop force_process query 0 []).2
       /\ range_start r <= range_stop r.
Proof.
  destruct (select_kvk_selects maximum_entries start stop force_process query)
    as (Hsub & _ & _ & _).
  unfold get_kvk_list_per_process in H.
  destruct (select_kvk maximum_entries start stop force_process query 0 [])
    as [number_in_range l] eqn:Hsel.
  simpl in Hsub |- *.
  destruct (number_in_range =? 0); [done|].
  destruct (Z.of_nat (List.length l) =? 0); [done|].
  destruct (Z.of_nat (List.length l) <? number_of_processes) eqn:Hfew; [done|].
  destruct (number_of_processes =? 0); [done|].
  injection H as <- _. apply Z.ltb_ge in Hfew.
  assert (Hl : StronglySorted Z.le l).
  { eapply StronglySorted_sublist; [exact Hsub|].
    eapply StronglySorted_sublist; [|exact Hsorted].
    unfold rows_to_process, rows_in_range.
    apply fmap_sublist. etrans; apply List_filter_sublist. }
  destruct (kvk_chunks_cover l number_of_processes Hworkers) as [Hcount Hcover].
  assert (Hsplit : split_kvk l number_of_processes
                   = map range_of (kvk_chunks l number_of_processes)).
  { unfold split_kvk, kvk_chunks. by rewrite map_map. }
  rewrite Hsplit.
  assert (Hrange : forall r, In r (omap fst (map range_of (kvk_chunks l number_of_processes)))
            <-> exists c a b, In c (kvk_chunks l number_of_processes)
                  /\ head c = Some a /\ last c = Some b
                  /\ r = {| range_start := a; range_stop := b |}).
  { intros r. rewrite <- list_elem_of_In, list_elem_of_omap. split.
    - intros (x & Hx & Hr). apply list_elem_of_In, in_map_iff in Hx as (c & <- & Hc).
      unfold range_of in Hr. destruct (head c) as [a|] eqn:Ha; [|done].
      destruct (last c) as [b|] eqn:Hb; [|done]. injection Hr as <-.
      by exists c, a, b.
    - intros (c & a & b & Hc & Ha & Hb & ->). exists (range_of c). split.
      + apply list_elem_of_In, in_map_iff. by exists c.
      + unfold range_of. by rewrite Ha, Hb. }
  assert (Hchunk : forall c, In c (kvk_chunks l number_of_processes) ->
            StronglySorted Z.le c /\ forall x, In x c -> In x l).
  { intros c Hc. destruct (In_concat_split _ _ Hc) as (pre & post & Hcat).
    rewrite Hcover in Hcat. split.
    - rewrite Hcat in Hl. apply StronglySorted_app_parts in Hl as (_ & Hl & _).
      by apply StronglySorted_app_parts in Hl as (Hl & _ & _).
    - intros x Hx. rewrite Hcat, !in_app_iff. auto. }
  split_and!.
  - done.
  - intros kvk Hkvk. rewrite <- Hcover in Hkvk. apply in_concat in Hkvk as (c & Hc & Hin).
    destruct (Hchunk c Hc) as [Hcs _].
    destruct c as [|a c'] eqn:Hceq; [done|]. rewrite <- Hceq in *.
    assert (exists b, last c = Some b) as [b Hb].
    { rewrite Hceq. destruct (last (a :: c')) eqn:Hlast; [by eexists|].
      by apply last_None in Hlast. }
    assert (head c = Some a) as Ha by by rewrite Hceq.
    exists {| range_start := a; range_stop := b |}. split.
    + apply Hrange. by exists c, a, b.
    + simpl. by eapply sorted_between.
  - rewrite <- Hcount. etrans; [apply length_omap_le|]. by rewrite length_map.
  - intros r Hr. apply Hrange in Hr as (c & a & b & Hc & Ha & Hb & ->). simpl.
    destruct (Hchunk c Hc) as [Hcs Hin].
    assert (In a c) as Hac by by apply list_elem_of_In, head_Some_elem_of.
    assert (In b c) as Hbc by by apply list_elem_of_In, last_Some_elem_of.
    split_and!; [by apply Hin|by apply Hin|].
    by destruct (sorted_between c a b b Hcs Ha Hb Hbc).
Qed.

Lemma partition_covers_witness :
  3 <= Z.of_nat (List.length (select_kvk None None None false four_companies 0 []).2)
  /\ (forall kvk,
        In kvk (select_kvk None None None false four_companies 0 []).2 ->
        exists r, In r four_companies_partition.1
                  /\ range_start r <= kvk <= range_stop r)
  /\ (List.length four_companies_partition.1 <= Z.to_nat 3)%nat
  /\ forall r, In r four_companies_partition.1 ->
       In (range_start r) (select_kvk None None None false four_companies 0 []).2
       /\ In (range_stop r) (select_kvk None None None false four_companies 0 []).2
       /\ range_start r <= range_stop r.
Proof.
  apply (partition_covers four_companies None None None false 3
           four_companies_partition.1 four_companies_partition.2).
  - repeat constructor; simpl; lia.
  - lia.
  - vm_compute. reflexivity.
Defined.

(** * Spurious URLs: order and repetition *)

Lemma string_compare_refl (s : string) : (s ?= s)%string = Eq.
Proof.
  induction s as [|c s IH]; [done|]. simpl.
  unfold Ascii.compare. by rewrite N.compare_refl.
Qed.

Lemma string_compare_lt_trans (a b c : string) :
  (a ?= b)%string = Lt -> (b ?= c)%string = Lt -> (a ?= c)%string = Lt.
Proof.
  revert b c. induction a as [|x a IH]; intros [|y b] [|z c]; simpl; try done.
  unfold Ascii.compare.
  destruct (N.compare_spec (N_of_ascii x) (N_of_ascii y)) as [Hxy|Hxy|Hxy]; [| |done];
    destruct (N.compare_spec (N_of_ascii y) (N_of_ascii z)) as [Hyz|Hyz|Hyz]; try done;
    destruct (N.compare_spec (N_of_ascii x) (N_of_ascii z)) as [Hxz|Hxz|Hxz];
    try done; try lia.
  apply IH.
Qed.

Lemma index_compare_eq a b : index_compare a b = Eq <-> index_of a = index_of b.
Proof.
  unfold index_compare, index_of. split.
  - destruct (Z.compare_spec (r_kvk a) (r_kvk b)) as [->| |]; try done.
    intros H. by apply String.compare_eq_iff in H as ->.
  - intros [= -> ->]. by rewrite Z.compare_refl, string_compare_refl.
Qed.

Lemma index_compare_lt_trans a b c :
  index_compare a b = Lt -> index_compare b c = Lt -> index_compare a c = Lt.
Proof.
  unfold index_compare.
  destruct (Z.compare_spec (r_kvk a) (r_kvk b)) as [Hab|Hab|Hab]; [| |done];
    destruct (Z.compare_spec (r_kvk b) (r_kvk c)) as [Hbc|Hbc|Hbc]; try done;
    destruct (Z.compare_spec (r_kvk a) (r_kvk c)) as [Hac|Hac|Hac]; try done; try lia.
  apply string_compare_lt_trans.
Qed.

Lemma index_compare_total a b :
  index_compare a b = Gt -> not_after index_compare b a.
Proof.
  unfold not_after, index_compare.
  rewrite (Z.compare_antisym (r_kvk a) (r_kvk b)),
    (String.compare_antisym (r_url b) (r_url a)).
  destruct (r_kvk a ?= r_kvk b); simpl; try done.
  by destruct (r_url a ?= r_url b)%string.
Qed.

Lemma index_compare_trans a b c :
  not_after index_compare a b -> not_after index_compare b c ->
  not_after index_compare a c.
Proof.
  unfold not_after. intros Hab Hbc.
  destruct (index_compare a b) eqn:Eab; [| |done].
  - apply index_compare_eq in Eab. unfold index_compare in *. unfold index_of in Eab.
    injection Eab as -> ->. done.
  - destruct (index_compare b c) eqn:Ebc; [| |done].
    + apply index_compare_eq in Ebc. unfold index_compare in *. unfold index_of in Ebc.
      injection Ebc as <- <-. by rewrite Eab.
    + by rewrite (index_compare_lt_trans _ _ _ Eab Ebc).
Qed.

(** Sorting a list that is in order already changes nothing. *)
Lemma sort_by_sorted_id {A : Type} (cmp : A -> A -> comparison) (l : list A) :
  StronglySorted (not_after cmp) l -> sort_by cmp l = l.
Proof.
  induction 1 as [|x l Hs IH Hx]; [done|].
  unfold sort_by in *. simpl. rewrite IH.
  destruct l as [|y l]; [done|]. simpl.
  apply Forall_inv in Hx. unfold not_after in Hx. by destruct (cmp x y).
Qed.

Lemma drop_duplicated_sublist seen urls : drop_duplicated seen urls `sublist_of` urls.
Proof.
  revert seen. induction urls as [|x urls IH]; intros seen; simpl; [done|].
  destruct (existsb (index_eqb x) seen); constructor; apply IH.
Qed.

(** Rows whose index values are all different and not seen before are all
    kept. *)
Lemma drop_duplicated_id seen urls :
  NoDup (map index_of urls) ->
  (forall r, In r urls -> ~ In (index_of r) (map index_of seen)) ->
  drop_duplicated seen urls = urls.
Proof.
  revert seen. induction urls as [|x urls IH]; intros seen Hnd Hnew; simpl; [done|].
  destruct (existsb (index_eqb x) seen) eqn:Hx.
  { apply existsb_index in Hx. destruct (Hnew x); [by left|done]. }
  f_equal. simpl in Hnd. apply NoDup_cons in Hnd as [Hx' Hnd]. apply IH; [done|].
  intros r Hr [He|Hin].
  - apply Hx'. rewrite He. apply list_elem_of_In, in_map. done.
  - apply (Hnew r); [by right|done].
Qed.

Lemma filter_length_sublist {A : Type} (f : A -> bool) (l1 l2 : list A) :
  l1 `sublist_of` l2 ->
  (List.length (List.filter f l1) <= List.length (List.filter f l2))%nat.
Proof.
  induction 1 as [|x l1 l2 Hsub IH|x l1 l2 Hsub IH]; simpl; [done| |];
    destruct (f x); simpl; lia.
Qed.

Lemma filter_length_perm {A : Type} (f : A -> bool) (l1 l2 : list A) :
  Permutation l1 l2 -> List.length (List.filter f l1) = List.length (List.filter f l2).
Proof.
  induction 1 as [|x l1 l2 Hp IH|x y l|l1 l2 l3 H1 IH1 H2 IH2]; simpl; [done| | |lia].
  - destruct (f x); simpl; lia.
  - destruct (f x), (f y); simpl; lia.
Qed.

Lemma filter_all {A : Type} (f : A -> bool) (l : list A) :
  (forall x, In x l -> f x = true) -> List.filter f l = l.
Proof.
  induction l as [|x l IH]; intros H; simpl; [done|].
  rewrite (H x) by by left. f_equal. apply IH. intros y Hy. apply H. by right.
Qed.

Lemma filter_none {A : Type} (f : A -> bool) (l : list A) :
  (forall x, In x l -> f x = false) -> List.filter f l = [].
Proof.
  induction l as [|x l IH]; intros H; simpl; [done|].
  rewrite (H x) by by left. apply IH. intros y Hy. apply H. by right.
Qed.

Lemma n_count_positive dataframe r : In r dataframe -> 1 <= n_count dataframe r.
Proof.
  unfold n_count. intros Hr.
  assert (In r (List.filter (fun r' => String.eqb (r_url r') (r_url r)) dataframe)) as Hin.
  { apply filter_In. split; [done|]. apply String.eqb_refl. }
  destruct (List.filter _ dataframe); [done|]. simpl. lia.
Qed.

Lemma strictly_sorted urls :
  StronglySorted (not_after index_compare) urls -> NoDup (map index_of urls) ->
  StronglySorted (fun a b => index_compare a b = Lt) urls.
Proof.
  induction 1 as [|x l Hs IH Hx]; intros Hnd; [constructor|].
  simpl in Hnd. apply NoDup_cons in Hnd as [Hnew Hnd].
  constructor; [by apply IH|]. apply List.Forall_forall. intros y Hy.
  rewrite List.Forall_forall in Hx. specialize (Hx y Hy). unfold not_after in Hx.
  destruct (index_compare x y) eqn:Hxy; [|done|done].
  apply index_compare_eq in Hxy. destruct Hnew. rewrite Hxy.
  by apply list_elem_of_In, in_map.
Qed.

(** X13.  What [remove_spurious_urls] returns is in strictly ascending
    order of registration number and URL; applying the method to its own
    result changes nothing; and with a threshold of 1 or less nothing is
    left, since every URL of the frame occurs at least once. *)
Theorem remove_spurious_urls_ordered (n_count_threshold : Z) (dataframe : list url_row) :
  StronglySorted (fun a b => index_compare a b = Lt)
    (remove_spurious_urls n_count_threshold dataframe)
  /\ remove_spurious_urls n_count_threshold
       (remove_spurious_urls n_count_threshold dataframe)
     = remove_spurious_urls n_count_threshold dataframe
  /\ (n_count_threshold <= 1 -> remove_spurious_urls n_count_threshold dataframe = []).
Proof.
  set (urls := remove_spurious_urls n_count_threshold dataframe).
  assert (Hsorted : StronglySorted (not_after index_compare) urls).
  { eapply StronglySorted_sublist; [apply drop_duplicated_sublist|].
    apply sort_by_sorted; [apply index_compare_total|apply index_compare_trans]. }
  assert (Hnd : NoDup (map index_of urls)) by apply drop_duplicated_NoDup.
  assert (Hcount : forall r, n_count urls r <= n_count dataframe r).
  { intros r. unfold n_count. apply inj_le.
    etrans; [apply filter_length_sublist, drop_duplicated_sublist|].
    rewrite (filter_length_perm _ _ _ (sort_by_perm index_compare _)).
    apply filter_length_sublist, List_filter_sublist. }
  assert (Hin : forall r, In r urls ->
                  In r dataframe /\ n_count dataframe r < n_count_threshold).
  { intros r Hr. unfold urls, remove_spurious_urls in Hr.
    apply drop_duplicated_In in Hr as [Hr _].
    apply sort_by_In in Hr. by apply drop_frequent_urls_In. }
  split_and!.
  - by apply strictly_sorted.
  - unfold remove_spurious_urls at 1. fold urls.
    assert (drop_frequent_urls n_count_threshold urls = urls) as ->.
    { apply filter_all. intros r Hr. apply Z.ltb_lt.
      destruct (Hin r Hr) as [_ Hlt]. specialize (Hcount r). lia. }
    rewrite (sort_by_sorted_id _ _ Hsorted).
    apply drop_duplicated_id; [done|]. by intros r _ [].
  - intros Hthr. unfold urls, remove_spurious_urls.
    assert (drop_frequent_urls n_count_threshold dataframe = []) as ->; [|done].
    apply filter_none. intros r Hr. apply Z.ltb_ge.
    pose proof (n_count_positive dataframe r Hr). lia.
Qed.

(** * The cleaned name *)

Lemma latin1_lower_not_upper c : ~ (65 <= latin1_lower c <= 90)%N.
Proof.
  unfold latin1_lower. destruct (_ || _) eqn:Hb.
  - apply orb_true_iff in Hb as [Hb|Hb].
    + apply andb_true_iff in Hb as [H1 H2]. apply N.leb_le in H1, H2. lia.
    + apply andb_true_iff in Hb as [Hb _]. apply andb_true_iff in Hb as [H1 H2].
      apply N.leb_le in H1, H2. lia.
  - apply orb_false_iff in Hb as [Hb _]. apply andb_false_iff in Hb as [Hb|Hb].
    + apply N.leb_gt in Hb. lia.
    + apply N.leb_gt in Hb. lia.
Qed.

(** X14.  For every name, whatever its characters, [clean_name] only
    deletes characters from the name in lower case: the result is a
    subsequence of [naam.lower()], and it holds no white space (as [\s]
    understands it), no ampersand and no double quote.  The result for a
    name of ASCII characters holds no capital letter. *)
Theorem clean_name_alphabet (U : unicode) (naam : str) :
  clean_name U naam `sublist_of` str_lower U naam
  /\ Forall (fun c => re_space U c = false /\ c <> 38%N /\ c <> 34%N) (clean_name U naam)
  /\ (ascii_tables U -> is_ascii naam ->
      Forall (fun c => ~ (65 <= c <= 90)%N) (clean_name U naam)).
Proof.
  assert (Hsub : forall V s, clean_name V s `sublist_of` str_lower V s).
  { intros V s. unfold clean_name.
    repeat (etrans; [apply sub_empty_sublist|]). done. }
  split; [apply Hsub|]. split.
  - set (l3 := sub_empty re_amp_quote
                 (sub_empty re_parenthesis
                    (sub_empty (re_legal_form U) (str_lower U naam)))).
    change (clean_name U naam) with (sub_empty (re_spaces U) l3).
    assert (Hsp : Forall (fun c => re_space U c = false) (sub_empty (re_spaces U) l3))
      by apply sub_empty_Plus_Cls_removes.
    assert (Hamp : Forall (fun c => is_amp_or_quote c = false)
                     (sub_empty (re_spaces U) l3)).
    { apply (Forall_sublist _ _ l3); [apply sub_empty_sublist|].
      apply sub_empty_Cls_removes. }
    rewrite Forall_forall in Hsp, Hamp. apply Forall_forall. intros c Hc.
    split; [by apply Hsp|]. specialize (Hamp c Hc).
    unfold is_amp_or_quote, is_char in Hamp. apply orb_false_iff in Hamp as [H1 H2].
    apply N.eqb_neq in H1, H2. done.
  - intros HU Hascii. rewrite (clean_name_ascii U naam HU Hascii).
    apply (Forall_sublist _ _ _ (Hsub latin1 naam)).
    cbn [str_lower latin1]. apply Forall_map, Forall_forall. intros c _.
    apply latin1_lower_not_upper.
Qed.

(** * The bounds of the ranking *)






(** * The query of a worker and its count *)

Lemma matching_loop_count {World : Type} (stop_file_exists : World -> bool)
    (remove_stop_file : World -> World)
    (CompanyUrlMatch : World -> Company.row -> World * result string)
    (maximum_entries : option Z) (force_process search_urls : bool)
    (query : list Company.row) :
  forall (cnt : Z) (w : World) (log : loop_log),
    let r := matching_loop World stop_file_exists remove_stop_file CompanyUrlMatch
               maximum_entries force_process search_urls cnt query w log in
    rows_matched (log_of r) - rows_matched log <= max_queries force_process query
    /\ (maximum_entries = None ->
        (forall w, stop_file_exists w = false) ->
        (forall w c, match (CompanyUrlMatch w c).2 with
                     | Ok _ | Raise (DatabaseError _) => True
                     | Raise _ => False
                     end) ->
        rows_matched (log_of r) - rows_matched log = max_queries force_process query
        /\ end_of r = LoopDone).
Proof.
  induction query as [|c query IH]; intros cnt w log; cbn zeta.
  { unfold log_of, end_of, max_queries. simpl. split; [lia|]. intros _ _ _. split; [lia|done]. }
  assert (Hmax : max_queries force_process (c :: query)
                 = (if bool_decide (is_Some (Company.core_id c)) && negb force_process
                    then 0 else 1) + max_queries force_process query).
  { unfold max_queries. simpl.
    destruct (bool_decide (is_Some (Company.core_id c)) && negb force_process);
      simpl; lia. }
  assert (Hpos : 0 <= max_queries force_process query) by (unfold max_queries; lia).
  rewrite Hmax. cbn [matching_loop].
  destruct (match maximum_entries with Some m => cnt =? m | None => false end) eqn:Hcap.
  { unfold log_of, end_of. simpl. rewrite rows_matched_app. simpl. split.
    - destruct (_ && _); lia.
    - intros ->. done. }
  destruct (stop_file_exists w) eqn:Hstop.
  { unfold log_of, end_of. simpl. rewrite rows_matched_app. simpl. split.
    - destruct (_ && _); lia.
    - intros _ Hno. by rewrite Hno in Hstop. }
  destruct (bool_decide (is_Some (Company.core_id c)) && negb force_process).
  { specialize (IH (cnt + 1) w
      (log ++ [(DEBUG, MsgAlreadyProcessed (Company.kvk_nummer c) (Company.naam c))])).
    cbn zeta in IH. rewrite rows_matched_app in IH. simpl in IH.
    destruct IH as [IH1 IH2]. split; [lia|]. intros H1 H2 H3.
    destruct (IH2 H1 H2 H3) as [? ?]. split; [lia|done]. }
  set (log1 := log ++ [(INFO, MsgProcessing (Company.kvk_nummer c) (Company.naam c))]).
  set (log2 := if search_urls then log1 ++ [(INFO, MsgStartUrlSearch)] else log1).
  assert (H2 : rows_matched log2 = rows_matched log + 1).
  { unfold log2, log1. destruct search_urls; rewrite ?rows_matched_app; simpl; lia. }
  destruct (CompanyUrlMatch w c) as [w' [name|e]] eqn:Hmatch.
  - specialize (IH (cnt + 1) w' (log2 ++ [(DEBUG, MsgDoneWith name)])).
    cbn zeta in IH. rewrite rows_matched_app in IH. simpl in IH.
    destruct IH as [IH1 IH2]. split; [lia|]. intros H1 H3 H4.
    destruct (IH2 H1 H3 H4) as [? ?]. split; [lia|done].
  - destruct e;
      try (unfold log_of, end_of; simpl; split; [lia|];
           intros _ _ H4; specialize (H4 w c); by rewrite Hmatch in H4).
    specialize (IH (cnt + 1) w' (log2 ++ [(WARNING, MsgError msg); (WARNING, MsgSkipping)])).
    cbn zeta in IH.
    assert (rows_matched (log2 ++ [(WARNING, MsgError msg); (WARNING, MsgSkipping)])
            = rows_matched log2) as Hw.
    { unfold rows_matched. rewrite List.filter_app, length_app. simpl. lia. }
    rewrite Hw in IH.
    destruct IH as [IH1 IH2]. split; [lia|]. intros H1 H3 H4.
    destruct (IH2 H1 H3 H4) as [? ?]. split; [lia|done].
Qed.


(** X17.  [max_queries] and the loop: no run of the loop hands more
    companies to the matcher than [max_queries] says; and when there is no
    cap, no stop file appears and the matcher raises nothing but database
    errors, the loop runs to its end and hands exactly [max_queries]
    companies to the matcher. *)
Theorem max_queries_counts_matches {World : Type}
    (stop_file_exists : World -> bool) (remove_stop_file : World -> World)
    (CompanyUrlMatch : World -> Company.row -> World * result string)
    (maximum_entries : option Z) (force_process search_urls : bool)
    (query : list Company.row) (w : World) :
  let run := find_best_matching_url World stop_file_exists remove_stop_file
               CompanyUrlMatch maximum_entries force_process search_urls query w in
  rows_matched (log_of run) <= max_queries force_process query
  /\ (maximum_entries = None ->
      (forall w, stop_file_exists w = false) ->
      (forall w c, match (CompanyUrlMatch w c).2 with
                   | Ok _ | Raise (DatabaseError _) => True
                   | Raise _ => False
                   end) ->
      rows_matched (log_of run) = max_queries force_process query
      /\ end_of run = LoopDone).
Proof.
  cbn zeta. unfold find_best_matching_url.
  destruct (matching_loop_count stop_file_exists remove_stop_file CompanyUrlMatch
              maximum_entries force_process search_urls query 0 w []) as [Hle Heq].
  change (rows_matched []) with 0 in Hle, Heq. split; [lia|].
  intros Hcap Hstop Hsafe. destruct (Heq Hcap Hstop Hsafe) as [Hn Hend].
  split; [lia|done].
Qed.

(** A run without cap and stop file in which every match fails in the
    store: both unprocessed companies are handed to the matcher. *)
Lemma max_queries_counts_matches_witness :
  rows_matched
    (log_of (find_best_matching_url unit (fun _ => false) (fun w => w) failing_match
               None false true
               [processed_company 1; fresh_company 2; fresh_company 3] tt))
  = 2
  /\ end_of (find_best_matching_url unit (fun _ => false) (fun w => w) failing_match
               None false true
               [processed_company 1; fresh_company 2; fresh_company 3] tt)
     = LoopDone.
Proof.
  apply (max_queries_counts_matches (fun _ : unit => false) (fun w => w) failing_match
           None false true [processed_company 1; fresh_company 2; fresh_company 3] tt).
  - reflexivity.
  - reflexivity.
  - intros w c. exact I.
Defined.

(** * Linking the URLs to the companies *)

Lemma StronglySorted_weaken {A : Type} (R R' : A -> A -> Prop) (l : list A) :
  (forall a b, R a b -> R' a b) -> StronglySorted R l -> StronglySorted R' l.
Proof.
  intros HR. induction 1 as [|x l Hs IH Hx]; constructor; [done|].
  eapply Forall_impl; [exact Hx|]. intros y. apply HR.
Qed.

Lemma sort_by_kvk_sorted url_df :
  StronglySorted (fun a b => r_kvk a <= r_kvk b) (sort_by by_kvk url_df).
Proof.
  apply (StronglySorted_weaken (not_after by_kvk)).
  - intros a b. unfold not_after, by_kvk.
    destruct (Z.compare_spec (r_kvk a) (r_kvk b)); intros; try done; lia.
  - apply sort_by_sorted.
    + intros x y Hgt. unfold not_after, by_kvk in *.
      apply Z.compare_gt_iff in Hgt. intros Hc. apply Z.compare_gt_iff in Hc. lia.
    + intros x y z. unfold not_after, by_kvk.
      rewrite !Z.compare_gt_iff. lia.
Qed.

Lemma sort_by_kvk_nummer_sorted company :
  StronglySorted (fun a b => Company.kvk_nummer a <= Company.kvk_nummer b)
    (sort_by by_kvk_nummer company).
Proof.
  apply (StronglySorted_weaken (not_after by_kvk_nummer)).
  - intros a b. unfold not_after, by_kvk_nummer.
    destruct (Z.compare_spec (Company.kvk_nummer a) (Company.kvk_nummer b));
      intros; try done; lia.
  - apply sort_by_sorted.
    + intros x y Hgt. unfold not_after, by_kvk_nummer in *.
      apply Z.compare_gt_iff in Hgt. intros Hc. apply Z.compare_gt_iff in Hc. lia.
    + intros x y z. unfold not_after, by_kvk_nummer.
      rewrite !Z.compare_gt_iff. lia.
Qed.

(** Companies in ascending order of numbers that are all different are in
    strictly ascending order. *)
Lemma sorted_unique_strict (cs : list Company.row) :
  StronglySorted (fun a b => Company.kvk_nummer a <= Company.kvk_nummer b) cs ->
  NoDup (map Company.kvk_nummer cs) ->
  StronglySorted (fun a b => Company.kvk_nummer a < Company.kvk_nummer b) cs.
Proof.
  induction 1 as [|x l Hs IH Hx]; intros Hnd; [constructor|].
  simpl in Hnd. apply NoDup_cons in Hnd as [Hnew Hnd].
  constructor; [by apply IH|]. apply List.Forall_forall. intros y Hy.
  rewrite List.Forall_forall in Hx. specialize (Hx y Hy).
  assert (Company.kvk_nummer x <> Company.kvk_nummer y); [|lia].
  intros He. apply Hnew. rewrite He. by apply list_elem_of_In, in_map.
Qed.

(** In a list in ascending order whose numbers are all at least [a], the
    rows with the number [a] come first. *)
Lemma sorted_split (a : Z) (urls : list url_row) :
  StronglySorted (fun x y => r_kvk x <= r_kvk y) urls ->
  (forall u, In u urls -> a <= r_kvk u) ->
  urls = List.filter (fun r => r_kvk r =? a) urls
         ++ List.filter (fun r => negb (r_kvk r =? a)) urls.
Proof.
  induction 1 as [|u urls Hs IH Hu]; intros Hge; [done|]. simpl.
  destruct (Z.eqb_spec (r_kvk u) a) as [He|Hne]; simpl.
  - f_equal. apply IH. intros v Hv. apply Hge. by right.
  - assert (Hlater : forall v, In v urls -> (r_kvk v =? a) = false).
    { intros v Hv. apply Z.eqb_neq. rewrite List.Forall_forall in Hu.
      specialize (Hu v Hv). specialize (Hge u (or_introl eq_refl)). lia. }
    rewrite (filter_none _ _ Hlater). simpl. f_equal. symmetry. apply filter_all.
    intros v Hv. by rewrite (Hlater v Hv).
Qed.

Lemma filter_filter_other (a k : Z) (urls : list url_row) :
  k <> a ->
  List.filter (fun r => r_kvk r =? k) (List.filter (fun r => negb (r_kvk r =? a)) urls)
  = List.filter (fun r => r_kvk r =? k) urls.
Proof.
  intros Hne. induction urls as [|u urls IH]; [done|]. simpl.
  destruct (Z.eqb_spec (r_kvk u) a) as [He|Ha]; simpl.
  - destruct (Z.eqb_spec (r_kvk u) k); [lia|done].
  - by rewrite IH.
Qed.

Lemma n_url_replicate (urls : list url_row) (c : Company.row) :
  match n_url_per_kvk urls (Company.kvk_nummer c) with
  | Some n_url => replicate n_url c
  | None => []
  end
  = replicate
      (List.length (List.filter (fun r => r_kvk r =? Company.kvk_nummer c) urls)) c.
Proof. unfold n_url_per_kvk. by destruct (List.length _). Qed.

Lemma flat_map_ext_In {A B : Type} (f g : A -> list B) (l : list A) :
  (forall a, In a l -> f a = g a) -> flat_map f l = flat_map g l.
Proof.
  induction l as [|x l IH]; intros H; [done|]. simpl.
  rewrite (H x) by by left. f_equal. apply IH. intros a Ha. apply H. by right.
Qed.

Lemma Forall2_replicate_same {A B : Type} (P : A -> B -> Prop) (l : list A) (c : B) :
  (forall x, In x l -> P x c) -> Forall2 P l (replicate (List.length l) c).
Proof.
  induction l as [|x l IH]; intros H; simpl; constructor.
  - apply H. by left.
  - apply IH. intros y Hy. apply H. by right.
Qed.

Lemma company_list_In urls not_in cs c :
  In c (company_list_of urls not_in cs) -> In c cs.
Proof.
  unfold company_list_of. rewrite in_flat_map. intros (c' & Hc' & Hin).
  destruct (bool_decide _); [done|]. rewrite n_url_replicate in Hin.
  apply list_elem_of_In, elem_of_replicate in Hin as [-> _]. done.
Qed.

(** The list of companies lines up with the URLs in the order of their
    numbers. *)
Lemma company_list_lines_up (cs : list Company.row) (urls : list url_row) :
  StronglySorted (fun a b => Company.kvk_nummer a < Company.kvk_nummer b) cs ->
  StronglySorted (fun x y => r_kvk x <= r_kvk y) urls ->
  (forall u, In u urls -> exists c, In c cs /\ Company.kvk_nummer c = r_kvk u) ->
  Forall2 (fun u c => Company.kvk_nummer c = r_kvk u) urls (company_list_of urls ∅ cs).
Proof.
  intros Hcs. revert urls. induction Hcs as [|c cs Hcs IH Hc]; intros urls Hs Hall.
  { destruct urls as [|u urls]; [constructor|].
    destruct (Hall u) as (c & [] & _). by left. }
  set (a := Company.kvk_nummer c).
  rewrite List.Forall_forall in Hc.
  assert (Hge : forall u, In u urls -> a <= r_kvk u).
  { intros u Hu. destruct (Hall u Hu) as (c' & [<-|Hc'] & <-); [done|].
    specialize (Hc c' Hc'). unfold a. lia. }
  pose proof (sorted_split a urls Hs Hge) as Hsplit.
  set (us1 := List.filter (fun r => r_kvk r =? a) urls) in *.
  set (us2 := List.filter (fun r => negb (r_kvk r =? a)) urls) in *.
  assert (Hlist : company_list_of urls ∅ (c :: cs)
                  = replicate (List.length us1) c ++ company_list_of us2 ∅ cs).
  { unfold company_list_of. cbn [flat_map].
    rewrite bool_decide_eq_false_2 by apply not_elem_of_empty.
    rewrite n_url_replicate. fold a. fold us1. f_equal.
    apply flat_map_ext_In. intros c' Hc'.
    rewrite bool_decide_eq_false_2 by apply not_elem_of_empty.
    rewrite !n_url_replicate. unfold us2. rewrite filter_filter_other; [done|].
    specialize (Hc c' Hc'). unfold a. lia. }
  rewrite Hlist. rewrite Hsplit at 1. apply Forall2_app.
  - apply Forall2_replicate_same. intros u Hu. apply filter_In in Hu as [_ Hu].
    apply Z.eqb_eq in Hu. by rewrite Hu.
  - apply IH.
    + eapply StronglySorted_sublist; [|exact Hs]. apply List_filter_sublist.
    + intros u Hu. apply filter_In in Hu as [Hu Hne].
      apply negb_true_iff, Z.eqb_neq in Hne.
      destruct (Hall u Hu) as (c' & [<-|Hc'] & He); [done|]. by exists c'.
Qed.

Lemma Forall2_zip_In {A B : Type} (P : A -> B -> Prop) (l : list A) (k : list B) x y :
  Forall2 P l k -> In (x, y) (zip l k) -> P x y /\ In x l /\ In y k.
Proof.
  induction 1 as [|a b l k Hab H IH]; [done|]. simpl. intros [[= <- <-]|Hin].
  - auto.
  - destruct (IH Hin) as (? & ? & ?). auto.
Qed.

Lemma Forall2_zip_fst {A B : Type} (P : A -> B -> Prop) (l : list A) (k : list B) :
  Forall2 P l k -> map fst (zip l k) = l.
Proof. induction 1 as [|a b l k Hab H IH]; [done|]. simpl. by rewrite IH. Qed.

(** X18.  When every registration number is the number of one company
    only, and the numbers of the addresses and of the URLs are all numbers
    of companies, [urls_per_kvk_to_sql] hands every URL of the frame to the
    Website table, in ascending order of the registration numbers (in the
    order that [sort_values] gave them), each linked to the company that
    has its registration number.  This holds for whatever order the two
    sorts give to rows with the same number. *)
Theorem urls_linked_to_their_company
    (sort_values : list url_row -> list url_row)
    (order_by : list Company.row -> list Company.row)
    (url_df : list url_row) (addresses_kvk : list Z) (company : list Company.row)
    (Hsort : sorts_by r_kvk sort_values)
    (Horder : sorts_by Company.kvk_nummer order_by)
    (Hunique : NoDup (map Company.kvk_nummer company))
    (Haddresses : forall kvk, In kvk addresses_kvk ->
                              In kvk (map Company.kvk_nummer company))
    (Hurls : forall u, In u url_df -> In (r_kvk u) (map Company.kvk_nummer company)) :
  exists rows,
    urls_per_kvk_to_sql sort_values order_by url_df addresses_kvk company = Ok rows
    /\ map fst rows = match url_df with [] => [] | _ => sort_values url_df end
    /\ StronglySorted (fun a b => r_kvk a <= r_kvk b) (map fst rows)
    /\ Permutation (map fst rows) url_df
    /\ forall u c, In (u, c) rows ->
          In u url_df /\ In c company /\ Company.kvk_nummer c = r_kvk u.
Proof.
  unfold urls_per_kvk_to_sql.
  destruct url_df as [|u0 url_df'].
  { exists []. split_and!; try done. constructor. }
  set (url_df := u0 :: url_df') in *.
  set (urls := sort_values url_df).
  set (cs := order_by company).
  destruct (Hsort url_df) as [Hperm Hsorted]. fold urls in Hperm, Hsorted.
  destruct (Horder company) as [Hcperm Hcsorted]. fold cs in Hcperm, Hcsorted.
  assert (Hin_urls : forall u, In u urls <-> In u url_df).
  { intros u. split; apply Permutation_in; [done|by symmetry]. }
  assert (Hin_cs : forall c, In c cs <-> In c company).
  { intros c. split; apply Permutation_in; [done|by symmetry]. }
  assert (Hempty : list_to_set addresses_kvk
                   ∖ list_to_set (map Company.kvk_nummer cs) = (∅ : gset Z)).
  { apply set_eq. intros k. rewrite elem_of_difference, !elem_of_list_to_set.
    split; [|intros Hk; by apply not_elem_of_empty in Hk]. intros [Hk Hn]. destruct Hn.
    apply list_elem_of_In in Hk. apply Haddresses in Hk.
    apply list_elem_of_In. apply in_map_iff in Hk as (c & <- & Hc).
    apply in_map. by apply Hin_cs. }
  rewrite Hempty. rewrite bool_decide_eq_false_2 by (intros H; by apply H).
  assert (Hlink : Forall2 (fun u c => Company.kvk_nummer c = r_kvk u) urls
                    (company_list_of urls ∅ cs)).
  { apply company_list_lines_up.
    - apply sorted_unique_strict; [done|].
      eapply NoDup_Permutation_proper; [|exact Hunique].
      change (map Company.kvk_nummer ?l) with (Company.kvk_nummer <$> l).
      by apply fmap_Permutation.
    - done.
    - intros u Hu. apply Hin_urls in Hu. apply Hurls in Hu.
      apply in_map_iff in Hu as (c & He & Hc). exists c. split; [|done].
      by apply Hin_cs. }
  rewrite bool_decide_eq_true_2 by (symmetry; by eapply Forall2_length).
  eexists. split; [done|]. rewrite (Forall2_zip_fst _ _ _ Hlink). split_and!; try done.
  intros u c Hin. destruct (Forall2_zip_In _ _ _ _ _ Hlink Hin) as (He & Hu & Hc).
  split_and!; [|  |done].
  - by apply Hin_urls in Hu.
  - apply company_list_In in Hc. by apply Hin_cs in Hc.
Qed.

(** The sort by insertion of this development is one such sort. *)
Lemma urls_linked_to_their_company_witness :
  exists rows,
    urls_per_kvk_to_sql (sort_by by_kvk) (sort_by by_kvk_nummer) three_company_urls
      [1; 2; 3] [fresh_company 2; fresh_company 1; fresh_company 3]
    = Ok rows
    /\ map fst rows = sort_by by_kvk three_company_urls
    /\ StronglySorted (fun a b => r_kvk a <= r_kvk b) (map fst rows)
    /\ Permutation (map fst rows) three_company_urls
    /\ forall u c, In (u, c) rows ->
          In u three_company_urls
          /\ In c [fresh_company 2; fresh_company 1; fresh_company 3]
          /\ Company.kvk_nummer c = r_kvk u.
Proof.
  apply (urls_linked_to_their_company (sort_by by_kvk) (sort_by by_kvk_nummer)
           three_company_urls [1; 2; 3]
           [fresh_company 2; fresh_company 1; fresh_company 3]).
  - intros l. split; [apply sort_by_perm|apply sort_by_kvk_sorted].
  - intros l. split; [apply sort_by_perm|apply sort_by_kvk_nummer_sorted].
  - simpl. repeat (apply NoDup_cons; split; [intros H; apply list_elem_of_In in H;
                                             simpl in H; intuition lia|]).
    apply NoDup_nil_2.
  - simpl. intros kvk H. lia.
  - simpl. intros u [<-|[<-|[<-|[]]]]; simpl; lia.
Defined.

(** * What a fetch stores *)

Lemma append_new_spec names found dom d :
  In d (append_new names found dom)
  <-> In d found \/ (d = dom /\ In dom names /\ ~ In dom found).
Proof.
  unfold append_new.
  destruct (existsb (String.eqb dom) names) eqn:Hn;
    destruct (existsb (String.eqb dom) found) eqn:Hf; simpl.
  - split; [by left|]. intros [?|(_ & _ & Hno)]; [done|]. destruct Hno.
    apply existsb_exists in Hf as (x & Hx & He). by apply String.eqb_eq in He as ->.
  - rewrite in_app_iff. simpl. split.
    + intros [?|[<-|[]]]; [by left|]. right. split; [done|]. split.
      * apply existsb_exists in Hn as (x & Hx & He). by apply String.eqb_eq in He as ->.
      * intros Hin. assert (existsb (String.eqb dom) found = true); [|congruence].
        apply existsb_exists. exists dom. split; [done|apply String.eqb_refl].
    + intros [?|(-> & _)]; auto.
  - split; [by left|]. intros [?|(_ & Hin & _)]; [done|].
    assert (existsb (String.eqb dom) names = true); [|congruence].
    apply existsb_exists. exists dom. split; [done|apply String.eqb_refl].
  - split; [by left|]. intros [?|(_ & Hin & _)]; [done|].
    assert (existsb (String.eqb dom) names = true); [|congruence].
    apply existsb_exists. exists dom. split; [done|apply String.eqb_refl].
Qed.

Lemma append_new_NoDup names found dom :
  NoDup found -> NoDup (append_new names found dom).
Proof.
  intros Hnd. unfold append_new.
  destruct (existsb (String.eqb dom) names && negb (existsb (String.eqb dom) found))
    eqn:H; [|done].
  apply andb_true_iff in H as [_ Hf]. apply negb_true_iff in Hf.
  apply NoDup_app. split_and!; [done| |apply NoDup_singleton].
  intros x Hx Hx'. apply list_elem_of_In in Hx' as [Hx'|[]]. subst x.
  assert (existsb (String.eqb dom) found = true); [|congruence].
  apply existsb_exists. exists dom. split; [by apply list_elem_of_In|apply String.eqb_refl].
Qed.

(** X19.  The names that a fetch stores for a page (social media, payment
    options).  When one of the outbound links of the page is [None], the
    loop over the links fails with an AttributeError.  Otherwise each name
    is stored once, and a name is stored exactly when it is the domain of
    one of the outbound links of the page and occurs, in lower case, in the
    list of names. *)
Theorem found_names_spec (U : unicode) (tldextract_extract : string -> tld_extract)
    (names : list string) (hrefs : list (option string)) :
  (In None hrefs -> found_names U tldextract_extract names hrefs = Raise AttributeError)
  /\ (~ In None hrefs ->
      exists found,
        found_names U tldextract_extract names hrefs = Ok found
        /\ NoDup found
        /\ forall dom,
             In dom found
             <-> In dom (map (lower_string U) names)
                 /\ exists external_url,
                      In (Some external_url) hrefs
                      /\ domain (tldextract_extract external_url) = dom).
Proof.
  unfold found_names. split.
  - generalize (@nil string) as found.
    induction hrefs as [|href hrefs IH]; intros found Hin; [destruct Hin|].
    destruct href as [external_url|]; [|done].
    simpl. apply IH. by destruct Hin as [?|?].
  - assert (Hgen : forall found,
      NoDup found -> ~ In None hrefs ->
      exists result,
        found_names_from U tldextract_extract names found hrefs = Ok result
        /\ NoDup result
        /\ forall dom, In dom result
             <-> In dom found
                 \/ (In dom (map (lower_string U) names)
                     /\ exists external_url,
                          In (Some external_url) hrefs
                          /\ domain (tldextract_extract external_url) = dom)).
    { induction hrefs as [|href hrefs IH]; intros found Hnd Hno.
      { exists found. split_and!; [done..|]. intros dom. split; [by left|].
        intros [?|(_ & ? & [] & _)]. done. }
      destruct href as [external_url|]; [|destruct Hno; by left].
      simpl.
      destruct (IH (append_new (map (lower_string U) names) found
                      (domain (tldextract_extract external_url))))
        as (result & Hres & Hnd' & Hin);
        [by apply append_new_NoDup|intros ?; apply Hno; by right|].
      exists result. split_and!; [done..|].
      intros dom. rewrite Hin, append_new_spec. split.
      + intros [[?|(-> & Hn & _)]|(Hn & e & He & Hd)]; [by left| |].
        * right. split; [done|]. exists external_url. split; [by left|done].
        * right. split; [done|]. exists e. split; [by right|done].
      + intros [?|(Hn & e & [[= ->]|He] & Hd)]; [by left; left| |].
        * destruct (in_dec String.string_dec dom found) as [?|Hnot]; [by left; left|].
          left. right. rewrite <- Hd. rewrite <- Hd in Hn, Hnot. done.
        * right. split; [done|]. by exists e. }
    intros Hno. destruct (Hgen [] NoDup_nil_2 Hno) as (found & Hres & Hnd & Hin).
    exists found. split_and!; [done..|].
    intros dom. rewrite Hin. split; [by intros [[]|?]|by right].
Qed.

(** X20.  The staleness check, made twice: after a check at time [now]
    that asked for an update, a second check of the row at time [now'] asks
    for an update again exactly when the window has passed since [now], and
    leaves the row alone when it has not.  Without a window, or with a
    window of zero, every check asks for an update. *)
Theorem recheck_after_update (older_time : option Z) (now now' : Z) (url_nl : UrlNL.row)
    (url_extract url_extract' : tld_extract) :
  let first := check_if_url_needs_update older_time now url_nl url_extract in
  let second := check_if_url_needs_update older_time now' first.1 url_extract' in
  (forall window, older_time = Some window -> window <> 0 -> first.2 = true ->
     (second.2 = true <-> window <= now' - now)
     /\ (now' - now < window -> second = (first.1, false)))
  /\ (older_time = None \/ older_time = Some 0 -> first.2 = true /\ second.2 = true).
Proof.
  cbn zeta. split.
  - intros window -> Hnz Hfirst.
    assert (Hstamp : UrlNL.datetime
                       (check_if_url_needs_update (Some window) now url_nl url_extract).1
                     = Some now).
    { unfold check_if_url_needs_update in *.
      destruct (match UrlNL.datetime url_nl with Some _ => _ | None => _ end); [done|].
      done. }
    set (row1 := (check_if_url_needs_update (Some window) now url_nl url_extract).1) in *.
    unfold check_if_url_needs_update at 1 2. rewrite Hstamp.
    unfold timedelta_true. rewrite (proj2 (Z.eqb_neq window 0) Hnz). simpl.
    destruct (Z.ltb_spec (now' - now) window) as [Hlt|Hge]; simpl.
    + split; [split; [done|lia]|done].
    + split; [split; [lia|done]|lia].
  - intros Hno. unfold check_if_url_needs_update, timedelta_true.
    destruct Hno as [-> | ->].
    + destruct (UrlNL.datetime url_nl); simpl; done.
    + destruct (UrlNL.datetime url_nl); simpl; done.
Qed.

(** * The loop with the matcher of the engine *)





(** X22.  With [impose_url_for_kvk] left at its default, [None], the
    matcher fails on the first company that is handed to it: the lookup of
    the imposed URL raises an [AttributeError], which the loop does not
    catch.  So the run hands at most one company to the matcher, ends with
    that error as soon as it does, and leaves the registry as it was. *)
Theorem engine_loop_without_imposed_urls (lib : library) (self : parser)
    (websites_of : Company.row -> list Website.row)
    (address_of : Company.row -> list string)
    (query : list Company.row) (w : store)
    (Hdefault : parser_impose_url_for_kvk self = None) :
  store_url_nl (engine_loop lib self websites_of address_of query w).1.1
  = store_url_nl w
  /\ ((rows_matched (log_of (engine_loop lib self websites_of address_of query w)) = 0
       /\ end_of (engine_loop lib self websites_of address_of query w) = LoopDone)
      \/ (rows_matched (log_of (engine_loop lib self websites_of address_of query w)) = 1
          /\ end_of (engine_loop lib self websites_of address_of query w)
             = LoopRaised AttributeError)).
Proof.
  unfold engine_loop, find_best_matching_url.
  assert (Hmatch : forall w c,
            engine_match lib self websites_of address_of w c = (w, Raise AttributeError)).
  { intros w' c. unfold engine_match, CompanyUrlMatch_with, CompanyUrlMatch.
    rewrite Hdefault. by destruct w'. }
  assert (Hgen : forall query w cnt log,
            let r := matching_loop store store_stop_file remove_stop_file
                       (engine_match lib self websites_of address_of)
                       (parser_maximum_entries self) (parser_force_process self)
                       (parser_search_urls self) cnt query w log in
            store_url_nl r.1.1 = store_url_nl w
            /\ ((rows_matched (log_of r) = rows_matched log /\ end_of r = LoopDone)
                \/ (rows_matched (log_of r) = rows_matched log + 1
                    /\ end_of r = LoopRaised AttributeError))).
  { clear query w. induction query as [|c query IH]; intros w cnt log; cbn zeta.
    { unfold log_of, end_of. simpl. split; [done|]. by left. }
    cbn [matching_loop].
    destruct (match parser_maximum_entries self with
              | Some m => cnt =? m
              | None => false
              end).
    { unfold log_of, end_of. simpl. rewrite rows_matched_app. simpl.
      split; [done|]. left. split; [lia|done]. }
    destruct (store_stop_file w).
    { unfold log_of, end_of. simpl. rewrite rows_matched_app. simpl.
      split; [done|]. left. split; [lia|done]. }
    destruct (_ && _).
    { destruct (IH w (cnt + 1)
                  (log ++ [(DEBUG, MsgAlreadyProcessed (Company.kvk_nummer c)
                                     (Company.naam c))])) as [Hw Hend].
      rewrite rows_matched_app in Hend. simpl in Hend. rewrite Z.add_0_r in Hend.
      by split. }
    rewrite Hmatch. unfold log_of, end_of. simpl. split; [done|]. right. split; [|done].
    destruct (parser_search_urls self); rewrite ?rows_matched_app; simpl; lia. }
  exact (Hgen query w 0 []).
Qed.

Lemma engine_loop_without_imposed_urls_witness :
  store_url_nl (engine_loop shop_library (shop_parser None) (fun _ => shop_websites)
                  (fun _ => shop_address) [shop_company] shop_store).1.1
  = store_url_nl shop_store
  /\ ((rows_matched
         (log_of (engine_loop shop_library (shop_parser None) (fun _ => shop_websites)
                    (fun _ => shop_address) [shop_company] shop_store)) = 0
       /\ end_of (engine_loop shop_library (shop_parser None) (fun _ => shop_websites)
                    (fun _ => shop_address) [shop_company] shop_store) = LoopDone)
      \/ (rows_matched
            (log_of (engine_loop shop_library (shop_parser None)
                       (fun _ => shop_websites) (fun _ => shop_address)
                       [shop_company] shop_store)) = 1
          /\ end_of (engine_loop shop_library (shop_parser None)
                       (fun _ => shop_websites) (fun _ => shop_address)
                       [shop_company] shop_store)
             = LoopRaised AttributeError)).
Proof.
  apply (engine_loop_without_imposed_urls shop_library (shop_parser None)
           (fun _ => shop_websites) (fun _ => shop_address) [shop_company] shop_store).
  reflexivity.
Defined.

(** X23.  Scoring needs a distance threshold: when the threshold is
    [None] (the default of [KvKUrlParser]) or 0, no candidate can be
    scored, because the URL rank divides by the threshold.  So whenever
    [CompanyUrlMatch] returns with such a threshold, the collection has no
    frame and the company is left exactly as it was. *)
Theorem match_needs_distance_threshold (lib : library) (company : Company.row)
    (websites : list Website.row) (address : list string)
    (imposed_urls : option (gmap Z string)) (distance_threshold : option Z)
    (string_match_threshold : option Q) (save : bool) (i_proc : option Z)
    (internet_scraping : bool) (table : gmap string UrlNL.row) (older_time : option Z)
    (exclude_extension : gset string) (filter_urls : option (list string))
    (cm : company_match)
    (Hthreshold : distance_threshold = None \/ distance_threshold = Some 0)
    (H : CompanyUrlMatch_with lib company websites address imposed_urls
           distance_threshold string_match_threshold save i_proc internet_scraping
           table older_time exclude_extension filter_urls = Returns cm) :
  collection_web_df (match_collection cm) = None
  /\ after_company (match_result_ cm) = company
  /\ after_saved (match_result_ cm) = []
  /\ forall j r,
       Collection.web_df (collection_state (match_collection cm)) !! j = Some r ->
       WebDf.distance r = None /\ WebDf.url r = None.
Proof.
  apply CompanyUrlMatch_inv in H as (imposed & -> & Huc & Hres & Hend).
  apply UrlCollection_inv in Huc as (c & Hc & Hst & Hred).
  destruct (collect_web_sites_frame _ _ _ _ _ Hc) as (_ & _ & _ & Hrows).
  pose proof (collect_web_sites_min _ _ _ _ _ Hc) as Hmin.
  assert (Hnone : forall j r, Collection.web_df (collected_state c) !! j = Some r ->
                    WebDf.distance r = None /\ WebDf.url r = None).
  { intros j r Hr. destruct (Hrows j r Hr) as [_ Hkind].
    destruct Hkind as [->|[->|(web & url & an & m & _ & _ & _ & Hm & _)]]; [done..|].
    apply UrlCompanyRanking_made in Hm as (_ & _ & _ & _ & _ & _ & t & Ht & Hnz).
    simpl in Ht. destruct Hthreshold as [Hn|Hz]; rewrite Ht in *; [done|].
    injection Hz as ->. done. }
  assert (Hcol : column_min (Collection.web_df (collected_state c)) = None).
  { destruct (column_min _) as [m|] eqn:Hm; [|done].
    apply column_min_spec in Hm as [(r & Hr & Hd) _].
    apply In_lookup in Hr as [j Hj]. destruct (Hnone j r Hj) as [Hn _]. congruence. }
  pose proof Hc as Hc'. unfold collect_web_sites_with in Hc'.
  apply collect_web_sites_inv in Hc' as (_ & Hdf & _).
  rewrite Hmin, Hcol in Hdf. rewrite Hdf in Hred.
  assert (collection_web_df (match_collection cm) = None) as Hframe.
  { unfold reduce_web_df in Hred.
    destruct (imposed !! Company.kvk_nummer company) as [u|];
      [destruct (String.eqb u "")|]; simpl in Hred; congruence. }
  rewrite Hres, Hframe, Hst. simpl. done.
Qed.

Lemma match_needs_distance_threshold_witness :
  collection_web_df (match_collection unscored_match) = None
  /\ after_company (match_result_ unscored_match) = shop_company
  /\ after_saved (match_result_ unscored_match) = []
  /\ forall j r,
       Collection.web_df (collection_state (match_collection unscored_match)) !! j
       = Some r ->
       WebDf.distance r = None /\ WebDf.url r = None.
Proof.
  apply (match_needs_distance_threshold shop_library shop_company unscored_websites
           shop_address (Some ∅) None (Some (1 # 2)) true (Some 0) true shop_registry
           (Some hour) {["be"%string]} None unscored_match).
  - by left.
  - vm_compute. reflexivity.
Defined.
